(** * CurseForge MCP server: credential tiers, cookie store, request dispatch

    A shallow embedding of the TypeScript sources
    ([server.ts], [clients/web-client.ts], [clients/cookie-extractor.ts],
    [clients/upload-client.ts], [clients/cfwidget-client.ts], the search
    options of [clients/curseforge-client.ts], [tools/*.ts],
    [utils/helpers.ts], [utils/types.ts]) and the properties of the
    specification that are stated over them, followed by further
    properties read off the code.

    Conventions of the model.
    - A JavaScript string is a [string] of the Standard Library, read as a
      sequence of ASCII code units; the engine's Unicode tables beyond
      U+007F (further white space, further case pairs) are not modelled,
      so [trim], [toUpperCase], [toLowerCase] and [encodeURIComponent]
      are those of the engine on ASCII strings.  A property whose truth
      depends on them beyond that range carries the hypothesis that its
      strings are ASCII ([Spec.isAscii]).
    - A JavaScript number is an integer [Z], printed in decimal; tool
      arguments and JSON numbers that are not integers are not modelled.
    - Code that throws returns [Throw msg]: [msg] is what the handlers'
      [e instanceof Error ? e.message : String(e)] reads off the exception.
    - Mutable objects (the cookie field of [WebClient], the file system,
      the network) live in one explicit [State]; a method is a function
      [State -> Outcome A * State], and the state component survives a
      throw, as the mutation of a JavaScript object does.  In [State] the
      cookie field holds cookie entries, as its declared type says; the
      constructor assigns it whatever the session file parses to, so the
      start-up code runs on a [WebClient.Client], where the field may
      hold any JSON value.
    - What the engine or a third-party package provides (JSON, [fetch],
      the URL parser, [path.dirname], the browser readers of
      [@rookie-rs/api], the [curseforge-api] constructor) is a field of
      the environment record [Env]; nothing is assumed about it unless a
      statement says so.
    - [console.error] only writes a diagnostic line and is left out. *)

From Stdlib Require Import String Ascii List ZArith Lia Bool.
From stdpp Require Import base option list strings gmap pretty.

Local Open Scope string_scope.
Set Warnings "-register-all,-abstract-large-number".

(** ** JavaScript string primitives *)

Module JsString.

(** White space removed by [String.prototype.trim], ASCII part:
    TAB, LF, VT, FF, CR and SPACE.  The engine also removes U+00A0,
    U+FEFF, the line separators and the other space separators, which an
    ASCII string does not hold. *)
Definition isWhiteSpace (c : ascii) : bool :=
  let n := nat_of_ascii c in
  (Nat.leb 9 n && Nat.leb n 13) || Nat.eqb n 32.

Fixpoint trimStart (s : string) : string :=
  match s with
  | EmptyString => EmptyString
  | String c s' => if isWhiteSpace c then trimStart s' else s
  end.

Fixpoint trimEnd (s : string) : string :=
  match s with
  | EmptyString => EmptyString
  | String c s' =>
      match trimEnd s' with
      | EmptyString => if isWhiteSpace c then EmptyString else String c EmptyString
      | t => String c t
      end
  end.

(** [s.trim()] *)
Definition trim (s : string) : string := trimEnd (trimStart s).

(** [s.split(sep)] for a one-character separator: never the empty list,
    the empty string splits into one empty piece. *)
Fixpoint split (sep : ascii) (s : string) : list string :=
  match s with
  | EmptyString => [EmptyString]
  | String c s' =>
      if Ascii.eqb c sep then EmptyString :: split sep s'
      else match split sep s' with
           | piece :: rest => String c piece :: rest
           | [] => [String c EmptyString]
           end
  end.

(** [s.indexOf(c)] for a one-character needle; [None] stands for [-1]. *)
Fixpoint indexOf (c : ascii) (s : string) : option nat :=
  match s with
  | EmptyString => None
  | String d s' =>
      if Ascii.eqb d c then Some 0
      else match indexOf c s' with
           | Some i => Some (S i)
           | None => None
           end
  end.

(** [s.slice(n)] for [0 <= n]. *)
Fixpoint sliceFrom (n : nat) (s : string) : string :=
  match n, s with
  | O, _ => s
  | S n', String _ s' => sliceFrom n' s'
  | S _, EmptyString => EmptyString
  end.

(** [s.slice(0, n)] for [0 <= n]. *)
Fixpoint sliceTo (n : nat) (s : string) : string :=
  match n, s with
  | S n', String c s' => String c (sliceTo n' s')
  | _, _ => EmptyString
  end.

(** [Boolean(s)]: a string is truthy iff it is not empty. *)
Definition truthy (s : string) : bool :=
  match s with EmptyString => false | String _ _ => true end.

Definition upperChar (c : ascii) : ascii :=
  let n := nat_of_ascii c in
  if Nat.leb 97 n && Nat.leb n 122 then ascii_of_nat (n - 32) else c.

(** [s.toUpperCase()] on ASCII strings; beyond them the engine has
    further case pairs (U+017F is upper-cased to [S]). *)
Fixpoint toUpperCase (s : string) : string :=
  match s with
  | EmptyString => EmptyString
  | String c s' => String (upperChar c) (toUpperCase s')
  end.

(** [s.startsWith(p)] *)
Fixpoint startsWith (p s : string) : bool :=
  match p, s with
  | EmptyString, _ => true
  | String a p', String b s' => Ascii.eqb a b && startsWith p' s'
  | String _ _, EmptyString => false
  end.

(** [s.includes(p)] *)
Fixpoint includes (p s : string) : bool :=
  startsWith p s ||
  match s with
  | EmptyString => false
  | String _ s' => includes p s'
  end.

(** [parts.join(sep)] *)
Fixpoint join (sep : string) (parts : list string) : string :=
  match parts with
  | [] => EmptyString
  | [p] => p
  | p :: rest => p +:+ sep +:+ join sep rest
  end.

End JsString.

Import JsString.

(** ** utils/types.ts *)

Record CookieEntry := mkCookieEntry {
  name : string;
  value : string;
  domain : string;
  path : string;
}.

Record ToolResult := mkToolResult {
  text : string;
  isError : bool;
}.

Definition success (t : string) : ToolResult :=
  {| text := t; isError := false |}.

Definition error (t : string) : ToolResult :=
  {| text := "Error: " +:+ t; isError := true |}.

(** ** The cookie-string parser of [WebClient.setCookiesFromString] *)

(** The body of the second [map]: [null] is [None]. *)
Definition entryOfSegment (c : string) : option CookieEntry :=
  match indexOf "="%char c with
  | None => None
  | Some eqIdx =>
      Some {| name := trim (sliceTo eqIdx c);
              value := trim (sliceFrom (eqIdx + 1) c);
              domain := ".curseforge.com";
              path := "/" |}
  end.

(** [cookieString.split(";").map(trim).filter(Boolean).map(...).filter(c => c !== null)] *)
Definition parseCookieString (cookieString : string) : list CookieEntry :=
  omap entryOfSegment
    (List.filter truthy (List.map trim (split ";"%char cookieString))).

(** ** The outside world *)

(** *** JSON values, as far as the tools build and pass them *)

Inductive json :=
| JNull
| JBool (b : bool)
| JNum (n : Z)
| JStr (s : string)
| JArr (items : list json)
| JObj (fields : list (string * json)).

(** *** Cookie entries as JSON values

    [JSON.parse] returns a value of any shape; the field it is assigned
    to is declared [CookieEntry[]] but the cast is not checked. *)

(** The object [JSON.stringify] sees for a cookie entry. *)
Definition cookieToJson (c : CookieEntry) : json :=
  JObj [("name", JStr (name c)); ("value", JStr (value c));
        ("domain", JStr (domain c)); ("path", JStr (path c))].

(** A parsed value that is a cookie entry as [saveCookies] writes one: an
    object with the members [name], [value], [domain] and [path], in this
    order and no other, all strings.  An object with further members or
    another member order is kept by the engine as it is, and is no entry
    here. *)
Definition cookieOfJson (j : json) : option CookieEntry :=
  match j with
  | JObj [(k1, JStr n); (k2, JStr v); (k3, JStr d); (k4, JStr p)] =>
      if String.eqb k1 "name" && String.eqb k2 "value" &&
         String.eqb k3 "domain" && String.eqb k4 "path"
      then Some (mkCookieEntry n v d p)
      else None
  | _ => None
  end.

(** A parsed value that is an array of cookie entries. *)
Definition entriesOf (j : json) : option (list CookieEntry) :=
  match j with
  | JArr items => mapM cookieOfJson items
  | _ => None
  end.

(** What the field [cookies] of a client holds: cookie entries, or the
    value of another shape that [loadCookies] found in the session file,
    kept as it was parsed. *)
Inductive Store :=
| Entries (cs : list CookieEntry)
| Foreign (j : json).

Definition storeOf (j : json) : Store :=
  match entriesOf j with
  | Some cs => Entries cs
  | None => Foreign j
  end.

(** *** HTTP *)

Definition Headers := list (string * string).

(** [headers[k] = v] on an object literal: an existing key keeps its
    place, a new key goes last. *)
Fixpoint setHeader (k v : string) (h : Headers) : Headers :=
  match h with
  | [] => [(k, v)]
  | (k', v') :: rest =>
      if String.eqb k' k then (k, v) :: rest else (k', v') :: setHeader k v rest
  end.

(** Object spread [{ ...h, ...extra }]. *)
Definition spread (h extra : Headers) : Headers :=
  fold_left (fun acc kv => setHeader (fst kv) (snd kv) acc) extra h.

Inductive FormValue :=
| FormText (s : string)
| FormFile (contents fileName : string).

Inductive Body :=
| NoBody
| TextBody (s : string)
| FormBody (parts : list (string * FormValue)).

Record Request := mkRequest {
  req_url : string;
  req_method : string;
  req_headers : Headers;
  req_body : Body;
}.

Record Response := mkResponse {
  status : N;
  res_url : string;
  (** [res.headers.get("content-type")], [None] for [null] *)
  content_type : option string;
  (** what [res.text()] resolves to; [None] when reading the body rejects *)
  body_text : option string;
}.

Inductive FetchResult :=
| NetworkError (msg : string)
| Responded (r : Response).

(** [res.ok] *)
Definition ok (r : Response) : bool :=
  (N.leb 200 (status r) && N.leb (status r) 299)%N.

(** *** The file system of [node:fs] *)

Inductive Node :=
| File (contents : string)
| Dir.

(** *** [@rookie-rs/api] *)

Record CookieObject := mkCookieObject {
  co_domain : string;
  co_path : string;
  co_secure : bool;
  co_expires : option Z;
  co_name : string;
  co_value : string;
  co_httpOnly : bool;
  co_sameSite : Z;
}.

Inductive BrowserRead :=
| BrowserThrows
| BrowserCookies (raw : list CookieObject).

Definition BrowserFn := list string -> BrowserRead.

Record RookieApi := mkRookieApi {
  chrome : BrowserFn;
  firefox : BrowserFn;
  edge : BrowserFn;
  brave : BrowserFn;
  chromium : BrowserFn;
  opera : BrowserFn;
  operaGx : BrowserFn;
  vivaldi : BrowserFn;
  arc : BrowserFn;
  librewolf : BrowserFn;
  octoBrowser : BrowserFn;
  internetExplorer : BrowserFn;
}.

(** What a request resolves to in [WebClient.request]: [res.json()] or
    [res.text()]. *)
Inductive Payload :=
| PJson (j : json)
| PText (s : string).

Inductive Outcome (A : Type) :=
| Ret (a : A)
| Throw (msg : string).
Arguments Ret {A} a.
Arguments Throw {A} msg.

(** *** The environment: everything the repository imports but does not define *)

Record Env := mkEnv {
  (** [process.platform], [process.env], [__dirname] *)
  platform : string;
  process_env : gmap string string;
  module_dirname : string;
  (** [node:path] *)
  path_resolve : list string -> string;
  path_dirname : string -> string;
  path_basename : string -> string;
  (** [JSON.stringify(cookies, null, 2)] on an array of cookie entries *)
  JSON_stringify_cookies : list CookieEntry -> string;
  (** [JSON.stringify(v)] and [JSON.parse(s)] on arbitrary values; [None]
      when [JSON.parse] throws, and then the message of its [SyntaxError],
      which depends on the text *)
  JSON_stringify : json -> string;
  JSON_parse : string -> option json;
  JSON_parse_message : string -> string;
  (** the message of the error with which [res.text()] or [res.json()]
      rejects when the body of a response cannot be read *)
  body_read_message : Response -> string;
  (** the comparison [v > 0] of the engine, with its conversions *)
  greater_than_zero : json -> bool;
  (** [Some msg] when the operating system refuses to create this
      directory, or to write this file, for a reason outside the tree that
      [State] tracks (a file among the ancestors, permissions, a read-only
      or full volume): [msg] is the message of the error *)
  mkdir_refused : string -> option string;
  write_refused : string -> option string;
  (** [new URL(u).origin], [None] when the constructor throws *)
  URL_origin : string -> option string;
  (** [fetch], given the requests issued so far *)
  fetch : list Request -> Request -> FetchResult;
  (** [await import("@rookie-rs/api")], [None] when the import fails *)
  import_rookie : option RookieApi;
  (** [new CurseForgeClient(key)] of [curseforge-api]: [Some msg] when it throws *)
  CurseForgeClient_new : string -> option string;
  (** lines 88-92 of the [get_comments] handler: the received page run
      through [helpers.formatCommentThread], for the page number given *)
  renderComments : Payload -> Z -> Outcome string;
}.

(** ** State and the monad of effects *)

Record State := mkState {
  (** [WebClient.cookies] *)
  cookies : list CookieEntry;
  (** files and directories by path *)
  fs : gmap string Node;
  (** requests handed to [fetch], oldest first *)
  net : list Request;
  (** browsers whose reader was called, oldest first *)
  probed : list string;
}.

Definition M (A : Type) : Type := State -> Outcome A * State.

Definition ret {A} (a : A) : M A := fun st => (Ret a, st).

Definition throw {A} (msg : string) : M A := fun st => (Throw msg, st).

Definition bind {A B} (m : M A) (k : A -> M B) : M B :=
  fun st =>
    match m st with
    | (Ret a, st') => k a st'
    | (Throw msg, st') => (Throw msg, st')
    end.

(** [try { m } catch (e) { handler(message of e) }] *)
Definition tryCatch {A} (m : M A) (handler : string -> M A) : M A :=
  fun st =>
    match m st with
    | (Ret a, st') => (Ret a, st')
    | (Throw msg, st') => handler msg st'
    end.

Notation "'do' x <- m ; k" := (bind m (fun x => k))
  (at level 10, x name, m at level 100, k at level 200).
Notation "m ;; k" := (bind m (fun _ => k))
  (at level 100, k at level 200, right associativity).

Definition get_state : M State := fun st => (Ret st, st).

Definition set_cookies (cs : list CookieEntry) : M unit :=
  fun st => (Ret tt, {| cookies := cs; fs := fs st; net := net st; probed := probed st |}).

Definition set_fs (f : gmap string Node) : M unit :=
  fun st => (Ret tt, {| cookies := cookies st; fs := f; net := net st; probed := probed st |}).

Definition log_request (r : Request) : M unit :=
  fun st => (Ret tt, {| cookies := cookies st; fs := fs st; net := net st ++ [r]; probed := probed st |}).

Definition log_probe (browser : string) : M unit :=
  fun st => (Ret tt, {| cookies := cookies st; fs := fs st; net := net st; probed := probed st ++ [browser] |}).

(** *** [node:fs] *)

Definition existsSync (p : string) : M bool :=
  fun st => (Ret (bool_decide (is_Some (fs st !! p))), st).

Definition readFileSync (p : string) : M string :=
  fun st =>
    match fs st !! p with
    | Some (File s) => (Ret s, st)
    | Some Dir => (Throw "EISDIR: illegal operation on a directory, read", st)
    | None => (Throw ("ENOENT: no such file or directory, open '" +:+ p +:+ "'"), st)
    end.

(** [mkdirSync(p, { recursive: true })]: nothing to do on a directory,
    refused on a regular file, and on a missing path whenever the
    operating system refuses. Of the directories created only [p] is
    recorded. *)
Definition mkdirSync (E : Env) (p : string) : M unit :=
  fun st =>
    match fs st !! p with
    | Some (File _) => (Throw ("EEXIST: file already exists, mkdir '" +:+ p +:+ "'"), st)
    | Some Dir => (Ret tt, st)
    | None =>
        match mkdir_refused E p with
        | Some msg => (Throw msg, st)
        | None => set_fs (<[p := Dir]> (fs st)) st
        end
    end.

(** [writeFileSync(p, data)]: the containing directory must be there,
    [p] itself must not be a directory, and the operating system must not
    refuse. *)
Definition writeFileSync (E : Env) (p data : string) : M unit :=
  fun st =>
    match fs st !! p with
    | Some Dir => (Throw ("EISDIR: illegal operation on a directory, open '" +:+ p +:+ "'"), st)
    | _ =>
        match fs st !! path_dirname E p with
        | Some Dir =>
            match write_refused E p with
            | Some msg => (Throw msg, st)
            | None => set_fs (<[p := File data]> (fs st)) st
            end
        | Some (File _) => (Throw ("ENOTDIR: not a directory, open '" +:+ p +:+ "'"), st)
        | None => (Throw ("ENOENT: no such file or directory, open '" +:+ p +:+ "'"), st)
        end
    end.

(** ** config.ts *)

Record Config := mkConfig {
  curseforgeApiKey : string;
  curseforgeAuthorToken : string;
  curseforgeGameSlug : string;
  authDir : string;
  cookiesPath : string;
}.

(** [process.env.X], the empty string when unset *)
Definition getenv (E : Env) (x : string) : string :=
  match process_env E !! x with
  | Some v => v
  | None => EmptyString
  end.

Definition loadConfig (E : Env) : Config :=
  let authDir := path_resolve E [module_dirname E; ".."; ".auth"] in
  {| curseforgeApiKey := getenv E "CURSEFORGE_API_KEY";
     curseforgeAuthorToken := getenv E "CURSEFORGE_AUTHOR_TOKEN";
     curseforgeGameSlug := getenv E "CURSEFORGE_GAME_SLUG";
     authDir := authDir;
     cookiesPath := path_resolve E [authDir; "cookies.json"] |}.

(** ** utils/helpers.ts *)

Definition compact (E : Env) (data : json) : string := JSON_stringify E data.

Definition truncate (t : string) : string :=
  if Nat.leb (String.length t) 20000 then t
  else sliceTo 20000 t +:+ String "010"%char "... [truncated]".

Definition UA_PLATFORMS (p : string) : option string :=
  if String.eqb p "win32" then Some "Windows NT 10.0; Win64; x64"
  else if String.eqb p "darwin" then Some "Macintosh; Intel Mac OS X 10_15_7"
  else if String.eqb p "linux" then Some "X11; Linux x86_64"
  else None.

Definition platformUA (E : Env) : string :=
  match UA_PLATFORMS (platform E) with
  | Some ua => ua
  | None => "X11; Linux x86_64"
  end.

Definition USER_AGENT (E : Env) : string :=
  "Mozilla/5.0 (" +:+ platformUA E +:+
  ") AppleWebKit/537.36 (KHTML, like Gecko) Chrome/131.0.0.0 Safari/537.36".

(** ** clients/cookie-extractor.ts *)

Record ExtractionResult := mkExtractionResult {
  browser : string;
  extracted : list CookieEntry;
  extraction_error : option string;
}.

Definition CF_DOMAINS : list string := [".curseforge.com"].

Definition toCookieEntries (raw : list CookieObject) : list CookieEntry :=
  List.map (fun c => {| name := co_name c; value := co_value c;
                        domain := co_domain c; path := co_path c |}) raw.

Definition browsers (api : RookieApi) : list (string * BrowserFn) :=
  [ ("Chrome", chrome api);
    ("Firefox", firefox api);
    ("Edge", edge api);
    ("Brave", brave api);
    ("Chromium", chromium api);
    ("Opera", opera api);
    ("Opera GX", operaGx api);
    ("Vivaldi", vivaldi api);
    ("Arc", arc api);
    ("LibreWolf", librewolf api);
    ("OctoBrowser", octoBrowser api);
    ("Internet Explorer", internetExplorer api) ].

(** The [for (const [name, fn] of browsers)] loop and the [return] after it. *)
Fixpoint extractFrom (bs : list (string * BrowserFn)) : M ExtractionResult :=
  match bs with
  | [] =>
      ret {| browser := "none"; extracted := [];
             extraction_error := Some "No browser had curseforge.com cookies" |}
  | (name, fn) :: rest =>
      log_probe name ;;
      match fn CF_DOMAINS with
      | BrowserCookies raw =>
          if Nat.ltb 0 (List.length raw)
          then ret {| browser := name; extracted := toCookieEntries raw;
                      extraction_error := None |}
          else extractFrom rest
      | BrowserThrows => extractFrom rest
      end
  end.

Definition extractCookies (E : Env) : M ExtractionResult :=
  match import_rookie E with
  | None =>
      ret {| browser := "none"; extracted := [];
             extraction_error :=
               Some "@rookie-rs/api not available on this platform. Use cf_set_cookies to set cookies manually." |}
  | Some rookieApi => extractFrom (browsers rookieApi)
  end.

(** ** clients/web-client.ts, the direct-HTTP client

    The browser-mediated variant of the class keeps the same cookie store
    (load, set, parse, save, extract, token lookup); it differs in
    forwarding each new Cookie Set to its [BrowserClient] and in handing
    [request] over to it. *)

Section WebClient.

Variable E : Env.
Variable config : Config.

(** The methods of this section take the field [cookies] to hold cookie
    entries, as its declared type says; the constructor, [loadCookies] and
    [init], which meet whatever the session file holds, follow in
    [Module WebClient] below. *)

Definition saveCookies : M unit :=
  let dir := path_dirname E (cookiesPath config) in
  do present <- existsSync dir;
  (if (present : bool) then ret tt else mkdirSync E dir) ;;
  do st <- get_state;
  writeFileSync E (cookiesPath config)
    (JSON_stringify_cookies E (cookies st)).

Definition setCookies (cs : list CookieEntry) : M unit :=
  set_cookies cs ;; saveCookies.

Definition setCookiesFromString (cookieString : string) : M unit :=
  let entries := parseCookieString cookieString in
  set_cookies entries ;; saveCookies.

Definition getCookieHeader (cs : list CookieEntry) : string :=
  join "; " (List.map (fun c => name c +:+ "=" +:+ value c) cs).

Definition isXsrfName (c : CookieEntry) : bool :=
  String.eqb (toUpperCase (name c)) "XSRF-TOKEN" ||
  String.eqb (toUpperCase (name c)) "X-XSRF-TOKEN".

(** [this.cookies.find(...)?.value] *)
Definition getXsrfToken (cs : list CookieEntry) : option string :=
  match List.find isXsrfName cs with
  | Some xsrf => Some (value xsrf)
  | None => None
  end.

Definition browserHeaders (cs : list CookieEntry) (targetUrl : string)
    (extra : Headers) : Headers :=
  let origin :=
    match URL_origin E targetUrl with
    | Some o => o
    | None => "https://www.curseforge.com"
    end in
  let headers :=
    spread [ ("User-Agent", USER_AGENT E);
             ("Cookie", getCookieHeader cs);
             ("Accept", "application/json");
             ("Origin", origin);
             ("Referer", origin +:+ "/") ] extra in
  match getXsrfToken cs with
  | Some xsrf => if truthy xsrf then setHeader "X-XSRF-TOKEN" xsrf headers else headers
  | None => headers
  end.

Definition hasCookies : M bool :=
  fun st => (Ret (Nat.ltb 0 (List.length (cookies st))), st).

Definition autoExtractCookies : M string :=
  tryCatch
    (do result <- extractCookies E;
     if Nat.ltb 0 (List.length (extracted result)) then
       set_cookies (extracted result) ;;
       saveCookies ;;
       ret ("Extracted " +:+ pretty (List.length (extracted result)) +:+
            " cookies from " +:+ browser result)
     else
       ret (match extraction_error result with
            | Some e => if truthy e then e else "No cookies found"
            | None => "No cookies found"
            end))
    (fun msg => ret ("Auto-extraction failed: " +:+ msg)).

(** [await fetch(url, init)]: the request is recorded, then answered. *)
Definition doFetch (r : Request) : M Response :=
  fun st =>
    match fetch E (net st) r with
    | Responded res => bind (log_request r) (fun _ => ret res) st
    | NetworkError msg => bind (log_request r) (fun _ => throw msg) st
    end.

(** The message of the [Error] thrown on a response that is not [ok]. *)
Definition httpErrorMessage (res : Response) (url : string) : string :=
  let errorBody := match body_text res with Some b => b | None => EmptyString end in
  "HTTP " +:+ pretty (status res) +:+ ": " +:+ url +:+
  (if truthy errorBody then String "010"%char (sliceTo 500 errorBody) else EmptyString).

(** The arguments [request] hands to [fetch], for the cookies of the moment. *)
Definition requestInit (cs : list CookieEntry) (url method : string)
    (body : option json) (extraHeaders : Headers) : Request :=
  {| req_url := url;
     req_method := method;
     req_headers :=
       browserHeaders cs url
         (spread (match body with
                  | Some _ => [("Content-Type", "application/json")]
                  | None => []
                  end) extraHeaders);
     req_body := match body with
                 | Some b => TextBody (JSON_stringify E b)
                 | None => NoBody
                 end |}.

Definition request (url method : string) (body : option json)
    (extraHeaders : Headers) : M Payload :=
  do st <- get_state;
  do res <- doFetch (requestInit (cookies st) url method body extraHeaders);
  if negb (ok res) then throw (httpErrorMessage res url)
  else
    let contentType := match content_type res with Some c => c | None => EmptyString end in
    if includes "application/json" contentType then
      match body_text res with
      | None => throw (body_read_message E res)
      | Some b =>
          match JSON_parse E b with
          | Some j => ret (PJson j)
          | None => throw (JSON_parse_message E b)
          end
      end
    else
      match body_text res with
      | None => throw (body_read_message E res)
      | Some b => ret (PText b)
      end.

Definition get (url : string) : M Payload := request url "GET" None [].
Definition post (url : string) (body : option json) : M Payload := request url "POST" body [].
Definition put (url : string) (body : option json) : M Payload := request url "PUT" body [].
Definition delete (url : string) : M Payload := request url "DELETE" None [].

End WebClient.

(** ** clients/web-client.ts: the client from its construction

    [loadCookies] assigns to the field whatever [JSON.parse] returned, so
    from the constructor on the field holds a value of any shape. A
    [Client] is the state above together with that value when it is not an
    array of cookie entries. *)

Module WebClient.

Record Client := mkClient {
  (** [Some j]: the field holds [j], which is not an array of cookie
      entries; [None]: it holds [cookies typed] *)
  foreign : option json;
  typed : State;
}.

(** What the field holds. *)
Definition store (c : Client) : Store :=
  match foreign c with
  | Some j => Foreign j
  | None => Entries (cookies (typed c))
  end.

(** The client whose field holds the cookie entries of [st]. *)
Definition ofState (st : State) : Client :=
  {| foreign := None; typed := st |}.

Definition MC (A : Type) : Type := Client -> Outcome A * Client.

Definition retC {A} (a : A) : MC A := fun c => (Ret a, c).

Definition throwC {A} (msg : string) : MC A := fun c => (Throw msg, c).

Definition bindC {A B} (m : MC A) (k : A -> MC B) : MC B :=
  fun c =>
    match m c with
    | (Ret a, c') => k a c'
    | (Throw msg, c') => (Throw msg, c')
    end.

Definition tryCatchC {A} (m : MC A) (handler : string -> MC A) : MC A :=
  fun c =>
    match m c with
    | (Ret a, c') => (Ret a, c')
    | (Throw msg, c') => handler msg c'
    end.

Notation "'doC' x <- m ; k" := (bindC m (fun x => k))
  (at level 10, x name, m at level 100, k at level 200).
Notation "m ;;; k" := (bindC m (fun _ => k))
  (at level 100, k at level 200, right associativity).

(** Code of the section above, run by a client: it leaves the foreign
    value alone. Used for code that does not read the field, and for
    [saveCookies] right after the field was assigned cookie entries. *)
Definition lift {A} (m : M A) : MC A :=
  fun c =>
    let (o, st') := m (typed c) in
    (o, {| foreign := foreign c; typed := st' |}).

(** [this.cookies = v] *)
Definition assign (v : Store) : MC unit :=
  fun c =>
    (Ret tt,
     match v with
     | Entries cs =>
         {| foreign := None;
            typed := {| cookies := cs; fs := fs (typed c); net := net (typed c);
                        probed := probed (typed c) |} |}
     | Foreign j =>
         {| foreign := Some j;
            typed := {| cookies := []; fs := fs (typed c); net := net (typed c);
                        probed := probed (typed c) |} |}
     end).

Section Methods.

Variable E : Env.
Variable config : Config.

Definition loadCookies : MC unit :=
  doC present <- lift (existsSync (cookiesPath config));
  if (present : bool) then
    tryCatchC
      (doC data <- lift (readFileSync (cookiesPath config));
       match JSON_parse E data with
       | Some j => assign (storeOf j)
       | None => throwC (JSON_parse_message E data)
       end)
      (fun _ => assign (Entries []))
  else retC tt.

(** The constructor: the field initialiser, then [loadCookies]. *)
Definition new : MC unit :=
  assign (Entries []) ;;; loadCookies.

(** [v.length > 0] on the value the field holds: reading a property of
    [null] throws, a missing [length] is [undefined] and compares false. *)
Definition lengthPositive (v : Store) : Outcome bool :=
  match v with
  | Entries cs => Ret (Nat.ltb 0 (List.length cs))
  | Foreign JNull => Throw "Cannot read properties of null (reading 'length')"
  | Foreign (JBool _) => Ret false
  | Foreign (JNum _) => Ret false
  | Foreign (JStr s) => Ret (truthy s)
  | Foreign (JArr items) => Ret (Nat.ltb 0 (List.length items))
  | Foreign (JObj fields) =>
      match List.find (fun kv => String.eqb (fst kv) "length") fields with
      | Some (_, v) => Ret (greater_than_zero E v)
      | None => Ret false
      end
  end.

Definition hasCookies : MC bool :=
  fun c =>
    match lengthPositive (store c) with
    | Ret b => (Ret b, c)
    | Throw msg => (Throw msg, c)
    end.

Definition autoExtractCookies : MC string :=
  tryCatchC
    (doC result <- lift (extractCookies E);
     if Nat.ltb 0 (List.length (extracted result)) then
       assign (Entries (extracted result)) ;;;
       lift (saveCookies E config) ;;;
       retC ("Extracted " +:+ pretty (List.length (extracted result)) +:+
             " cookies from " +:+ browser result)
     else
       retC (match extraction_error result with
             | Some e => if truthy e then e else "No cookies found"
             | None => "No cookies found"
             end))
    (fun msg => retC ("Auto-extraction failed: " +:+ msg)).

Definition init : MC unit :=
  doC has <- hasCookies;
  if (has : bool) then retC tt else (autoExtractCookies ;;; retC tt).

End Methods.

End WebClient.

(** ** clients/upload-client.ts *)

Record UploadMetadata := mkUploadMetadata {
  changelog : option string;
  changelogType : option string;
  displayName : option string;
  parentFileID : option Z;
  gameVersions : list Z;
  releaseType : string;
  relations : option (list (string * string));
}.

(** The value [JSON.stringify] sees: [undefined] members are left out. *)
Definition metadataToJson (m : UploadMetadata) : json :=
  let opt (k : string) (v : option json) : list (string * json) :=
    match v with Some j => [(k, j)] | None => [] end in
  JObj (opt "changelog" (JStr <$> changelog m) ++
        opt "changelogType" (JStr <$> changelogType m) ++
        opt "displayName" (JStr <$> displayName m) ++
        opt "parentFileID" (JNum <$> parentFileID m) ++
        [("gameVersions", JArr (List.map JNum (gameVersions m)));
         ("releaseType", JStr (releaseType m))] ++
        opt "relations"
          ((fun ps => JObj [("projects",
              JArr (List.map (fun p => JObj [("slug", JStr (fst p)); ("type", JStr (snd p))]) ps))])
           <$> relations m)).

Module UploadApiClient.

Definition BASE_URL : string := "https://www.curseforge.com".

(** The constructor; the object is its token. *)
Definition new (config : Config) : Outcome string :=
  if truthy (curseforgeAuthorToken config)
  then Ret (curseforgeAuthorToken config)
  else Throw "CURSEFORGE_AUTHOR_TOKEN is required for Upload API".

Section Methods.

Variable E : Env.
Variable token : string.

Definition headers : Headers :=
  [("X-Api-Token", token); ("User-Agent", USER_AGENT E)].

(** [res.json()] *)
Definition resJson (res : Response) : M json :=
  match body_text res with
  | None => throw (body_read_message E res)
  | Some b =>
      match JSON_parse E b with
      | Some j => ret j
      | None => throw (JSON_parse_message E b)
      end
  end.

(** [res.text()] *)
Definition resText (res : Response) : M string :=
  match body_text res with
  | None => throw (body_read_message E res)
  | Some b => ret b
  end.

Definition getGameVersions : M json :=
  do res <- doFetch E {| req_url := BASE_URL +:+ "/api/game/versions";
                         req_method := "GET"; req_headers := headers;
                         req_body := NoBody |};
  if negb (ok res)
  then throw ("Upload API error " +:+ pretty (status res) +:+ " at " +:+ res_url res)
  else resJson res.

Definition getGameVersionTypes : M json :=
  do res <- doFetch E {| req_url := BASE_URL +:+ "/api/game/version-types";
                         req_method := "GET"; req_headers := headers;
                         req_body := NoBody |};
  if negb (ok res)
  then throw ("Upload API error " +:+ pretty (status res) +:+ " at " +:+ res_url res)
  else resJson res.

Definition uploadFile (projectId : Z) (filePath : string)
    (metadata : UploadMetadata) : M json :=
  do fileBuffer <- readFileSync filePath;
  let fileName := path_basename E filePath in
  let formData :=
    [ ("metadata", FormText (JSON_stringify E (metadataToJson metadata)));
      ("file", FormFile fileBuffer fileName) ] in
  do res <- doFetch E
    {| req_url := BASE_URL +:+ "/api/projects/" +:+ pretty projectId +:+ "/upload-file";
       req_method := "POST";
       req_headers := [("X-Api-Token", token); ("User-Agent", USER_AGENT E)];
       req_body := FormBody formData |};
  if negb (ok res) then
    do errorText <- resText res;
    throw ("Upload failed (" +:+ pretty (status res) +:+ "): " +:+ errorText)
  else resJson res.

End Methods.

End UploadApiClient.

(** ** clients/curseforge-client.ts: the constructor *)

Module CoreApiClient.

Definition new (E : Env) (config : Config) : Outcome string :=
  if truthy (curseforgeApiKey config) then
    match CurseForgeClient_new E (curseforgeApiKey config) with
    | Some msg => Throw msg
    | None => Ret (curseforgeApiKey config)
    end
  else Throw "CURSEFORGE_API_KEY is required for Core API access".

End CoreApiClient.

(** ** tools/web-api.ts: the handlers *)

Inductive HttpMethod := GET | POST | PUT | DELETE.

Module WebTools.

Definition CF_BASE : string := "https://www.curseforge.com".
Definition AUTHORS_API : string := "https://authors.curseforge.com/_api".

Definition NO_SESSION : string := "No session cookies. Use cf_auto_extract_cookies first.".

(** [`${b}`] for a boolean *)
Definition showBool (b : bool) : string := if b then "true" else "false".

Definition liftOutcome {A} (o : Outcome A) : M A :=
  match o with Ret a => ret a | Throw msg => throw msg end.

Section Handlers.

Variable E : Env.
Variable config : Config.

Definition cf_set_cookies (cookieString : string) : M ToolResult :=
  tryCatch
    (setCookiesFromString E config cookieString ;;
     do has <- hasCookies;
     ret (success ("Cookies saved. Session active: " +:+ showBool has)))
    (fun msg => ret (error ("set_cookies: " +:+ msg))).

Definition cf_auto_extract_cookies : M ToolResult :=
  tryCatch
    (do result <- autoExtractCookies E config;
     do has <- hasCookies;
     ret (success (result +:+ String "010"%char "Session active: " +:+ showBool has)))
    (fun msg => ret (error ("auto_extract: " +:+ msg))).

Definition get_comments (mod_id page page_size : Z) : M ToolResult :=
  do has <- hasCookies;
  if negb has then ret (error NO_SESSION) else
  tryCatch
    (let index := ((page - 1) * page_size)%Z in
     do data <- get E (CF_BASE +:+ "/api/v1/mods/" +:+ pretty mod_id +:+
                       "/comments?index=" +:+ pretty index +:+
                       "&pageSize=" +:+ pretty page_size);
     do rendered <- liftOutcome (renderComments E data page);
     ret (success rendered))
    (fun msg => ret (error ("get_comments: " +:+ msg))).

Definition post_comment (mod_id : Z) (comment_text : string)
    (reply_to_id : option Z) : M ToolResult :=
  do has <- hasCookies;
  if negb has then ret (error NO_SESSION) else
  tryCatch
    (let body : list (string * json) :=
       ([("entityId", JNum mod_id); ("body", JStr comment_text);
         ("bodyType", JStr "RawHtml")] ++
        match reply_to_id with
        | Some r => [("parentCommentId", JNum r)]
        | None => []
        end)%list in
     post E (CF_BASE +:+ "/api/v1/comments") (Some (JObj body)) ;;
     ret (success "Comment posted."))
    (fun msg => ret (error ("post_comment: " +:+ msg))).

Definition delete_comment (mod_id comment_id : Z) : M ToolResult :=
  do has <- hasCookies;
  if negb has then ret (error NO_SESSION) else
  tryCatch
    (delete E (CF_BASE +:+ "/api/v1/comments/" +:+ pretty comment_id) ;;
     ret (success ("Comment " +:+ pretty comment_id +:+ " deleted.")))
    (fun msg => ret (error ("delete_comment: " +:+ msg))).

(** [compact(data)] on what a request resolved to *)
Definition compactPayload (data : Payload) : string :=
  match data with
  | PJson j => compact E j
  | PText s => compact E (JStr s)
  end.

Definition get_project_settings (project_id : Z) : M ToolResult :=
  do has <- hasCookies;
  if negb has then ret (error NO_SESSION) else
  tryCatch
    (do data <- get E (AUTHORS_API +:+ "/projects/" +:+ pretty project_id);
     ret (success (truncate (compactPayload data))))
    (fun msg => ret (error ("get_project_settings: " +:+ msg))).

Definition update_project_description (project_id : Z) (description : string)
    : M ToolResult :=
  do has <- hasCookies;
  if negb has then ret (error NO_SESSION) else
  tryCatch
    (put E (AUTHORS_API +:+ "/projects/description/" +:+ pretty project_id)
       (Some (JObj [("description", JStr description);
                    ("descriptionType", JNum 1);
                    ("id", JNum project_id)])) ;;
     ret (success "Description updated."))
    (fun msg => ret (error ("update_project_description: " +:+ msg))).

(** [body ? JSON.parse(body) : undefined] *)
Definition parseBody (body : option string) : M (option json) :=
  match body with
  | Some b =>
      if truthy b then
        match JSON_parse E b with
        | Some j => ret (Some j)
        | None => throw (JSON_parse_message E b)
        end
      else ret None
  | None => ret None
  end.

Definition cf_fetch_page (url : string) (method : HttpMethod)
    (body : option string) : M ToolResult :=
  tryCatch
    (let fullUrl := if startsWith "http" url then url else CF_BASE +:+ url in
     do data <-
       match method with
       | POST => do b <- parseBody body; post E fullUrl b
       | PUT => do b <- parseBody body; put E fullUrl b
       | DELETE => delete E fullUrl
       | GET => get E fullUrl
       end;
     let text :=
       match data with
       | PText s => s
       | PJson (JStr s) => s
       | PJson j => compact E j
       end in
     ret (success (truncate text)))
    (fun msg => ret (error ("cf_fetch_page: " +:+ msg))).

End Handlers.

End WebTools.

(** ** tools/upload-api.ts: the [upload_file] handler *)

Module UploadTools.

(** [String(v)], as a template literal renders a value. *)
Fixpoint toStr (v : json) : string :=
  match v with
  | JNull => "null"
  | JBool b => WebTools.showBool b
  | JNum n => pretty n
  | JStr s => s
  | JArr items =>
      join "," (List.map (fun j => match j with JNull => EmptyString | _ => toStr j end) items)
  | JObj _ => "[object Object]"
  end.

(** [`${v.id}`]: reading a member of [null] throws, a missing member is
    [undefined]. The keys of an object are distinct. *)
Definition showId (v : json) : Outcome string :=
  match v with
  | JNull => Throw "Cannot read properties of null (reading 'id')"
  | JObj fields =>
      match List.find (fun kv => String.eqb (fst kv) "id") fields with
      | Some (_, j) => Ret (toStr j)
      | None => Ret "undefined"
      end
  | _ => Ret "undefined"
  end.

Section Handlers.

Variable E : Env.
Variable token : string.

Definition upload_file (project_id : Z) (file_path : string)
    (metadata : UploadMetadata) : M ToolResult :=
  tryCatch
    (do result <- UploadApiClient.uploadFile E token project_id file_path metadata;
     do id <- WebTools.liftOutcome (showId result);
     ret (success ("File uploaded. File ID: " +:+ id)))
    (fun msg => ret (error ("upload_file: " +:+ msg))).

End Handlers.

End UploadTools.

(** ** server.ts and the [register...Tools] functions *)

(** The server, as far as registration goes: the names passed to
    [server.registerTool], in the order of the calls. *)
Definition McpServer := list string.

Definition registerTool (server : McpServer) (toolName : string) : McpServer :=
  (server ++ [toolName])%list.

Definition coreTools : list string :=
  [ "search_mods"; "get_mod"; "get_mod_files"; "get_mod_file";
    "get_mod_description"; "get_mod_changelog"; "get_download_url";
    "download_mod"; "get_featured_mods"; "get_mods_batch";
    "get_categories"; "get_game_versions" ].

Definition cfwidgetTools : list string := [ "get_project"; "search_author" ].

Definition uploadTools : list string :=
  [ "upload_file"; "get_upload_game_versions";
    "get_upload_game_version_types"; "get_upload_dependencies" ].

Definition webTools : list string :=
  [ "cf_set_cookies"; "cf_auto_extract_cookies"; "get_comments";
    "post_comment"; "delete_comment"; "get_project_settings";
    "update_project_description"; "cf_fetch_page" ].

(** [registerCoreApiTools(server, client, cfwidget)]: [client] is [null]
    or the client. *)
Definition registerCoreApiTools (server : McpServer) (client : option string)
    : McpServer :=
  let server :=
    match client with
    | Some _ => fold_left registerTool coreTools server
    | None => server
    end in
  fold_left registerTool cfwidgetTools server.

Definition registerUploadApiTools (server : McpServer) (client : string)
    : McpServer :=
  fold_left registerTool uploadTools server.

Definition registerWebApiTools (server : McpServer) : McpServer :=
  fold_left registerTool webTools server.

(** [createServer], from the state of the world at process start; the
    client it returns with the server is the second component. *)
Definition createServer (E : Env) (st : State)
    : Outcome McpServer * WebClient.Client :=
  let config := loadConfig E in
  let server : McpServer := [] in
  let coreClient :=
    if truthy (curseforgeApiKey config) then
      match CoreApiClient.new E config with
      | Ret c => Some c
      | Throw _ => None
      end
    else None in
  let server := registerCoreApiTools server coreClient in
  let server :=
    if truthy (curseforgeAuthorToken config) then
      match UploadApiClient.new config with
      | Ret uploadClient => registerUploadApiTools server uploadClient
      | Throw _ => server
      end
    else server in
  WebClient.bindC (WebClient.new E config) (fun _ =>
  WebClient.bindC (WebClient.init E config) (fun _ =>
  let server := registerWebApiTools server in
  (* the log line reads [webClient.hasCookies()] *)
  WebClient.bindC (WebClient.hasCookies E) (fun _ =>
  WebClient.retC server)))
    (WebClient.ofState st).

(** ** The browser-mediated dispatcher: session launch *)

Module BrowserClient.

(** Modelled from the spec: [clients/browser-client.ts], the class
    [BrowserClient] that the browser-mediated [WebClient] constructs and
    calls, is not among the sources. The definitions below follow the
    state machine of section 4.3 (uninitialized, launching,
    navigating-challenge, ready), the single shared in-flight
    initialization of sections 5 and 9, and the launch-attempt counter of
    section 8. The process is one thread with suspension at I/O, so a run
    is a sequence of events: callers entering the dispatcher and the
    pending initialization making progress, in any order. *)
Inductive Phase :=
| Uninitialized
| Launching
| NavigatingChallenge
| Ready.

(** Modelled from the spec: the lazily created session handle of the
    absent [BrowserClient], with the launch-attempt counter of section 8
    and the callers sharing the initialization in flight. *)
Record Session := mkSession {
  phase : Phase;
  (** launch attempts made so far *)
  launches : nat;
  (** callers awaiting the shared in-flight initialization *)
  awaiting : list nat;
  (** callers whose request went through the ready session *)
  served : list nat;
}.

(** Modelled from the spec: what can happen to the absent [BrowserClient]
    between two suspension points. *)
Inductive Event :=
| Call (caller : nat)   (** a caller makes a request through the dispatcher *)
| Launched              (** the pending launch resolves *)
| ChallengeOver.        (** the indicator disappeared, or the timeout expired *)

(** Modelled from the spec: the absent [BrowserClient] as constructed,
    before any request. *)
Definition initial : Session :=
  {| phase := Uninitialized; launches := 0; awaiting := []; served := [] |}.

(** Modelled from the spec: one event. The first demand creates the
    initialization and counts a launch; later callers await the same one;
    once ready the handle is reused and never torn down. *)
Definition step (s : Session) (e : Event) : Session :=
  match e, phase s with
  | Call c, Uninitialized =>
      {| phase := Launching; launches := S (launches s);
         awaiting := (awaiting s ++ [c])%list; served := served s |}
  | Call c, Launching | Call c, NavigatingChallenge =>
      {| phase := phase s; launches := launches s;
         awaiting := (awaiting s ++ [c])%list; served := served s |}
  | Call c, Ready =>
      {| phase := Ready; launches := launches s;
         awaiting := awaiting s; served := (served s ++ [c])%list |}
  | Launched, Launching =>
      {| phase := NavigatingChallenge; launches := launches s;
         awaiting := awaiting s; served := served s |}
  | ChallengeOver, NavigatingChallenge =>
      {| phase := Ready; launches := launches s;
         awaiting := []; served := (served s ++ awaiting s)%list |}
  | _, _ => s
  end.

(** Modelled from the spec: the absent [BrowserClient] after a sequence
    of events, in the order the single thread meets them. *)
Definition run (events : list Event) : Session := fold_left step events initial.

Definition isCall (e : Event) : bool :=
  match e with Call _ => true | _ => false end.

End BrowserClient.

(** ** The statements of the specification, in its own words *)

Module Spec.

(** Does [c] occur in [s]? *)
Fixpoint occurs (c : ascii) (s : string) : bool :=
  match s with
  | EmptyString => false
  | String d s' => Ascii.eqb d c || occurs c s'
  end.

(** The text before the first [c], all of [s] when there is none. *)
Fixpoint beforeFirst (c : ascii) (s : string) : string :=
  match s with
  | EmptyString => EmptyString
  | String d s' => if Ascii.eqb d c then EmptyString else String d (beforeFirst c s')
  end.

(** The text after the first [c], empty when there is none. *)
Fixpoint afterFirst (c : ascii) (s : string) : string :=
  match s with
  | EmptyString => EmptyString
  | String d s' => if Ascii.eqb d c then s' else afterFirst c s'
  end.

(** A segment is well formed when it has an [=] separator. *)
Definition wellFormed (segment : string) : bool := occurs "="%char segment.

(** The Cookie Entry of a well-formed segment: its name and value without
    the surrounding blanks, the fixed default domain and path. *)
Definition entryOf (segment : string) : CookieEntry :=
  {| name := trim (beforeFirst "="%char segment);
     value := trim (afterFirst "="%char segment);
     domain := ".curseforge.com";
     path := "/" |}.

(** "Exactly the well-formed segments, in their original order". *)
Definition wellFormedEntries (raw : string) : list CookieEntry :=
  List.map entryOf (List.filter wellFormed (split ";"%char raw)).

(** Every character of [s] is in the ASCII range. There the string
    primitives of this file ([trim], [toUpperCase], [toLowerCase],
    [encodeURIComponent]) are those of the engine; outside it the engine
    knows further blanks and letters. *)
Fixpoint isAscii (s : string) : bool :=
  match s with
  | EmptyString => true
  | String c s' => Nat.ltb (nat_of_ascii c) 128 && isAscii s'
  end.

(** A cookie whose name and value are ASCII. *)
Definition asciiEntry (c : CookieEntry) : bool :=
  isAscii (name c) && isAscii (value c).

(** The blanks of the ASCII range: TAB, LF, VT, FF, CR and SPACE. *)
Definition blank (c : ascii) : bool :=
  existsb (Ascii.eqb c) ["009"; "010"; "011"; "012"; "013"; " "]%char.

Fixpoint allBlank (s : string) : bool :=
  match s with
  | EmptyString => true
  | String c s' => blank c && allBlank s'
  end.

Definition startsBlank (s : string) : bool :=
  match s with
  | EmptyString => false
  | String c _ => blank c
  end.

Fixpoint endsBlank (s : string) : bool :=
  match s with
  | EmptyString => false
  | String c EmptyString => blank c
  | String _ s' => endsBlank s'
  end.

(** [t] is [s] without the blanks at its two ends. *)
Definition stripped (s t : string) : Prop :=
  exists l r,
    s = l +:+ t +:+ r /\ allBlank l = true /\ allBlank r = true /\
    startsBlank t = false /\ endsBlank t = false.

(** The segments written one after the other with [sep] between them. *)
Fixpoint joinWith (sep : ascii) (segments : list string) : string :=
  match segments with
  | [] => EmptyString
  | segment :: rest =>
      match rest with
      | [] => segment
      | _ :: _ => segment +:+ String sep (joinWith sep rest)
      end
  end.

(** [entry] is the Cookie Entry of a well-formed [segment]: its name is
    the text before the first [=] and its value the text after it, both
    without the blanks around them; its domain and path are the fixed
    defaults. *)
Definition isEntryOf (segment : string) (entry : CookieEntry) : Prop :=
  stripped (beforeFirst "="%char segment) (name entry) /\
  stripped (afterFirst "="%char segment) (value entry) /\
  domain entry = ".curseforge.com" /\ path entry = "/".

(** Two characters that differ at most in ASCII letter case. *)
Definition sameCharNoCase (a b : ascii) : bool :=
  Ascii.eqb a b ||
  (let x := nat_of_ascii a in
   let y := nat_of_ascii b in
   (Nat.leb 65 x && Nat.leb x 90 && Nat.eqb y (x + 32)) ||
   (Nat.leb 65 y && Nat.leb y 90 && Nat.eqb x (y + 32))).

(** Equality of names up to letter case. *)
Fixpoint sameNoCase (a b : string) : bool :=
  match a, b with
  | EmptyString, EmptyString => true
  | String x a', String y b' => sameCharNoCase x y && sameNoCase a' b'
  | _, _ => false
  end.

(** The alias set of the anti-forgery cookie. *)
Definition isForgeryTokenName (n : string) : bool :=
  sameNoCase n "XSRF-TOKEN" || sameNoCase n "X-XSRF-TOKEN".

(** The session file holds the whole Cookie Set of [st], and its
    directory is there. *)
Definition persisted (E : Env) (config : Config) (st : State) : Prop :=
  fs st !! cookiesPath config =
    Some (File (JSON_stringify_cookies E (cookies st))) /\
  fs st !! path_dirname E (cookiesPath config) = Some Dir.


(** A browser yields when its reader returns, and returns a cookie. *)
Definition yields (b : string * BrowserFn) : bool :=
  match snd b [".curseforge.com"] with
  | BrowserCookies (_ :: _) => true
  | _ => false
  end.

(** The first browser of the list that yields, with what it returned. *)
Fixpoint firstYielding (bs : list (string * BrowserFn))
    : option (string * list CookieObject) :=
  match bs with
  | [] => None
  | b :: rest =>
      match snd b [".curseforge.com"] with
      | BrowserCookies (c :: raw) => Some (fst b, c :: raw)
      | _ => firstYielding rest
      end
  end.

(** The browsers asked: every one up to the first that yields, no one after. *)
Fixpoint queried (bs : list (string * BrowserFn)) : list string :=
  match bs with
  | [] => []
  | b :: rest => fst b :: (if yields b then [] else queried rest)
  end.

(** [p] occurs in [s] as a contiguous part. *)
Definition partOf (p s : string) : Prop :=
  exists before after, s = before +:+ p +:+ after.

(** [p] is a prefix of [s]. *)
Definition prefixOf (p s : string) : Prop :=
  exists rest, s = p +:+ rest.

End Spec.

(** ** A reference environment

    Executable stand-ins for the imported functions, used to run the model
    on concrete inputs: a JSON printer and reader on the [json] values
    above (integers for numbers), POSIX paths, and an origin reader for
    [http(s)] URLs. The statements below quantify over every [Env]; only
    the examples use this one. *)

Module Reference.

Definition LF : string := String "010"%char EmptyString.

Definition hexDigit (n : nat) : ascii :=
  if Nat.ltb n 10 then ascii_of_nat (48 + n) else ascii_of_nat (87 + n).

(** One character inside a JSON string literal. *)
Definition escapeChar (c : ascii) : string :=
  let n := nat_of_ascii c in
  if Nat.eqb n 34 then String "092"%char (String "034"%char EmptyString)
  else if Nat.eqb n 92 then "\\"
  else if Nat.eqb n 8 then "\b"
  else if Nat.eqb n 12 then "\f"
  else if Nat.eqb n 10 then "\n"
  else if Nat.eqb n 13 then "\r"
  else if Nat.eqb n 9 then "\t"
  else if Nat.ltb n 32 then
    "\u00" +:+ String (hexDigit (n / 16)) (String (hexDigit (n mod 16)) EmptyString)
  else String c EmptyString.

Fixpoint escape (s : string) : string :=
  match s with
  | EmptyString => EmptyString
  | String c s' => escapeChar c +:+ escape s'
  end.

Definition quote (s : string) : string :=
  String "034"%char (escape s) +:+ String "034"%char EmptyString.

Fixpoint spaces (n : nat) : string :=
  match n with O => EmptyString | S n' => String " "%char (spaces n') end.

(** [JSON.stringify(v)] *)
Fixpoint stringify (v : json) : string :=
  match v with
  | JNull => "null"
  | JBool b => if b then "true" else "false"
  | JNum n => pretty n
  | JStr s => quote s
  | JArr items => "[" +:+ join "," (List.map stringify items) +:+ "]"
  | JObj fields =>
      "{" +:+ join "," (List.map (fun kv => quote (fst kv) +:+ ":" +:+ stringify (snd kv)) fields)
      +:+ "}"
  end.

(** [JSON.stringify(v, null, 2)], at nesting depth [d] *)
Fixpoint stringifyIndented (d : nat) (v : json) : string :=
  match v with
  | JArr [] => "[]"
  | JArr items =>
      "[" +:+ LF +:+
      join ("," +:+ LF)
        (List.map (fun j => spaces (2 * S d) +:+ stringifyIndented (S d) j) items)
      +:+ LF +:+ spaces (2 * d) +:+ "]"
  | JObj [] => "{}"
  | JObj fields =>
      "{" +:+ LF +:+
      join ("," +:+ LF)
        (List.map (fun kv => spaces (2 * S d) +:+ quote (fst kv) +:+ ": " +:+
                             stringifyIndented (S d) (snd kv)) fields)
      +:+ LF +:+ spaces (2 * d) +:+ "}"
  | _ => stringify v
  end.

Definition isJsonSpace (c : ascii) : bool :=
  let n := nat_of_ascii c in
  Nat.eqb n 32 || Nat.eqb n 9 || Nat.eqb n 10 || Nat.eqb n 13.

Fixpoint skipSpace (s : string) : string :=
  match s with
  | String c s' => if isJsonSpace c then skipSpace s' else s
  | EmptyString => EmptyString
  end.

Definition hexValue (c : ascii) : option nat :=
  let n := nat_of_ascii c in
  if Nat.leb 48 n && Nat.leb n 57 then Some (n - 48)
  else if Nat.leb 97 n && Nat.leb n 102 then Some (n - 87)
  else if Nat.leb 65 n && Nat.leb n 70 then Some (n - 55)
  else None.

(** The rest of a string literal, after its opening quote. *)
Fixpoint readString (s : string) : option (string * string) :=
  match s with
  | EmptyString => None
  | String c rest =>
      if Ascii.eqb c "034"%char then Some (EmptyString, rest)
      else if Ascii.eqb c "092"%char then
        match rest with
        | String e rest' =>
            let continue (d : ascii) (after : string) (r : option (string * string)) :=
              match r with
              | Some (t, remaining) => Some (String d t, remaining)
              | None => None
              end in
            if Ascii.eqb e "u"%char then
              match rest' with
              | String h1 (String h2 (String h3 (String h4 rest''))) =>
                  match hexValue h1, hexValue h2, hexValue h3, hexValue h4 with
                  | Some 0, Some 0, Some a, Some b =>
                      continue (ascii_of_nat (16 * a + b)) rest'' (readString rest'')
                  | _, _, _, _ => None
                  end
              | _ => None
              end
            else if Ascii.eqb e "034"%char then continue "034"%char rest' (readString rest')
            else if Ascii.eqb e "092"%char then continue "092"%char rest' (readString rest')
            else if Ascii.eqb e "/"%char then continue "/"%char rest' (readString rest')
            else if Ascii.eqb e "b"%char then continue "008"%char rest' (readString rest')
            else if Ascii.eqb e "f"%char then continue "012"%char rest' (readString rest')
            else if Ascii.eqb e "n"%char then continue "010"%char rest' (readString rest')
            else if Ascii.eqb e "r"%char then continue "013"%char rest' (readString rest')
            else if Ascii.eqb e "t"%char then continue "009"%char rest' (readString rest')
            else None
        | EmptyString => None
        end
      else if Nat.ltb (nat_of_ascii c) 32 then None
      else
        match readString rest with
        | Some (t, remaining) => Some (String c t, remaining)
        | None => None
        end
  end.

Definition isDigit (c : ascii) : bool :=
  let n := nat_of_ascii c in Nat.leb 48 n && Nat.leb n 57.

Fixpoint readDigits (acc : Z) (s : string) : Z * string :=
  match s with
  | String c s' =>
      if isDigit c then readDigits (10 * acc + Z.of_nat (nat_of_ascii c - 48))%Z s'
      else (acc, s)
  | EmptyString => (acc, s)
  end.

Definition readNumber (s : string) : option (json * string) :=
  match s with
  | String c s' =>
      if Ascii.eqb c "-"%char then
        match s' with
        | String d _ =>
            if isDigit d then
              let (n, rest) := readDigits 0 s' in Some (JNum (- n), rest)
            else None
        | EmptyString => None
        end
      else if isDigit c then
        let (n, rest) := readDigits 0 s in Some (JNum n, rest)
      else None
  | EmptyString => None
  end.

Definition expect (word : string) (v : json) (s : string) : option (json * string) :=
  if startsWith word s then Some (v, sliceFrom (String.length word) s) else None.

(** The items of an array after its first bracket, up to the closing one;
    [readOne] reads a value, [n] bounds the number of items. *)
Fixpoint readItems (readOne : string -> option (json * string)) (n : nat)
    (s : string) : option (list json * string) :=
  match n with
  | O => None
  | S n' =>
      match readOne s with
      | Some (v, rest) =>
          match skipSpace rest with
          | String c rest' =>
              if Ascii.eqb c ","%char then
                match readItems readOne n' rest' with
                | Some (vs, rest'') => Some (v :: vs, rest'')
                | None => None
                end
              else if Ascii.eqb c "]"%char then Some ([v], rest')
              else None
          | EmptyString => None
          end
      | None => None
      end
  end.

(** The members of an object after its first brace, up to the closing one. *)
Fixpoint readMembers (readOne : string -> option (json * string)) (n : nat)
    (s : string) : option (list (string * json) * string) :=
  match n with
  | O => None
  | S n' =>
      match skipSpace s with
      | String q afterQuote =>
          if Ascii.eqb q "034"%char then
            match readString afterQuote with
            | Some (k, rest) =>
                match skipSpace rest with
                | String colon rest' =>
                    if Ascii.eqb colon ":"%char then
                      match readOne rest' with
                      | Some (v, rest'') =>
                          match skipSpace rest'' with
                          | String c rest3 =>
                              if Ascii.eqb c ","%char then
                                match readMembers readOne n' rest3 with
                                | Some (kvs, rest4) => Some ((k, v) :: kvs, rest4)
                                | None => None
                                end
                              else if Ascii.eqb c "}"%char then Some ([(k, v)], rest3)
                              else None
                          | EmptyString => None
                          end
                      | None => None
                      end
                    else None
                | EmptyString => None
                end
            | None => None
            end
          else None
      | EmptyString => None
      end
  end.

(** A value, then what follows it; [fuel] bounds the nesting. *)
Fixpoint readValue (fuel : nat) (s : string) : option (json * string) :=
  match fuel with
  | O => None
  | S fuel' =>
      match skipSpace s with
      | EmptyString => None
      | String c rest =>
          if Ascii.eqb c "n"%char then expect "null" JNull (String c rest)
          else if Ascii.eqb c "t"%char then expect "true" (JBool true) (String c rest)
          else if Ascii.eqb c "f"%char then expect "false" (JBool false) (String c rest)
          else if Ascii.eqb c "034"%char then
            match readString rest with
            | Some (t, rest') => Some (JStr t, rest')
            | None => None
            end
          else if Ascii.eqb c "["%char then
            match skipSpace rest with
            | String d rest' =>
                if Ascii.eqb d "]"%char then Some (JArr [], rest')
                else match readItems (readValue fuel') (String.length rest) rest with
                     | Some (vs, rest'') => Some (JArr vs, rest'')
                     | None => None
                     end
            | EmptyString => None
            end
          else if Ascii.eqb c "{"%char then
            match skipSpace rest with
            | String d rest' =>
                if Ascii.eqb d "}"%char then Some (JObj [], rest')
                else match readMembers (readValue fuel') (String.length rest) rest with
                     | Some (kvs, rest'') => Some (JObj kvs, rest'')
                     | None => None
                     end
            | EmptyString => None
            end
          else readNumber (String c rest)
      end
  end.

(** [JSON.parse(s)]; [None] for a [SyntaxError]. *)
Definition parse (s : string) : option json :=
  match readValue (S (String.length s)) s with
  | Some (v, rest) =>
      match skipSpace rest with
      | EmptyString => Some v
      | String _ _ => None
      end
  | None => None
  end.

Definition stringifyCookies (cs : list CookieEntry) : string :=
  stringifyIndented 0 (JArr (List.map cookieToJson cs)).

(** A text read as an array of cookie entries. *)
Definition parseCookies (s : string) : option (list CookieEntry) :=
  match parse s with
  | Some (JArr items) => mapM cookieOfJson items
  | _ => None
  end.

(** The message of the [SyntaxError] on a text that [parse] refuses. *)
Definition parseMessage (s : string) : string :=
  "Unexpected token in JSON: " +:+ sliceTo 10 s.

(** [v > 0] on integers and truth values; every other value is taken
    for not a number. *)
Definition positive (v : json) : bool :=
  match v with
  | JNum n => Z.ltb 0 n
  | JBool b => b
  | _ => false
  end.

(** [path.dirname] and [path.basename] on POSIX paths *)
Fixpoint lastSlash (s : string) : option nat :=
  match s with
  | EmptyString => None
  | String c s' =>
      match lastSlash s' with
      | Some i => Some (S i)
      | None => if Ascii.eqb c "/"%char then Some 0 else None
      end
  end.

Definition dirname (p : string) : string :=
  match lastSlash p with
  | Some 0 => "/"
  | Some i => sliceTo i p
  | None => "."
  end.

Definition basename (p : string) : string :=
  match lastSlash p with
  | Some i => sliceFrom (S i) p
  | None => p
  end.

(** [path.resolve] on absolute POSIX segments: [.] and empty components
    go, [..] takes one component back. *)
Definition resolve (parts : list string) : string :=
  let components := split "/"%char (join "/" parts) in
  let kept :=
    fold_left
      (fun acc c =>
         if negb (truthy c) || String.eqb c "." then acc
         else if String.eqb c ".." then removelast acc
         else (acc ++ [c])%list)
      components [] in
  "/" +:+ join "/" kept.

(** [new URL(u).origin] for [http://] and [https://] URLs *)
Definition origin (u : string) : option string :=
  let afterScheme (scheme : string) :=
    let rest := sliceFrom (String.length scheme) u in
    match indexOf "/"%char rest with
    | Some i => Some (scheme +:+ sliceTo i rest)
    | None => Some (scheme +:+ rest)
    end in
  if startsWith "https://" u then afterScheme "https://"
  else if startsWith "http://" u then afterScheme "http://"
  else None.

Definition env (vars : gmap string string)
    (answer : list Request -> Request -> FetchResult)
    (rookie : option RookieApi) : Env :=
  {| platform := "linux";
     process_env := vars;
     module_dirname := "/opt/curseforge-mcp/build";
     path_resolve := resolve;
     path_dirname := dirname;
     path_basename := basename;
     JSON_stringify_cookies := stringifyCookies;
     JSON_stringify := stringify;
     JSON_parse := parse;
     JSON_parse_message := parseMessage;
     body_read_message := fun _ => "TypeError: terminated";
     greater_than_zero := positive;
     mkdir_refused := fun _ => None;
     write_refused := fun _ => None;
     URL_origin := origin;
     fetch := answer;
     import_rookie := rookie;
     CurseForgeClient_new := fun _ => None;
     renderComments := fun data page =>
       Ret ("comments (page " +:+ pretty page +:+ ")") |}.

(** The shape of a printed cookie list, as the reader meets it. *)

(** One member line of a printed cookie: the indentation, the key, the value. *)
Definition memberText (k v : string) : string :=
  spaces 4 +:+ quote k +:+ ": " +:+ quote v.

(** The four member lines of a printed cookie and its closing brace. *)
Definition cookieLines (c : CookieEntry) (tail : string) : string :=
  let line k v rest := String "010"%char (memberText k v +:+ rest) in
  let closing := String "010"%char (String " "%char (String " "%char (String "}"%char tail))) in
  line "name" (name c) (String ","%char
  (line "value" (value c) (String ","%char
  (line "domain" (domain c) (String ","%char
  (line "path" (path c) closing)))))).

(** A printed cookie, from its opening brace. *)
Definition cookieText (c : CookieEntry) (tail : string) : string :=
  String " "%char (String " "%char (String "{"%char (cookieLines c tail))).

(** The printed items of a non-empty array of cookies, then [tail]. *)
Fixpoint itemsText (c : CookieEntry) (cs : list CookieEntry) (tail : string) : string :=
  match cs with
  | [] => cookieText c tail
  | c' :: cs' =>
      cookieText c (String ","%char (String "010"%char (itemsText c' cs' tail)))
  end.

Definition emptyState : State :=
  {| cookies := []; fs := ∅; net := []; probed := [] |}.

End Reference.

(** ** Derived notions used in the statements *)

Definition withProbes (st : State) (names : list string) : State :=
  {| cookies := cookies st; fs := fs st; net := net st;
     probed := (probed st ++ names)%list |}.

(** What [extractCookies] resolves to, and the browsers it asks. *)
Definition extraction (E : Env) : ExtractionResult :=
  match import_rookie E with
  | None =>
      {| browser := "none"; extracted := [];
         extraction_error :=
           Some "@rookie-rs/api not available on this platform. Use cf_set_cookies to set cookies manually." |}
  | Some api =>
      match Spec.firstYielding (browsers api) with
      | Some (name, raw) =>
          {| browser := name; extracted := toCookieEntries raw;
             extraction_error := None |}
      | None =>
          {| browser := "none"; extracted := [];
             extraction_error := Some "No browser had curseforge.com cookies" |}
      end
  end.

Definition probes (E : Env) : list string :=
  match import_rookie E with
  | None => []
  | Some api => Spec.queried (browsers api)
  end.

(** The state in which the extracted cookies are adopted, before saving. *)
Definition adopting (E : Env) (st : State) : State :=
  {| cookies := extracted (extraction E); fs := fs st; net := net st;
     probed := (probed st ++ probes E)%list |}.

Definition allAscii : list ascii := List.map ascii_of_nat (seq 0 256).

Definition upperAgrees (x t : ascii) : bool :=
  implb (Ascii.eqb (upperChar t) t)
        (Bool.eqb (Ascii.eqb (upperChar x) t) (Spec.sameCharNoCase x t)).

Definition sampleCookies : list CookieEntry :=
  [ mkCookieEntry "session" "abc 123" ".curseforge.com" "/";
    mkCookieEntry "XSRF-TOKEN" "tok" ".curseforge.com" "/" ].

Definition offline : list Request -> Request -> FetchResult :=
  fun _ _ => NetworkError "fetch failed".

(** The state after [r] went to [fetch]. *)
Definition logged (st : State) (r : Request) : State :=
  {| cookies := cookies st; fs := fs st; net := (net st ++ [r])%list;
     probed := probed st |}.

(** What [WebClient.request] makes of a response. *)
Definition answer (E : Env) (res : Response) (url : string) : Outcome Payload :=
  if negb (ok res) then Throw (httpErrorMessage res url)
  else
    let contentType :=
      match content_type res with Some c => c | None => EmptyString end in
    if includes "application/json" contentType then
      match body_text res with
      | None => Throw (body_read_message E res)
      | Some b =>
          match JSON_parse E b with
          | Some j => Ret (PJson j)
          | None => Throw (JSON_parse_message E b)
          end
      end
    else
      match body_text res with
      | None => Throw (body_read_message E res)
      | Some b => Ret (PText b)
      end.

(** The URL [cf_fetch_page] requests. *)
Definition fullUrl (url : string) : string :=
  if startsWith "http" url then url else WebTools.CF_BASE +:+ url.

Definition methodName (m : HttpMethod) : string :=
  match m with GET => "GET" | POST => "POST" | PUT => "PUT" | DELETE => "DELETE" end.

(** [cf_fetch_page] gives up before any request when a [POST] or [PUT]
    comes with a body that [JSON.parse] refuses. *)
Definition bodyRejected (E : Env) (m : HttpMethod) (body : option string) : bool :=
  match m, body with
  | POST, Some b | PUT, Some b =>
      truthy b && match JSON_parse E b with Some _ => false | None => true end
  | _, _ => false
  end.

(** The URL the [get_comments] handler requests. *)
Definition commentsUrl (mod_id page page_size : Z) : string :=
  WebTools.CF_BASE +:+ "/api/v1/mods/" +:+ pretty mod_id +:+
  "/comments?index=" +:+ pretty ((page - 1) * page_size)%Z +:+
  "&pageSize=" +:+ pretty page_size.

(** The requests of the upload client, and sample data for the examples. *)
Definition versionsRequest (E : Env) (token : string) : Request :=
  {| req_url := UploadApiClient.BASE_URL +:+ "/api/game/versions";
     req_method := "GET"; req_headers := UploadApiClient.headers E token;
     req_body := NoBody |}.

Definition versionTypesRequest (E : Env) (token : string) : Request :=
  {| req_url := UploadApiClient.BASE_URL +:+ "/api/game/version-types";
     req_method := "GET"; req_headers := UploadApiClient.headers E token;
     req_body := NoBody |}.

Definition uploadRequest (E : Env) (token : string) (projectId : Z)
    (filePath data : string) (metadata : UploadMetadata) : Request :=
  {| req_url := UploadApiClient.BASE_URL +:+ "/api/projects/" +:+ pretty projectId +:+ "/upload-file";
     req_method := "POST";
     req_headers := [("X-Api-Token", token); ("User-Agent", USER_AGENT E)];
     req_body := FormBody
       [ ("metadata", FormText (JSON_stringify E (metadataToJson metadata)));
         ("file", FormFile data (path_basename E filePath)) ] |}.

Definition failing (body : string) : Response :=
  {| status := 500; res_url := "https://www.curseforge.com/api/game/versions";
     content_type := Some "text/plain"; body_text := Some body |}.

Definition jarOnDisk : State :=
  {| cookies := []; fs := {[ "/tmp/mod.jar" := File "PK" ]}; net := []; probed := [] |}.

Definition plainRelease : UploadMetadata :=
  {| changelog := None; changelogType := Some "markdown"; displayName := None;
     parentFileID := None; gameVersions := []; releaseType := "release";
     relations := None |}.

Definition uploadError (body : string) : Outcome json :=
  fst (UploadApiClient.uploadFile
         (Reference.env ∅ (fun _ _ => Responded (failing body)) None)
         "token" 42 "/tmp/mod.jar" plainRelease jarOnDisk).

Definition versionsError (body : string) : Outcome json :=
  fst (UploadApiClient.getGameVersions
         (Reference.env ∅ (fun _ _ => Responded (failing body)) None)
         "token" jarOnDisk).

(** The browser session: who entered, and the invariant of its runs. *)
Definition callers (events : list BrowserClient.Event) : list nat :=
  omap (fun e => match e with BrowserClient.Call c => Some c | _ => None end) events.

Definition started (p : BrowserClient.Phase) : bool :=
  match p with BrowserClient.Uninitialized => false | _ => true end.

(** What holds of a session once the callers [seen] have entered. *)
Definition coalesced (called : bool) (seen : list nat) (s : BrowserClient.Session) : Prop :=
  BrowserClient.launches s = (if called then 1 else 0) /\
  started (BrowserClient.phase s) = called /\
  (BrowserClient.served s ++ BrowserClient.awaiting s)%list = seen /\
  (BrowserClient.phase s = BrowserClient.Ready -> BrowserClient.awaiting s = []).

(** The client after [autoExtractCookies]: when a browser yields, the
    field holds its cookies and a save was attempted; otherwise only the
    browsers asked are recorded and the field keeps what it held. *)
Definition extractedBy (E : Env) (config : Config) (c : WebClient.Client)
    : WebClient.Client :=
  if Nat.ltb 0 (List.length (extracted (extraction E))) then
    WebClient.ofState (snd (saveCookies E config (adopting E (WebClient.typed c))))
  else
    {| WebClient.foreign := WebClient.foreign c;
       WebClient.typed := withProbes (WebClient.typed c) (probes E) |}.


(** A world whose session file holds the text [null]. *)
Definition nullSession : State :=
  {| cookies := [];
     fs := {[ "/opt/curseforge-mcp/.auth/cookies.json" := File "null" ]};
     net := []; probed := [] |}.







Definition notFound : Response :=
  {| status := 404; res_url := "https://www.curseforge.com/api/v1/mods/7/x";
     content_type := Some "text/html";
     body_text := Some "<html>not found</html>" |}.

(** ** Further parts of the sources, and the notions their statements use *)

(** [truncate(text, maxLen)] with its second parameter; [truncate] above
    is the call with the default. *)
Definition truncateAt (maxLen : nat) (t : string) : string :=
  if Nat.leb (String.length t) maxLen then t
  else sliceTo maxLen t +:+ String "010"%char "... [truncated]".

(** A cookie that [getCookieHeader] writes and [parseCookieString] reads
    back: no [;] in name or value, no [=] in the name, no blanks around
    either. *)
Definition headerSafe (c : CookieEntry) : bool :=
  negb (Spec.occurs ";"%char (name c)) &&
  negb (Spec.occurs "="%char (name c)) &&
  negb (Spec.occurs ";"%char (value c)) &&
  String.eqb (trim (name c)) (name c) &&
  String.eqb (trim (value c)) (value c).

(** The entry with the domain and path that [setCookiesFromString] gives. *)
Definition withDefaults (c : CookieEntry) : CookieEntry :=
  {| name := name c; value := value c; domain := ".curseforge.com"; path := "/" |}.

(** What the header writes for one cookie. *)
Definition segmentOf (c : CookieEntry) : string := name c +:+ "=" +:+ value c.

(** [h[k]] on a header object: [None] for [undefined]. *)
Fixpoint headerValue (k : string) (h : Headers) : option string :=
  match h with
  | [] => None
  | (k', v) :: rest => if String.eqb k' k then Some v else headerValue k rest
  end.

(** The value a spread of [extra] leaves under [k]: the last one written. *)
Fixpoint lastValue (k : string) (extra : Headers) : option string :=
  match extra with
  | [] => None
  | (k', v) :: rest =>
      match lastValue k rest with
      | Some w => Some w
      | None => if String.eqb k' k then Some v else None
      end
  end.

(** The defaults of [browserHeaders], before [extra] is spread over them. *)
Definition defaultHeaders (E : Env) (cs : list CookieEntry) (targetUrl : string)
    : Headers :=
  let origin :=
    match URL_origin E targetUrl with
    | Some o => o
    | None => "https://www.curseforge.com"
    end in
  [ ("User-Agent", USER_AGENT E);
    ("Cookie", getCookieHeader cs);
    ("Accept", "application/json");
    ("Origin", origin);
    ("Referer", origin +:+ "/") ].

(** The token [browserHeaders] attaches: the cookie's value when not empty. *)
Definition attachedToken (cs : list CookieEntry) : option string :=
  match getXsrfToken cs with
  | Some xsrf => if truthy xsrf then Some xsrf else None
  | None => None
  end.

(** clients/web-client.ts, browser-mediated variant: the headers [request]
    hands to [this.browser.request],
    [{ ...(xsrf ? { "X-XSRF-TOKEN": xsrf } : {}), ...extraHeaders }]. *)
Definition browserRequestHeaders (cs : list CookieEntry) (extraHeaders : Headers)
    : Headers :=
  spread (match getXsrfToken cs with
          | Some xsrf => if truthy xsrf then [("X-XSRF-TOKEN", xsrf)] else []
          | None => []
          end) extraHeaders.

(** The state with the Cookie Set replaced. *)
Definition withCookies (st : State) (cs : list CookieEntry) : State :=
  {| cookies := cs; fs := fs st; net := net st; probed := probed st |}.

(** The file system after a save that went through. *)
Definition saved (E : Env) (config : Config) (st : State) : State :=
  {| cookies := cookies st;
     fs := <[cookiesPath config := File (JSON_stringify_cookies E (cookies st))]>
             (<[path_dirname E (cookiesPath config) := Dir]> (fs st));
     net := net st; probed := probed st |}.

(** When a save goes through: the session path is no directory, its
    directory is there or can be made, and the file can be written. *)
Definition savable (E : Env) (config : Config) (st : State) : Prop :=
  fs st !! cookiesPath config <> Some Dir /\
  path_dirname E (cookiesPath config) <> cookiesPath config /\
  write_refused E (cookiesPath config) = None /\
  match fs st !! path_dirname E (cookiesPath config) with
  | Some Dir => True
  | Some (File _) => False
  | None => mkdir_refused E (path_dirname E (cookiesPath config)) = None
  end.

(** What the field holds after the constructor: the parsed contents of
    the session file, no cookie when the file is missing, cannot be read
    or cannot be parsed. *)
Definition storedSession (E : Env) (config : Config) (st : State) : Store :=
  match fs st !! cookiesPath config with
  | Some (File data) =>
      match JSON_parse E data with
      | Some j => storeOf j
      | None => Entries []
      end
  | _ => Entries []
  end.

(** The client after the constructor. *)
Definition constructed (E : Env) (config : Config) (st : State) : WebClient.Client :=
  match storedSession E config st with
  | Entries cs =>
      {| WebClient.foreign := None;
         WebClient.typed := {| cookies := cs; fs := fs st; net := net st;
                               probed := probed st |} |}
  | Foreign j =>
      {| WebClient.foreign := Some j;
         WebClient.typed := {| cookies := []; fs := fs st; net := net st;
                               probed := probed st |} |}
  end.

(** A handler's answer that is either marked as an error or no longer than
    the truncation limit and its 16-character marker. *)
Definition withinLimit (o : Outcome ToolResult) : Prop :=
  match o with
  | Ret r =>
      if isError r then startsWith "Error: " (text r) = true
      else String.length (text r) <= 20000 + 16
  | Throw _ => False
  end.


(** ** [encodeURIComponent]

    The characters left as they are: letters, digits and [- _ . ! ~ * ' ( )].
    Every other character is written as [%] and the two upper-case
    hexadecimal digits of its code; a code from 128 up stands for one byte
    of a UTF-8 sequence.  The engine throws a [URIError] on a string with
    an unpaired surrogate; such a string has no UTF-8 form, so the
    function is that of the engine on ASCII strings, which is where the
    properties below use it. *)
Definition isUnreserved (c : ascii) : bool :=
  let n := nat_of_ascii c in
  (Nat.leb 65 n && Nat.leb n 90) || (Nat.leb 97 n && Nat.leb n 122) ||
  (Nat.leb 48 n && Nat.leb n 57) ||
  existsb (Ascii.eqb c) ["-"; "_"; "."; "!"; "~"; "*"; "'"; "("; ")"]%char.

Definition hexUpper (n : nat) : ascii :=
  nth n ["0"; "1"; "2"; "3"; "4"; "5"; "6"; "7"; "8"; "9";
         "A"; "B"; "C"; "D"; "E"; "F"]%char "0"%char.

Fixpoint encodeURIComponent (s : string) : string :=
  match s with
  | EmptyString => EmptyString
  | String c s' =>
      if isUnreserved c then String c (encodeURIComponent s')
      else String "%"%char
             (String (hexUpper (nat_of_ascii c / 16))
                (String (hexUpper (nat_of_ascii c mod 16)) (encodeURIComponent s')))
  end.

(** ** clients/cfwidget-client.ts *)

Module CfWidgetClient.

Definition BASE : string := "https://api.cfwidget.com".

Section Methods.

Variable E : Env.

(** The message of the [Error] thrown on a response that is not [ok]. *)
Definition errorMessage (res : Response) (path : string) : string :=
  let body := match body_text res with Some b => b | None => EmptyString end in
  "CFWidget " +:+ pretty (status res) +:+ ": " +:+ path +:+
  (if truthy body then String "010"%char (sliceTo 300 body) else EmptyString).

(** The arguments [get] hands to [fetch]. *)
Definition requestFor (path : string) : Request :=
  {| req_url := BASE +:+ path;
     req_method := "GET";
     req_headers := [("User-Agent", USER_AGENT E); ("Accept", "application/json")];
     req_body := NoBody |}.

Definition get (path : string) : M json :=
  do res <- doFetch E (requestFor path);
  if negb (ok res) then throw (errorMessage res path)
  else UploadApiClient.resJson E res.

(** The [path] of [getProject]: a leading [/] is added when missing. *)
Definition projectPath (idOrPath : string) : string :=
  if startsWith "/" idOrPath then idOrPath else "/" +:+ idOrPath.

Definition getProject (idOrPath : string) : M json :=
  get (projectPath idOrPath).

Definition searchAuthor (username : string) : M json :=
  get ("/author/search/" +:+ encodeURIComponent username).

Definition getAuthor (authorId : Z) : M json :=
  get ("/author/" +:+ pretty authorId).

End Methods.

End CfWidgetClient.

(** The reading of an escaped text: [%] and two hexadecimal digits give
    back the character, anything else stands for itself. *)
Definition hexDigitValue (c : ascii) : nat :=
  let n := nat_of_ascii c in
  if Nat.leb 65 n then n - 55 else n - 48.

Fixpoint percentDecode (s : string) : string :=
  match s with
  | EmptyString => EmptyString
  | String c rest =>
      match rest with
      | String h (String l rest') =>
          if Ascii.eqb c "%"%char
          then String (ascii_of_nat (16 * hexDigitValue h + hexDigitValue l))
                 (percentDecode rest')
          else String c (percentDecode rest)
      | _ => String c (percentDecode rest)
      end
  end.

(** Is every character of [s] accepted by [p]? *)
Fixpoint allChars (p : ascii -> bool) (s : string) : bool :=
  match s with
  | EmptyString => true
  | String c s' => p c && allChars p s'
  end.

(** A response of the widget service that is not [ok]. *)
Definition widgetMissing (body : string) : Response :=
  {| status := 404; res_url := "https://api.cfwidget.com/0";
     content_type := Some "application/json"; body_text := Some body |}.

(** ** clients/curseforge-client.ts: the options of [searchMods] *)

(** [s.toLowerCase()] *)
Definition lowerChar (c : ascii) : ascii :=
  let n := nat_of_ascii c in
  if Nat.leb 65 n && Nat.leb n 90 then ascii_of_nat (n + 32) else c.

Fixpoint toLowerCase (s : string) : string :=
  match s with
  | EmptyString => EmptyString
  | String c s' => String (lowerChar c) (toLowerCase s')
  end.

Module SearchOptions.

(** The value of a optionAt of an options object: [undefined], a number, a
    string, or what a name inherited from [Object.prototype] gives (a
    function, or the prototype itself under [__proto__]). *)
Inductive Value :=
| Undefined
| Num (n : Z)
| Str (s : string)
| Inherited (key : string).

Definition isUndefined (v : Value) : bool :=
  match v with Undefined => true | _ => false end.

(** [Object.fromEntries(Object.entries(obj).filter(([, v]) => v !== undefined))],
    for an object whose keys are names. *)
Definition stripUndefined (obj : list (string * Value)) : list (string * Value) :=
  List.filter (fun kv => negb (isUndefined (snd kv))) obj.

Definition SORT_FIELD_MAP : list (string * Z) :=
  [ ("featured", 1); ("popularity", 2); ("lastupdated", 3); ("name", 4);
    ("author", 5); ("totaldownloads", 6); ("category", 7); ("gameversion", 8);
    ("earlyaccess", 9); ("featuredreleased", 10); ("releaseddate", 11);
    ("rating", 12) ]%Z.

(** The members every object literal inherits. *)
Definition objectPrototypeKeys : list string :=
  [ "constructor"; "__defineGetter__"; "__defineSetter__"; "hasOwnProperty";
    "__lookupGetter__"; "__lookupSetter__"; "isPrototypeOf";
    "propertyIsEnumerable"; "toString"; "valueOf"; "__proto__";
    "toLocaleString" ].

(** [SORT_FIELD_MAP[key]] *)
Definition sortFieldOf (key : string) : Value :=
  match List.find (fun kv => String.eqb (fst kv) key) SORT_FIELD_MAP with
  | Some (_, n) => Num n
  | None =>
      if existsb (String.eqb key) objectPrototypeKeys then Inherited key
      else Undefined
  end.

(** The [options] argument of [searchMods]. *)
Record Options := mkOptions {
  searchFilter : option string;
  slug : option string;
  categoryId : option Z;
  classId : option Z;
  gameVersion : option string;
  modLoaderType : option Z;
  sortField : option (Z + string);
  sortOrder : option string;
  index : option Z;
  pageSize : option Z;
}.

(** The local [sortField] of [searchMods]. *)
Definition resolveSortField (given : option (Z + string)) : Value :=
  match given with
  | Some (inl n) => Num n
  | Some (inr s) => sortFieldOf (toLowerCase s)
  | None => Undefined
  end.

Definition ofString (v : option string) : Value :=
  match v with Some s => Str s | None => Undefined end.

Definition ofNumber (v : option Z) : Value :=
  match v with Some n => Num n | None => Undefined end.

(** The object literal of [searchMods], before [stripUndefined]. *)
Definition searchModsLiteral (options : Options) : list (string * Value) :=
  [ ("searchFilter", ofString (searchFilter options));
    ("slug", ofString (slug options));
    ("categoryId", ofNumber (categoryId options));
    ("classId", ofNumber (classId options));
    ("gameVersion", ofString (gameVersion options));
    ("modLoaderType", ofNumber (modLoaderType options));
    ("sortField", resolveSortField (sortField options));
    ("sortOrder", ofString (sortOrder options));
    ("index", ofNumber (index options));
    ("pageSize", ofNumber (pageSize options)) ].

(** The object [searchMods] hands to the library's [searchMods]. *)
Definition searchMods (options : Options) : list (string * Value) :=
  stripUndefined (searchModsLiteral options).

(** tools/core-api.ts: the names the [search_mods] tool accepts as
    [sort_field]. *)
Definition sortFieldNames : list string :=
  [ "featured"; "popularity"; "lastUpdated"; "name"; "author";
    "totalDownloads"; "category"; "gameVersion"; "earlyAccess";
    "featuredReleased"; "releasedDate"; "rating" ].

End SearchOptions.

(** [h[k]] on an options object. *)
Definition optionAt (k : string) (obj : list (string * SearchOptions.Value))
    : SearchOptions.Value :=
  match List.find (fun kv => String.eqb (fst kv) k) obj with
  | Some (_, v) => v
  | None => SearchOptions.Undefined
  end.

Definition lowerAgrees (a b : ascii) : bool :=
  implb (Spec.sameCharNoCase a b) (Ascii.eqb (lowerChar a) (lowerChar b)).

(** ** tools/upload-api.ts: from the arguments of [upload_file] to the metadata *)

Module UploadFileParams.

(** The parsed arguments of the tool: the schema's defaults are applied,
    so [changelog_type] and [release_type] are always there. *)
Record t := mk {
  project_id : Z;
  file_path : string;
  changelog : option string;
  changelog_type : string;
  display_name : option string;
  game_version_ids : option (list Z);
  release_type : string;
  relations : option (list (string * string));
}.

End UploadFileParams.

(** The [metadata] object the handler builds. *)
Definition metadataOf (params : UploadFileParams.t) : UploadMetadata :=
  {| changelog := UploadFileParams.changelog params;
     changelogType := Some (UploadFileParams.changelog_type params);
     displayName := UploadFileParams.display_name params;
     parentFileID := None;
     gameVersions :=
       match UploadFileParams.game_version_ids params with
       | Some ids => ids
       | None => []
       end;
     releaseType := UploadFileParams.release_type params;
     relations :=
       match UploadFileParams.relations params with
       | Some (r :: rs) => Some (r :: rs)
       | _ => None
       end |}.

(** The handler of [upload_file], from its arguments. *)
Definition upload_file_tool (E : Env) (token : string) (params : UploadFileParams.t)
    : M ToolResult :=
  UploadTools.upload_file E token
    (UploadFileParams.project_id params) (UploadFileParams.file_path params)
    (metadataOf params).

(** The members of a JSON object, [[]] for any other value. *)
Definition membersOf (j : json) : list (string * json) :=
  match j with JObj fields => fields | _ => [] end.

(** [Some k] when the option is given. *)
Definition keyIf {A} (k : string) (v : option A) : list string :=
  match v with Some _ => [k] | None => [] end.

(** The body [post_comment] submits. *)
Definition commentBody (mod_id : Z) (comment_text : string) (reply_to_id : option Z)
    : json :=
  JObj ([("entityId", JNum mod_id); ("body", JStr comment_text);
         ("bodyType", JStr "RawHtml")] ++
        match reply_to_id with
        | Some r => [("parentCommentId", JNum r)]
        | None => []
        end)%list.

(** The body [update_project_description] submits. *)
Definition descriptionBody (project_id : Z) (description : string) : json :=
  JObj [("description", JStr description); ("descriptionType", JNum 1);
        ("id", JNum project_id)].

(** The answer of a handler that reports [done] once its request resolved. *)
Definition reported (label done : string) (o : Outcome Payload) : ToolResult :=
  match o with
  | Ret _ => success done
  | Throw msg => error (label +:+ ": " +:+ msg)
  end.

(** A session of two cookies. *)
Definition loggedIn : State :=
  {| cookies := sampleCookies; fs := ∅; net := []; probed := [] |}.

(** * Properties *)

(** ** Strings: trimming and cutting at a separator *)

Section StringFacts.

Import Spec.

Variable c : ascii.
Hypothesis c_not_blank : isWhiteSpace c = false.

Lemma blank_is_not_separator d : isWhiteSpace d = true -> Ascii.eqb d c = false.
Proof.
  intros Hd. destruct (Ascii.eqb d c) eqn:Heq; [|reflexivity].
  apply Ascii.eqb_eq in Heq. subst d. congruence.
Qed.

Lemma occurs_trimStart s : occurs c (trimStart s) = occurs c s.
Proof.
  induction s as [|d s IH]; simpl; [reflexivity|].
  destruct (isWhiteSpace d) eqn:Hd; [|reflexivity].
  rewrite IH, (blank_is_not_separator d Hd). reflexivity.
Qed.

Lemma trimEnd_empty_occurs s : trimEnd s = EmptyString -> occurs c s = false.
Proof.
  induction s as [|d s IH]; simpl; [reflexivity|].
  destruct (trimEnd s) eqn:Ht.
  - destruct (isWhiteSpace d) eqn:Hd; [|discriminate].
    intros _. rewrite (blank_is_not_separator d Hd). simpl. apply IH. reflexivity.
  - discriminate.
Qed.

Lemma occurs_trimEnd s : occurs c (trimEnd s) = occurs c s.
Proof.
  induction s as [|d s IH]; simpl; [reflexivity|].
  destruct (trimEnd s) eqn:Ht.
  - rewrite (trimEnd_empty_occurs s Ht).
    destruct (isWhiteSpace d) eqn:Hd; simpl.
    + rewrite (blank_is_not_separator d Hd). reflexivity.
    + reflexivity.
  - change (occurs c (String d (String a s0))) with (Ascii.eqb d c || occurs c (String a s0)).
    rewrite IH. reflexivity.
Qed.

Lemma occurs_trim s : occurs c (trim s) = occurs c s.
Proof. unfold trim. rewrite occurs_trimEnd. apply occurs_trimStart. Qed.

Lemma occurs_truthy s : occurs c s = true -> truthy s = true.
Proof. destruct s; simpl; [discriminate | reflexivity]. Qed.

Lemma indexOf_cut s :
  match indexOf c s with
  | None => occurs c s = false
  | Some i =>
      occurs c s = true /\
      sliceTo i s = beforeFirst c s /\
      sliceFrom (i + 1) s = afterFirst c s
  end.
Proof.
  induction s as [|d s IH]; simpl; [reflexivity|].
  destruct (Ascii.eqb d c) eqn:Heq; simpl.
  - repeat split; reflexivity.
  - destruct (indexOf c s) as [i|]; simpl.
    + destruct IH as (Ho & Hb & Ha). repeat split; [assumption| |assumption].
      rewrite Hb. reflexivity.
    + assumption.
Qed.

Lemma beforeFirst_trimStart s :
  beforeFirst c (trimStart s) = trimStart (beforeFirst c s).
Proof.
  induction s as [|d s IH]; simpl; [reflexivity|].
  destruct (isWhiteSpace d) eqn:Hd.
  - rewrite (blank_is_not_separator d Hd). simpl. rewrite Hd. apply IH.
  - simpl. destruct (Ascii.eqb d c); simpl; [reflexivity|].
    rewrite Hd. reflexivity.
Qed.

Lemma afterFirst_trimStart s :
  afterFirst c (trimStart s) = afterFirst c s.
Proof.
  induction s as [|d s IH]; simpl; [reflexivity|].
  destruct (isWhiteSpace d) eqn:Hd; [|reflexivity].
  rewrite (blank_is_not_separator d Hd). apply IH.
Qed.

Lemma trimEnd_cons_occurs d s :
  occurs c s = true -> trimEnd (String d s) = String d (trimEnd s).
Proof.
  intros Ho. simpl. destruct (trimEnd s) eqn:Ht; [|reflexivity].
  rewrite (trimEnd_empty_occurs s Ht) in Ho. discriminate.
Qed.

Lemma beforeFirst_trimEnd s :
  occurs c s = true -> beforeFirst c (trimEnd s) = beforeFirst c s.
Proof.
  induction s as [|d s IH]; [discriminate|].
  intros Ho. simpl in Ho.
  destruct (Ascii.eqb d c) eqn:Heq.
  - simpl. rewrite Heq.
    destruct (trimEnd s); [|simpl; rewrite Heq; reflexivity].
    destruct (isWhiteSpace d) eqn:Hd.
    + apply Ascii.eqb_eq in Heq. subst d. congruence.
    + simpl. rewrite Heq. reflexivity.
  - simpl in Ho. rewrite (trimEnd_cons_occurs d s Ho).
    simpl. rewrite Heq, (IH Ho). reflexivity.
Qed.

Lemma afterFirst_trimEnd s :
  occurs c s = true -> afterFirst c (trimEnd s) = trimEnd (afterFirst c s).
Proof.
  induction s as [|d s IH]; [discriminate|].
  intros Ho. simpl in Ho.
  destruct (Ascii.eqb d c) eqn:Heq.
  - simpl. rewrite Heq.
    destruct (trimEnd s); [|simpl; rewrite Heq; reflexivity].
    destruct (isWhiteSpace d) eqn:Hd.
    + apply Ascii.eqb_eq in Heq. subst d. congruence.
    + simpl. rewrite Heq. reflexivity.
  - simpl in Ho. rewrite (trimEnd_cons_occurs d s Ho).
    simpl. rewrite Heq. apply (IH Ho).
Qed.

End StringFacts.

Lemma trimStart_idem s : trimStart (trimStart s) = trimStart s.
Proof.
  induction s as [|d s IH]; simpl; [reflexivity|].
  destruct (isWhiteSpace d) eqn:Hd; [assumption|].
  simpl. rewrite Hd. reflexivity.
Qed.

Lemma trimEnd_idem s : trimEnd (trimEnd s) = trimEnd s.
Proof.
  induction s as [|d s IH]; simpl; [reflexivity|].
  destruct (trimEnd s) eqn:Ht.
  - destruct (isWhiteSpace d) eqn:Hd; simpl; [reflexivity|].
    rewrite Hd. reflexivity.
  - simpl. simpl in IH. rewrite IH. reflexivity.
Qed.

Lemma trimStart_trimEnd s : trimStart (trimEnd s) = trimEnd (trimStart s).
Proof.
  induction s as [|d s IH]; simpl; [reflexivity|].
  destruct (isWhiteSpace d) eqn:Hd.
  - destruct (trimEnd s) eqn:Ht.
    + simpl. rewrite <- IH. reflexivity.
    + rewrite <- IH. simpl. rewrite Hd. reflexivity.
  - destruct (trimEnd s) eqn:Ht; simpl; rewrite Hd, Ht; reflexivity.
Qed.

Lemma trim_trimStart s : trim (trimStart s) = trim s.
Proof. unfold trim. rewrite trimStart_idem. reflexivity. Qed.

Lemma trim_trimEnd s : trim (trimEnd s) = trim s.
Proof. unfold trim. rewrite trimStart_trimEnd, trimEnd_idem. reflexivity. Qed.


(** ** Strings: appending *)

Lemma append_assoc (a b c : string) : (a +:+ b) +:+ c = a +:+ b +:+ c.
Proof.
  induction a as [|x a IH]; [reflexivity|].
  change (String x ((a +:+ b) +:+ c) = String x (a +:+ b +:+ c)).
  rewrite IH. reflexivity.
Qed.

Lemma append_nil_r (a : string) : a +:+ EmptyString = a.
Proof.
  induction a as [|x a IH]; [reflexivity|].
  change (String x (a +:+ EmptyString) = String x a). rewrite IH. reflexivity.
Qed.

Lemma append_cons c (a b : string) : String c a +:+ b = String c (a +:+ b).
Proof. reflexivity. Qed.

Lemma append_nil_l (b : string) : EmptyString +:+ b = b.
Proof. reflexivity. Qed.

Lemma length_append (a b : string) :
  String.length (a +:+ b) = String.length a + String.length b.
Proof.
  induction a as [|x a IH]; [reflexivity|].
  change (S (String.length (a +:+ b)) = S (String.length a + String.length b)).
  rewrite IH. reflexivity.
Qed.

(** ** The cookie-string parser against the specification's reading *)

Lemma separator_not_blank : isWhiteSpace "="%char = false.
Proof. reflexivity. Qed.

Lemma entryOfSegment_trim segment :
  entryOfSegment (trim segment) =
  if Spec.wellFormed segment then Some (Spec.entryOf segment) else None.
Proof.
  unfold entryOfSegment, Spec.wellFormed.
  pose proof (indexOf_cut "="%char (trim segment)) as Hcut.
  rewrite (occurs_trim _ separator_not_blank) in Hcut.
  destruct (indexOf "="%char (trim segment)) as [i|].
  - destruct Hcut as (Ho & Hb & Ha). rewrite Ho, Hb, Ha.
    unfold Spec.entryOf. f_equal. f_equal.
    + unfold trim at 2.
      rewrite (beforeFirst_trimEnd _ separator_not_blank)
        by (rewrite (occurs_trimStart _ separator_not_blank); exact Ho).
      rewrite (beforeFirst_trimStart _ separator_not_blank).
      apply trim_trimStart.
    + unfold trim at 2.
      rewrite (afterFirst_trimEnd _ separator_not_blank)
        by (rewrite (occurs_trimStart _ separator_not_blank); exact Ho).
      rewrite (afterFirst_trimStart _ separator_not_blank).
      apply trim_trimEnd.
  - rewrite Hcut. reflexivity.
Qed.

Lemma wellFormed_trim_truthy segment :
  Spec.wellFormed segment = true -> truthy (trim segment) = true.
Proof.
  intros Hw. apply (occurs_truthy "="%char).
  rewrite (occurs_trim _ separator_not_blank). exact Hw.
Qed.

Lemma parse_segments segments :
  omap entryOfSegment (List.filter truthy (List.map trim segments)) =
  List.map Spec.entryOf (List.filter Spec.wellFormed segments).
Proof.
  induction segments as [|seg rest IH]; [reflexivity|].
  cbn [List.map List.filter].
  pose proof (entryOfSegment_trim seg) as Hseg.
  destruct (Spec.wellFormed seg) eqn:Hw.
  - rewrite (wellFormed_trim_truthy seg Hw).
    cbn [omap list_omap List.map]. rewrite Hseg. cbn. rewrite <- IH. reflexivity.
  - destruct (truthy (trim seg)); [|exact IH].
    cbn [omap list_omap]. rewrite Hseg. exact IH.
Qed.

Lemma parseCookieString_wellFormedEntries raw :
  parseCookieString raw = Spec.wellFormedEntries raw.
Proof. apply parse_segments. Qed.

Lemma isWhiteSpace_blank c : isWhiteSpace c = Spec.blank c.
Proof. destruct c as [[] [] [] [] [] [] [] []]; reflexivity. Qed.

Lemma trimStart_stripped s :
  exists l, s = l +:+ trimStart s /\ Spec.allBlank l = true /\
            Spec.startsBlank (trimStart s) = false.
Proof.
  induction s as [|c s (l & Hs & Hl & Ht)]; [exists EmptyString; auto|].
  cbn [trimStart]. destruct (isWhiteSpace c) eqn:Hc.
  - exists (String c l). split; [|split; [|exact Ht]].
    + change (String c s = String c (l +:+ trimStart s)). rewrite <- Hs. reflexivity.
    + cbn [Spec.allBlank]. rewrite <- isWhiteSpace_blank, Hc, Hl. reflexivity.
  - exists EmptyString. split; [reflexivity|]. split; [reflexivity|].
    cbn [Spec.startsBlank]. rewrite <- isWhiteSpace_blank. exact Hc.
Qed.

Lemma trimEnd_stripped s :
  exists r, s = trimEnd s +:+ r /\ Spec.allBlank r = true /\
            Spec.endsBlank (trimEnd s) = false /\
            (Spec.startsBlank s = false -> Spec.startsBlank (trimEnd s) = false).
Proof.
  induction s as [|c s (r & Hs & Hr & He & _)]; [exists EmptyString; auto|].
  cbn [trimEnd]. destruct (trimEnd s) as [|d t] eqn:Ht.
  - change (s = r) in Hs. subst r.
    destruct (isWhiteSpace c) eqn:Hc.
    + exists (String c s). split; [reflexivity|]. split; [|split; [reflexivity|]].
      * cbn [Spec.allBlank]. rewrite <- isWhiteSpace_blank, Hc, Hr. reflexivity.
      * cbn [Spec.startsBlank]. rewrite <- isWhiteSpace_blank, Hc. discriminate.
    + exists s. split; [reflexivity|]. split; [exact Hr|].
      cbn [Spec.startsBlank Spec.endsBlank]. rewrite <- isWhiteSpace_blank, Hc. auto.
  - exists r. split; [|split; [exact Hr|split; [exact He|]]].
    + change (String c s = String c (String d t +:+ r)). rewrite <- Hs. reflexivity.
    + cbn [Spec.startsBlank]. auto.
Qed.

Lemma trim_stripped s : Spec.stripped s (trim s).
Proof.
  unfold trim. destruct (trimStart_stripped s) as (l & Hs & Hl & Hstart).
  destruct (trimEnd_stripped (trimStart s)) as (r & Ht & Hr & Hend & Hkeep).
  exists l, r. split; [rewrite <- Ht; exact Hs|]. auto.
Qed.

Lemma split_cons sep s : exists piece rest, split sep s = piece :: rest.
Proof.
  induction s as [|c s (piece & rest & IH)]; [cbn; eauto|].
  cbn [split]. destruct (Ascii.eqb c sep); [eauto|]. rewrite IH. eauto.
Qed.

Lemma joinWith_split sep s : Spec.joinWith sep (split sep s) = s.
Proof.
  induction s as [|c s IH]; [reflexivity|].
  cbn [split]. destruct (split_cons sep s) as (piece & rest & Hs).
  rewrite Hs in *. destruct (Ascii.eqb c sep) eqn:Hc.
  - apply Ascii.eqb_eq in Hc. subst c.
    change (Spec.joinWith sep (EmptyString :: piece :: rest))
      with (String sep (Spec.joinWith sep (piece :: rest))).
    rewrite IH. reflexivity.
  - rewrite <- IH. destruct rest as [|next rest]; reflexivity.
Qed.

Lemma split_segments sep s :
  List.Forall (fun segment => Spec.occurs sep segment = false) (split sep s).
Proof.
  induction s as [|c s IH]; [repeat constructor|].
  cbn [split]. destruct (Ascii.eqb c sep) eqn:Hc; [constructor; [reflexivity|exact IH]|].
  destruct (split sep s) as [|piece rest]; [repeat constructor; cbn; rewrite Hc; reflexivity|].
  inversion IH as [|? ? Hp Hrest]; subst. constructor; [|exact Hrest].
  cbn [Spec.occurs]. rewrite Hc, Hp. reflexivity.
Qed.

Lemma entryOf_isEntryOf segment : Spec.isEntryOf segment (Spec.entryOf segment).
Proof.
  unfold Spec.isEntryOf, Spec.entryOf. cbn [name value domain path].
  repeat split; apply trim_stripped.
Qed.

Lemma parseCookieString_segments raw :
  List.Forall2 Spec.isEntryOf
    (List.filter Spec.wellFormed (split ";"%char raw)) (parseCookieString raw).
Proof.
  rewrite parseCookieString_wellFormedEntries. unfold Spec.wellFormedEntries.
  induction (List.filter Spec.wellFormed (split ";"%char raw)) as [|seg rest IH];
    constructor; [apply entryOf_isEntryOf | exact IH].
Qed.

Lemma split_length sep s :
  List.length (split sep s) =
  List.length (List.filter (Ascii.eqb sep) (list_ascii_of_string s)) + 1.
Proof.
  induction s as [|c s IH]; [reflexivity|].
  cbn [split list_ascii_of_string List.filter]. rewrite (Ascii.eqb_sym sep c).
  destruct (Ascii.eqb c sep); cbn [List.length]; [lia|].
  destruct (split_cons sep s) as (piece & rest & Hs). rewrite Hs in *. exact IH.
Qed.

(** ** The session file *)

Ltac run_m :=
  unfold saveCookies, setCookies, setCookiesFromString,
    bind, ret, throw, tryCatch, get_state, set_cookies, set_fs,
    existsSync, readFileSync, mkdirSync, writeFileSync in *;
  cbn [fst snd cookies fs net probed] in *.

Lemma exists_lookup {A} (o : option A) :
  bool_decide (is_Some o) = match o with Some _ => true | None => false end.
Proof.
  destruct o; [apply bool_decide_eq_true; eauto|].
  apply bool_decide_eq_false. intros [x Hx]. discriminate.
Qed.

Lemma saveCookies_cases E config st :
  (savable E config st /\ saveCookies E config st = (Ret tt, saved E config st)) \/
  (~ savable E config st /\
   exists msg st',
     saveCookies E config st = (Throw msg, st') /\
     cookies st' = cookies st /\ net st' = net st /\ probed st' = probed st /\
     (fs st' = fs st \/
      fs st' = <[path_dirname E (cookiesPath config) := Dir]> (fs st))).
Proof.
  unfold savable, saved. run_m. rewrite exists_lookup.
  destruct (decide (path_dirname E (cookiesPath config) = cookiesPath config)) as [Heq|Hne].
  - right. split; [tauto|]. rewrite Heq.
    destruct (fs st !! cookiesPath config) as [[data|]|] eqn:Hp; cbn; rewrite ?Hp.
    + (eexists _, _; split; [reflexivity|]; cbn; auto).
    + (eexists _, _; split; [reflexivity|]; cbn; auto).
    + destruct (mkdir_refused E (cookiesPath config)); cbn; [(eexists _, _; split; [reflexivity|]; cbn; auto)|].
      rewrite lookup_insert_eq. cbn. eexists _, _. split; [reflexivity|]. cbn. auto.
  - destruct (fs st !! path_dirname E (cookiesPath config)) as [[data|]|] eqn:Hdir; cbn.
    + right. split; [tauto|]. rewrite Hdir.
      destruct (fs st !! cookiesPath config) as [[?|]|]; (eexists _, _; split; [reflexivity|]; cbn; auto).
    + rewrite Hdir. destruct (fs st !! cookiesPath config) as [[?|]|] eqn:Hp.
      * destruct (write_refused E (cookiesPath config)) eqn:Hw.
        -- right. split; [intros (_ & _ & H & _); discriminate | (eexists _, _; split; [reflexivity|]; cbn; auto)].
        -- left. split; [repeat split; congruence|]. cbn.
           rewrite (insert_id _ _ _ Hdir). reflexivity.
      * right. split; [tauto | (eexists _, _; split; [reflexivity|]; cbn; auto)].
      * destruct (write_refused E (cookiesPath config)) eqn:Hw.
        -- right. split; [intros (_ & _ & H & _); discriminate | (eexists _, _; split; [reflexivity|]; cbn; auto)].
        -- left. split; [repeat split; congruence|]. cbn.
           rewrite (insert_id _ _ _ Hdir). reflexivity.
    + rewrite Hdir.
      destruct (mkdir_refused E (path_dirname E (cookiesPath config))) eqn:Hm; cbn.
      * right. split; [intros (_ & _ & _ & H); discriminate | (eexists _, _; split; [reflexivity|]; cbn; auto)].
      * rewrite (lookup_insert_ne _ _ _ _ Hne), lookup_insert_eq.
        destruct (fs st !! cookiesPath config) as [[?|]|] eqn:Hp.
        -- destruct (write_refused E (cookiesPath config)) eqn:Hw.
           ++ right. split; [intros (_ & _ & H & _); discriminate|].
              eexists _, _. split; [reflexivity|]. cbn. auto.
           ++ left. split; [repeat split; congruence | reflexivity].
        -- right. split; [tauto|].
           eexists _, _. split; [reflexivity|]. cbn. auto.
        -- destruct (write_refused E (cookiesPath config)) eqn:Hw.
           ++ right. split; [intros (_ & _ & H & _); discriminate|].
              eexists _, _. split; [reflexivity|]. cbn. auto.
           ++ left. split; [repeat split; congruence | reflexivity].
Qed.

Lemma saveCookies_returns E config st st' :
  saveCookies E config st = (Ret tt, st') ->
  savable E config st /\ st' = saved E config st.
Proof.
  intros H. destruct (saveCookies_cases E config st) as [(Hs & Hrun)|(_ & msg & s & Hrun & _)];
    rewrite Hrun in H; [|discriminate].
  injection H as <-. auto.
Qed.

Lemma saveCookies_ok E config st st' :
  saveCookies E config st = (Ret tt, st') ->
  fs st' !! cookiesPath config = Some (File (JSON_stringify_cookies E (cookies st))) /\
  fs st' !! path_dirname E (cookiesPath config) = Some Dir /\
  cookies st' = cookies st /\ net st' = net st /\ probed st' = probed st.
Proof.
  intros H. destruct (saveCookies_returns _ _ _ _ H) as ((_ & Hne & _) & ->).
  unfold saved. cbn. rewrite lookup_insert_eq, lookup_insert_ne, lookup_insert_eq by congruence.
  auto.
Qed.

(** Saving touches the file system only, whether it returns or throws. *)
Lemma saveCookies_frame E config st :
  cookies (snd (saveCookies E config st)) = cookies st /\
  net (snd (saveCookies E config st)) = net st /\
  probed (snd (saveCookies E config st)) = probed st.
Proof.
  destruct (saveCookies_cases E config st)
    as [(_ & ->)|(_ & msg & s & -> & Hc & Hn & Hp & _)]; cbn; auto.
Qed.


Lemma saveCookies_succeeds E config st :
  savable E config st ->
  saveCookies E config st = (Ret tt, saved E config st).
Proof.
  intros Hs. destruct (saveCookies_cases E config st) as [(_ & H)|(Hn & _)];
    [exact H | contradiction].
Qed.

Lemma setCookies_unfold E config cs st :
  setCookies E config cs st =
  saveCookies E config
    {| cookies := cs; fs := fs st; net := net st; probed := probed st |}.
Proof. reflexivity. Qed.

Lemma setCookies_ok E config cs st st' :
  setCookies E config cs st = (Ret tt, st') ->
  cookies st' = cs /\ Spec.persisted E config st' /\
  net st' = net st /\ probed st' = probed st.
Proof.
  rewrite setCookies_unfold. intros H.
  destruct (saveCookies_ok _ _ _ _ H) as (Hf & Hd & Hc & Hn & Hp). cbn in *.
  unfold Spec.persisted. rewrite Hc. auto.
Qed.

(** *** The constructor and the session file *)

Lemma new_run E config st :
  WebClient.new E config (WebClient.ofState st) = (Ret tt, constructed E config st).
Proof.
  unfold WebClient.new, WebClient.bindC, WebClient.assign, WebClient.loadCookies,
    WebClient.bindC, WebClient.lift, WebClient.tryCatchC, WebClient.ofState,
    constructed, storedSession, existsSync, readFileSync.
  cbn [WebClient.typed WebClient.foreign fs net probed cookies].
  rewrite exists_lookup.
  destruct (fs st !! cookiesPath config) as [[data|]|] eqn:Hp; cbn;
    rewrite ?Hp; cbn; [|reflexivity..].
  destruct (JSON_parse E data) as [j|]; cbn; [|reflexivity].
  unfold WebClient.assign. destruct (storeOf j); reflexivity.
Qed.

(** [loadCookies] on a client whose field holds cookie entries: it
    returns, and only the field may change. *)
Lemma loadCookies_run E config st :
  WebClient.loadCookies E config (WebClient.ofState st) =
  (Ret tt,
   match fs st !! cookiesPath config with
   | None => WebClient.ofState st
   | Some _ => constructed E config st
   end).
Proof.
  unfold WebClient.loadCookies, WebClient.bindC, WebClient.lift, WebClient.tryCatchC,
    WebClient.ofState, constructed, storedSession, existsSync, readFileSync.
  cbn [WebClient.typed WebClient.foreign fs net probed cookies].
  rewrite exists_lookup.
  destruct (fs st !! cookiesPath config) as [[data|]|] eqn:Hp; cbn;
    rewrite ?Hp; cbn; [|reflexivity..].
  destruct (JSON_parse E data) as [j|]; cbn; [|reflexivity].
  unfold WebClient.assign. destruct (storeOf j); reflexivity.
Qed.

(** ** Cookie extraction *)


Lemma withProbes_nil st : withProbes st [] = st.
Proof. destruct st. unfold withProbes. cbn. rewrite app_nil_r. reflexivity. Qed.

Lemma extractFrom_run bs st :
  extractFrom bs st =
  (Ret match Spec.firstYielding bs with
       | Some (name, raw) =>
           {| browser := name; extracted := toCookieEntries raw;
              extraction_error := None |}
       | None =>
           {| browser := "none"; extracted := [];
              extraction_error := Some "No browser had curseforge.com cookies" |}
       end,
   withProbes st (Spec.queried bs)).
Proof.
  revert st. induction bs as [|[name fn] rest IH]; intros st.
  - cbn. rewrite withProbes_nil. reflexivity.
  - cbn [extractFrom Spec.firstYielding Spec.queried fst snd].
    unfold bind at 1, log_probe at 1, Spec.yields. cbn [fst snd].
    unfold CF_DOMAINS. destruct (fn [".curseforge.com"]) as [|[|c raw]].
    + rewrite IH. unfold withProbes. cbn. rewrite <- app_assoc. reflexivity.
    + cbn. rewrite IH. unfold withProbes. cbn. rewrite <- app_assoc. reflexivity.
    + reflexivity.
Qed.


Lemma extractCookies_run E st :
  extractCookies E st = (Ret (extraction E), withProbes st (probes E)).
Proof.
  unfold extractCookies, extraction, probes.
  destruct (import_rookie E) as [api|].
  - apply extractFrom_run.
  - unfold ret. rewrite withProbes_nil. reflexivity.
Qed.



Lemma autoExtractCookies_run E config st :
  autoExtractCookies E config st =
  if Nat.ltb 0 (List.length (extracted (extraction E))) then
    match saveCookies E config (adopting E st) with
    | (Ret _, st') =>
        (Ret ("Extracted " +:+ pretty (List.length (extracted (extraction E))) +:+
              " cookies from " +:+ browser (extraction E)), st')
    | (Throw msg, st') => (Ret ("Auto-extraction failed: " +:+ msg), st')
    end
  else
    (Ret match extraction_error (extraction E) with
         | Some e => if truthy e then e else "No cookies found"
         | None => "No cookies found"
         end,
     withProbes st (probes E)).
Proof.
  unfold autoExtractCookies, tryCatch, bind at 1.
  rewrite extractCookies_run.
  destruct (Nat.ltb 0 (List.length (extracted (extraction E)))); [|reflexivity].
  unfold bind, set_cookies, ret. cbn [cookies fs net probed withProbes].
  fold (adopting E st).
  destruct (saveCookies E config (adopting E st)) as [[[]|msg] st']; reflexivity.
Qed.

Lemma autoExtractCookies_total E config st :
  exists msg st', autoExtractCookies E config st = (Ret msg, st').
Proof.
  rewrite autoExtractCookies_run.
  destruct (Nat.ltb 0 (List.length (extracted (extraction E)))); [|eauto].
  destruct (saveCookies E config (adopting E st)) as [[[]|msg] st']; eauto.
Qed.

(** *** The same methods, run by a client *)

Lemma store_constructed E config st :
  WebClient.store (constructed E config st) = storedSession E config st.
Proof.
  unfold constructed. destruct (storedSession E config st) as [cs|j] eqn:Hs;
    [reflexivity|]. reflexivity.
Qed.

Lemma constructed_world E config st :
  fs (WebClient.typed (constructed E config st)) = fs st /\
  net (WebClient.typed (constructed E config st)) = net st /\
  probed (WebClient.typed (constructed E config st)) = probed st.
Proof. unfold constructed. destruct (storedSession E config st); cbn; auto. Qed.

Lemma client_autoExtractCookies_run E config c :
  exists msg,
    WebClient.autoExtractCookies E config c = (Ret msg, extractedBy E config c) /\
    fst (autoExtractCookies E config (WebClient.typed c)) = Ret msg.
Proof.
  unfold WebClient.autoExtractCookies, WebClient.tryCatchC, WebClient.bindC at 1,
    WebClient.lift at 1, extractedBy.
  rewrite autoExtractCookies_run, extractCookies_run.
  destruct (Nat.ltb 0 (List.length (extracted (extraction E)))); [|eexists; split; reflexivity].
  unfold WebClient.bindC, WebClient.assign, WebClient.lift, WebClient.retC.
  cbn [WebClient.typed WebClient.foreign cookies fs net probed withProbes].
  fold (adopting E (WebClient.typed c)).
  destruct (saveCookies E config (adopting E (WebClient.typed c))) as [[[]|msg] st'];
    eexists; split; reflexivity.
Qed.

Lemma client_init_run E config c :
  WebClient.init E config c =
  match WebClient.lengthPositive E (WebClient.store c) with
  | Throw msg => (Throw msg, c)
  | Ret true => (Ret tt, c)
  | Ret false => (Ret tt, extractedBy E config c)
  end.
Proof.
  unfold WebClient.init, WebClient.bindC at 1, WebClient.hasCookies.
  destruct (WebClient.lengthPositive E (WebClient.store c)) as [[|]|msg];
    [reflexivity| |reflexivity].
  unfold WebClient.bindC, WebClient.retC.
  destruct (client_autoExtractCookies_run E config c) as (msg & -> & _). reflexivity.
Qed.

(** A client whose field holds cookie entries starts like the typed
    reading of [init]: nothing happens with a cookie at hand, the
    browsers are asked otherwise. *)
Lemma client_init_typed E config st :
  WebClient.init E config (WebClient.ofState st) =
  match cookies st with
  | [] => (Ret tt, extractedBy E config (WebClient.ofState st))
  | _ => (Ret tt, WebClient.ofState st)
  end.
Proof. rewrite client_init_run. cbn. destruct (cookies st); reflexivity. Qed.


(** ** Names up to letter case *)


Lemma allAscii_complete (c : ascii) : In c allAscii.
Proof.
  rewrite <- (ascii_nat_embedding c). apply in_map. apply in_seq.
  pose proof (nat_ascii_bounded c). lia.
Qed.


Lemma upperAgrees_all :
  forallb (fun x => forallb (upperAgrees x) allAscii) allAscii = true.
Proof. vm_compute. reflexivity. Qed.

(** Against a character that upper-casing leaves alone, comparing after
    [toUpperCase] is comparing up to letter case. *)
Lemma upperChar_sameCharNoCase x t :
  upperChar t = t -> Ascii.eqb (upperChar x) t = Spec.sameCharNoCase x t.
Proof.
  intros Ht.
  pose proof upperAgrees_all as Hall.
  rewrite forallb_forall in Hall. specialize (Hall x (allAscii_complete x)).
  rewrite forallb_forall in Hall. specialize (Hall t (allAscii_complete t)).
  unfold upperAgrees in Hall. rewrite Ht, Ascii.eqb_refl in Hall. cbn in Hall.
  apply Bool.eqb_prop in Hall. exact Hall.
Qed.

Lemma toUpperCase_sameNoCase target :
  toUpperCase target = target ->
  forall n, String.eqb (toUpperCase n) target = Spec.sameNoCase n target.
Proof.
  induction target as [|t target IH]; intros Hup n.
  - destruct n; reflexivity.
  - cbn in Hup. injection Hup as Ht Htarget.
    destruct n as [|x n]; [reflexivity|].
    cbn. rewrite <- (upperChar_sameCharNoCase x t Ht), <- (IH Htarget n).
    destruct (Ascii.eqb (upperChar x) t); reflexivity.
Qed.

Lemma isXsrfName_isForgeryTokenName c :
  isXsrfName c = Spec.isForgeryTokenName (name c).
Proof.
  unfold isXsrfName, Spec.isForgeryTokenName.
  rewrite !toUpperCase_sameNoCase by reflexivity. reflexivity.
Qed.

Lemma find_first {A} (p : A -> bool) (l : list A) :
  match List.find p l with
  | Some x =>
      exists before after,
        l = (before ++ x :: after)%list /\
        Forall (fun y => p y = false) before /\ p x = true
  | None => Forall (fun y => p y = false) l
  end.
Proof.
  induction l as [|a l IH]; cbn; [constructor|].
  destruct (p a) eqn:Hpa.
  - exists [], l. repeat split; [constructor | assumption].
  - destruct (List.find p l) as [x|].
    + destruct IH as (before & after & -> & Hb & Hx).
      exists (a :: before), after. repeat split; [constructor|]; assumption.
    + constructor; assumption.
Qed.

(** ** The reference JSON reads back the cookie lists it prints *)

Section ReferenceJson.

Import Reference.

Lemma readString_escapeChar c tail :
  readString (escapeChar c +:+ tail) =
  match readString tail with
  | Some (t, rest) => Some (String c t, rest)
  | None => None
  end.
Proof.
  destruct c as [[] [] [] [] [] [] [] []]; reflexivity.
Qed.

Lemma readString_escape s tail :
  readString (escape s +:+ String "034"%char tail) = Some (s, tail).
Proof.
  induction s as [|c s IH]; [reflexivity|].
  cbn [escape]. rewrite append_assoc, readString_escapeChar, IH. reflexivity.
Qed.

Lemma quote_append s tail :
  quote s +:+ tail = String "034"%char (escape s +:+ String "034"%char tail).
Proof.
  unfold quote. cbn [String.append]. rewrite append_assoc. reflexivity.
Qed.



Ltac flatten_text :=
  rewrite ?append_assoc; repeat (rewrite append_cons || rewrite append_nil_l).

Lemma skipSpace_keep c s : isJsonSpace c = false -> skipSpace (String c s) = String c s.
Proof. intros H. cbn [skipSpace]. rewrite H. reflexivity. Qed.

Lemma skipSpace_drop c s : isJsonSpace c = true -> skipSpace (String c s) = skipSpace s.
Proof. intros H. cbn [skipSpace]. rewrite H. reflexivity. Qed.

Lemma readValue_skip f c s :
  isJsonSpace c = true -> readValue (S f) (String c s) = readValue (S f) s.
Proof. intros H. cbn [readValue skipSpace]. rewrite H. reflexivity. Qed.

Lemma readValue_quoted f rest :
  readValue (S f) (String "034"%char rest) =
  match readString rest with
  | Some (t, rest') => Some (JStr t, rest')
  | None => None
  end.
Proof. reflexivity. Qed.

Lemma readValue_string f s tail :
  readValue (S f) (String " "%char (quote s +:+ tail)) = Some (JStr s, tail).
Proof.
  rewrite readValue_skip by reflexivity.
  rewrite quote_append, readValue_quoted, readString_escape. reflexivity.
Qed.

Lemma readMembers_skip readOne n c s :
  isJsonSpace c = true ->
  readMembers readOne (S n) (String c s) = readMembers readOne (S n) s.
Proof. intros H. cbn [readMembers skipSpace]. rewrite H. reflexivity. Qed.

Lemma readMembers_key readOne n rest :
  readMembers readOne (S n) (String "034"%char rest) =
  match readString rest with
  | Some (k, afterKey) =>
      match skipSpace afterKey with
      | String colon afterColon =>
          if Ascii.eqb colon ":"%char then
            match readOne afterColon with
            | Some (v, afterValue) =>
                match skipSpace afterValue with
                | String c rest3 =>
                    if Ascii.eqb c ","%char then
                      match readMembers readOne n rest3 with
                      | Some (kvs, rest4) => Some ((k, v) :: kvs, rest4)
                      | None => None
                      end
                    else if Ascii.eqb c "}"%char then Some ([(k, v)], rest3)
                    else None
                | EmptyString => None
                end
            | None => None
            end
          else None
      | EmptyString => None
      end
  | None => None
  end.
Proof. reflexivity. Qed.

Section Members.


Variable readOne : string -> option (json * string).
Hypothesis readOne_string :
  forall s tail, readOne (String " "%char (quote s +:+ tail)) = Some (JStr s, tail).

Lemma readMembers_line n k v after c rest :
  skipSpace after = String c rest ->
  readMembers readOne (S n) (String "010"%char (memberText k v +:+ after)) =
  if Ascii.eqb c ","%char then
    match readMembers readOne n rest with
    | Some (kvs, rest') => Some ((k, JStr v) :: kvs, rest')
    | None => None
    end
  else if Ascii.eqb c "}"%char then Some ([(k, JStr v)], rest)
  else None.
Proof.
  intros Hafter. unfold memberText. cbn [spaces]. flatten_text.
  rewrite 5!readMembers_skip by reflexivity.
  rewrite quote_append, readMembers_key, readString_escape.
  flatten_text. rewrite skipSpace_keep by reflexivity.
  rewrite Ascii.eqb_refl, readOne_string, Hafter. reflexivity.
Qed.

Lemma readMembers_cookie n c tail :
  readMembers readOne (S (S (S (S n)))) (cookieLines c tail) =
  Some ([("name", JStr (name c)); ("value", JStr (value c));
         ("domain", JStr (domain c)); ("path", JStr (path c))], tail).
Proof.
  cbv beta zeta delta [cookieLines].
  do 4 (erewrite readMembers_line by reflexivity).
  reflexivity.
Qed.

End Members.

Lemma readValue_object f rest :
  readValue (S f) (String "{"%char rest) =
  match skipSpace rest with
  | String d rest' =>
      if Ascii.eqb d "}"%char then Some (JObj [], rest')
      else match readMembers (readValue f) (String.length rest) rest with
           | Some (kvs, rest'') => Some (JObj kvs, rest'')
           | None => None
           end
  | EmptyString => None
  end.
Proof. reflexivity. Qed.

Lemma cookieLines_shape c tail :
  exists x m,
    skipSpace (cookieLines c tail) = String "034"%char x /\
    String.length (cookieLines c tail) = S (S (S (S m))).
Proof.
  cbv beta zeta delta [cookieLines memberText]. cbn [spaces]. flatten_text.
  rewrite 5!skipSpace_drop by reflexivity. rewrite quote_append.
  rewrite skipSpace_keep by reflexivity. cbn [String.length]. eauto.
Qed.

Lemma readValue_cookie f c tail :
  readValue (S (S f)) (cookieText c tail) = Some (cookieToJson c, tail).
Proof.
  unfold cookieText. rewrite 2!readValue_skip by reflexivity.
  rewrite readValue_object.
  destruct (cookieLines_shape c tail) as (x & m & Hskip & Hlen).
  rewrite Hskip, Hlen. change (Ascii.eqb "034"%char "}"%char) with false. cbv iota.
  rewrite (readMembers_cookie (readValue (S f)) (readValue_string f)).
  reflexivity.
Qed.

Lemma stringifyIndented_cookie c tail :
  (spaces 2 +:+ stringifyIndented 1 (cookieToJson c)) +:+ tail = cookieText c tail.
Proof.
  unfold cookieText. cbv beta zeta delta [cookieLines memberText cookieToJson].
  cbn [stringifyIndented stringify List.map join fst snd spaces Nat.mul Nat.add].
  unfold LF. flatten_text. reflexivity.
Qed.

Lemma join_items c cs tail :
  join ("," +:+ LF)
    (List.map (fun j => spaces 2 +:+ stringifyIndented 1 j)
       (List.map cookieToJson (c :: cs))) +:+ tail =
  itemsText c cs tail.
Proof.
  revert c. induction cs as [|c' cs IH]; intros c.
  - cbn [List.map join itemsText]. apply stringifyIndented_cookie.
  - cbn [List.map join itemsText]. cbn [List.map] in IH.
    rewrite !append_assoc. rewrite <- IH.
    rewrite <- stringifyIndented_cookie. unfold LF. flatten_text. reflexivity.
Qed.

Lemma readItems_step readOne n s v rest :
  readOne s = Some (v, rest) ->
  readItems readOne (S n) s =
  match skipSpace rest with
  | String c rest' =>
      if Ascii.eqb c ","%char then
        match readItems readOne n rest' with
        | Some (vs, rest'') => Some (v :: vs, rest'')
        | None => None
        end
      else if Ascii.eqb c "]"%char then Some ([v], rest')
      else None
  | EmptyString => None
  end.
Proof. intros H. cbn [readItems]. rewrite H. reflexivity. Qed.

Lemma length_cookieText c tail :
  String.length tail < String.length (cookieText c tail).
Proof.
  unfold cookieText. cbv beta zeta delta [cookieLines memberText].
  cbn [String.length]. repeat (rewrite !length_append; cbn [String.length]). lia.
Qed.

Lemma length_itemsText c cs tail :
  List.length (c :: cs) + String.length tail <= String.length (itemsText c cs tail).
Proof.
  revert c. induction cs as [|c' cs IH]; intros c; cbn [itemsText List.length].
  - pose proof (length_cookieText c tail). lia.
  - pose proof (length_cookieText c
      (String ","%char (String "010"%char (itemsText c' cs tail)))) as H.
    cbn [String.length] in H. specialize (IH c'). cbn [List.length] in IH. lia.
Qed.

Lemma readItems_cookies f c cs n tail :
  List.length (c :: cs) <= n ->
  readItems (readValue (S (S f))) n
    (String "010"%char (itemsText c cs (String "010"%char (String "]"%char tail)))) =
  Some (List.map cookieToJson (c :: cs), tail).
Proof.
  revert c n. induction cs as [|c' cs IH]; intros c n Hn;
    (destruct n as [|n]; [cbn in Hn; lia|]).
  - cbn [itemsText].
    rewrite (readItems_step _ _ _ (cookieToJson c)
               (String "010"%char (String "]"%char tail))).
    + reflexivity.
    + rewrite readValue_skip by reflexivity. apply readValue_cookie.
  - cbn [itemsText].
    rewrite (readItems_step _ _ _ (cookieToJson c)
               (String ","%char (String "010"%char
                  (itemsText c' cs (String "010"%char (String "]"%char tail)))))).
    + rewrite skipSpace_keep by reflexivity. rewrite Ascii.eqb_refl.
      rewrite IH by (cbn [List.length] in *; lia). reflexivity.
    + rewrite readValue_skip by reflexivity. apply readValue_cookie.
Qed.

Lemma cookieOfJson_cookieToJson c : cookieOfJson (cookieToJson c) = Some c.
Proof. destruct c. reflexivity. Qed.

Lemma mapM_cookies cs : mapM cookieOfJson (List.map cookieToJson cs) = Some cs.
Proof.
  induction cs as [|c cs IH]; [reflexivity|].
  cbn [List.map]. cbn [mapM]. rewrite cookieOfJson_cookieToJson. cbn.
  rewrite IH. reflexivity.
Qed.

Lemma stringifyCookies_cons c cs :
  stringifyCookies (c :: cs) =
  String "["%char (String "010"%char
    (itemsText c cs (String "010"%char (String "]"%char EmptyString)))).
Proof.
  unfold stringifyCookies. cbn [List.map stringifyIndented].
  cbn [Nat.mul spaces]. rewrite <- join_items. cbn [List.map].
  unfold LF. flatten_text. reflexivity.
Qed.

Lemma readValue_array f rest :
  readValue (S f) (String "["%char rest) =
  match skipSpace rest with
  | String d rest' =>
      if Ascii.eqb d "]"%char then Some (JArr [], rest')
      else match readItems (readValue f) (String.length rest) rest with
           | Some (vs, rest'') => Some (JArr vs, rest'')
           | None => None
           end
  | EmptyString => None
  end.
Proof. reflexivity. Qed.

Lemma itemsText_head c cs tail :
  exists x, itemsText c cs tail = String " "%char (String " "%char (String "{"%char x)).
Proof. destruct cs; cbn [itemsText]; unfold cookieText; eauto. Qed.


(** The reference reader gives back every cookie list the reference
    printer wrote. *)
Theorem parseCookies_stringifyCookies cs :
  parseCookies (stringifyCookies cs) = Some cs.
Proof.
  destruct cs as [|c cs]; [reflexivity|].
  unfold parseCookies, parse. rewrite stringifyCookies_cons.
  set (closing := String "010"%char (String "]"%char EmptyString)).
  destruct (itemsText_head c cs closing) as (x & Hx).
  pose proof (length_itemsText c cs closing) as Hlen.
  cbn [String.length]. rewrite readValue_array.
  assert (Hskip : skipSpace (String "010"%char (itemsText c cs closing))
                  = String "{"%char x).
  { rewrite Hx. reflexivity. }
  rewrite Hskip. change (Ascii.eqb "{"%char "]"%char) with false. cbv iota.
  cbn [String.length].
  assert (Hfuel : exists f, S (String.length (itemsText c cs closing)) = S (S f)).
  { rewrite Hx. cbn [String.length]. eauto. }
  destruct Hfuel as (f & Hf). rewrite Hf.
  unfold closing. rewrite readItems_cookies by (rewrite <- Hf; lia).
  cbn [skipSpace]. apply mapM_cookies.
Qed.

End ReferenceJson.


(** ** The claims about the cookie store *)

(** C2. For every input string of ASCII characters [setCookiesFromString]
    cuts the string at its semicolons - the segments, written one after the
    other with a [;] between them, are the string, and none holds a [;] -
    and leaves in the Cookie Set exactly one entry for each segment that
    has an [=] separator, in their original order: its name is the text
    before the first [=] and its value the text after it, both without the
    blanks around them, with the fixed domain [.curseforge.com] and path
    [/].  A segment without separator is dropped and causes no error of
    its own: the call behaves as [setCookies] on these entries. The sample
    string yields the entries of [a], [b] and [c], in this order. *)
Theorem setCookiesFromString_wellFormed_segments
    (E : Env) (config : Config) (raw : string) (st : State) :
  Spec.isAscii raw = true ->
  (exists segments,
     Spec.joinWith ";"%char segments = raw /\
     segments <> [] /\
     List.Forall (fun segment => Spec.occurs ";"%char segment = false) segments /\
     List.Forall2 Spec.isEntryOf
       (List.filter Spec.wellFormed segments)
       (cookies (snd (setCookiesFromString E config raw st)))) /\
  List.length (cookies (snd (setCookiesFromString E config raw st))) <=
    List.length (List.filter (Ascii.eqb ";"%char) (list_ascii_of_string raw)) + 1 /\
  setCookiesFromString E config raw st =
    setCookies E config (cookies (snd (setCookiesFromString E config raw st))) st /\
  cookies (snd (setCookiesFromString E config "a=1; b=2; malformed; c=3" st)) =
    [ {| name := "a"; value := "1"; domain := ".curseforge.com"; path := "/" |};
      {| name := "b"; value := "2"; domain := ".curseforge.com"; path := "/" |};
      {| name := "c"; value := "3"; domain := ".curseforge.com"; path := "/" |} ].
Proof.
  intros _.
  assert (Hcookies : forall r,
    cookies (snd (setCookiesFromString E config r st)) = parseCookieString r).
  { intros r. unfold setCookiesFromString, bind, set_cookies.
    destruct (saveCookies_frame E config
      {| cookies := parseCookieString r; fs := fs st; net := net st;
         probed := probed st |}) as (Hc & _). exact Hc. }
  rewrite !Hcookies. split; [|split; [|split]].
  - exists (split ";"%char raw). split; [apply joinWith_split|].
    split; [destruct (split_cons ";"%char raw) as (p & r & ->); discriminate|].
    split; [apply split_segments | apply parseCookieString_segments].
  - rewrite <- (List.Forall2_length (parseCookieString_segments raw)).
    rewrite <- split_length. apply List.filter_length_le.
  - reflexivity.
  - reflexivity.
Qed.

(** The sample string, on a client without cookies. *)
Lemma setCookiesFromString_wellFormed_segments_witness :
  let E := Reference.env ∅ offline None in
  Spec.isAscii "a=1; b=2; malformed; c=3" = true /\
  cookies (snd (setCookiesFromString E (loadConfig E) "a=1; b=2; malformed; c=3"
                  Reference.emptyState)) =
    [ {| name := "a"; value := "1"; domain := ".curseforge.com"; path := "/" |};
      {| name := "b"; value := "2"; domain := ".curseforge.com"; path := "/" |};
      {| name := "c"; value := "3"; domain := ".curseforge.com"; path := "/" |} ].
Proof.
  intros E. split; [reflexivity|].
  exact (proj2 (proj2 (proj2
    (setCookiesFromString_wellFormed_segments E (loadConfig E)
       "a=1; b=2; malformed; c=3" Reference.emptyState eq_refl)))).
Defined.

(** C3. For every Cookie Set whose names are ASCII, [getXsrfToken]
    returns the value of the first cookie, in stored order, whose name is
    [XSRF-TOKEN] or [X-XSRF-TOKEN] up to letter case, whatever other
    cookies come before or after it; it returns nothing exactly when no
    cookie has such a name. *)
Theorem getXsrfToken_first_match (cs : list CookieEntry) :
  forallb (fun c => Spec.isAscii (name c)) cs = true ->
  match getXsrfToken cs with
  | Some token =>
      exists before c after,
        cs = (before ++ c :: after)%list /\
        Forall (fun x => Spec.isForgeryTokenName (name x) = false) before /\
        Spec.isForgeryTokenName (name c) = true /\
        token = value c
  | None => Forall (fun x => Spec.isForgeryTokenName (name x) = false) cs
  end.
Proof.
  intros _.
  unfold getXsrfToken. pose proof (find_first isXsrfName cs) as H.
  destruct (List.find isXsrfName cs) as [c|].
  - destruct H as (before & after & Hcs & Hb & Hc).
    exists before, c, after. repeat split; try assumption.
    + eapply List.Forall_impl; [|exact Hb]. cbn. intros x Hx.
      rewrite <- isXsrfName_isForgeryTokenName. exact Hx.
    + rewrite <- isXsrfName_isForgeryTokenName. exact Hc.
  - eapply List.Forall_impl; [|exact H]. cbn. intros x Hx.
    rewrite <- isXsrfName_isForgeryTokenName. exact Hx.
Qed.

(** A lower-case alias behind another cookie, and a set without token. *)
Lemma getXsrfToken_first_match_witness :
  (exists before c after,
     [ mkCookieEntry "session" "abc" ".curseforge.com" "/";
       mkCookieEntry "x-xsrf-token" "first" ".curseforge.com" "/";
       mkCookieEntry "XSRF-TOKEN" "second" ".curseforge.com" "/" ] =
       (before ++ c :: after)%list /\
     Forall (fun x => Spec.isForgeryTokenName (name x) = false) before /\
     Spec.isForgeryTokenName (name c) = true /\
     "first" = value c) /\
  Forall (fun x => Spec.isForgeryTokenName (name x) = false)
    [ mkCookieEntry "session" "abc" ".curseforge.com" "/" ].
Proof.
  split.
  - exact (getXsrfToken_first_match
             [ mkCookieEntry "session" "abc" ".curseforge.com" "/";
               mkCookieEntry "x-xsrf-token" "first" ".curseforge.com" "/";
               mkCookieEntry "XSRF-TOKEN" "second" ".curseforge.com" "/" ] eq_refl).
  - exact (getXsrfToken_first_match
             [ mkCookieEntry "session" "abc" ".curseforge.com" "/" ] eq_refl).
Defined.

(** Loading never throws, and leaves the file system as it was: after the
    constructor the field holds the parsed contents of the session file,
    whatever their shape, and no cookie when the file is missing, cannot
    be read or cannot be parsed. *)
Lemma loadCookies_total E config st :
  WebClient.new E config (WebClient.ofState st) = (Ret tt, constructed E config st) /\
  fs (WebClient.typed (constructed E config st)) = fs st /\
  WebClient.store (constructed E config st) =
    match fs st !! cookiesPath config with
    | Some (File data) =>
        match JSON_parse E data with
        | Some j => storeOf j
        | None => Entries []
        end
    | _ => Entries []
    end.
Proof.
  split; [apply new_run|]. split; [apply constructed_world|].
  apply store_constructed.
Qed.

(** C7. [loadCookies] itself never throws, and a session file that is
    missing, unreadable or unparsable leaves the Cookie Set empty. But a
    session file that parses to a value of another shape is assigned to
    the field as it is: with the text [null] in the file the constructor
    returns with [null] in the field, and the first use of the field,
    [hasCookies] in [init], throws; [createServer] throws with it, so the
    process does not start. *)
Theorem loadCookies_stores_unchecked_value
    (E : Env) (config : Config) (st : State) (data : string) :
  fs st !! cookiesPath config = Some (File data) ->
  JSON_parse E data = Some JNull ->
  let c := {| WebClient.foreign := Some JNull;
              WebClient.typed := {| cookies := []; fs := fs st; net := net st;
                                    probed := probed st |} |} in
  WebClient.loadCookies E config (WebClient.ofState st) = (Ret tt, c) /\
  WebClient.new E config (WebClient.ofState st) = (Ret tt, c) /\
  WebClient.store c = Foreign JNull /\
  WebClient.hasCookies E c =
    (Throw "Cannot read properties of null (reading 'length')", c) /\
  WebClient.init E config c =
    (Throw "Cannot read properties of null (reading 'length')", c) /\
  (config = loadConfig E ->
   createServer E st =
     (Throw "Cannot read properties of null (reading 'length')", c)).
Proof.
  intros Hfile Hparse c.
  assert (Hc : constructed E config st = c).
  { unfold constructed, storedSession. rewrite Hfile, Hparse. reflexivity. }
  split; [rewrite loadCookies_run, Hfile, Hc; reflexivity|].
  split; [rewrite new_run, Hc; reflexivity|].
  split; [reflexivity|]. split; [reflexivity|].
  split; [rewrite client_init_run; reflexivity|].
  intros ->. unfold createServer, WebClient.bindC at 1. rewrite new_run, Hc.
  unfold WebClient.bindC at 1. rewrite client_init_run. reflexivity.
Qed.

Lemma loadCookies_stores_unchecked_value_witness :
  let E := Reference.env ∅ offline None in
  fst (createServer E nullSession) =
    Throw "Cannot read properties of null (reading 'length')" /\
  fst (WebClient.new E (loadConfig E) (WebClient.ofState nullSession)) = Ret tt.
Proof.
  intros E.
  destruct (loadCookies_stores_unchecked_value E (loadConfig E) nullSession "null"
              eq_refl eq_refl) as (_ & Hnew & _ & _ & _ & Hstart).
  rewrite (Hstart eq_refl), Hnew. split; reflexivity.
Defined.

Lemma setCookiesFromString_ok E config raw st st' :
  setCookiesFromString E config raw st = (Ret tt, st') ->
  cookies st' = parseCookieString raw /\ Spec.persisted E config st'.
Proof.
  intros H. change (setCookies E config (parseCookieString raw) st = (Ret tt, st')) in H.
  destruct (setCookies_ok _ _ _ _ _ H) as (Hc & Hp & _). auto.
Qed.

Lemma failure_report_not_success E :
  Nat.ltb 0 (List.length (extracted (extraction E))) = false ->
  startsWith "Extracted "
    match extraction_error (extraction E) with
    | Some e => if truthy e then e else "No cookies found"
    | None => "No cookies found"
    end = false.
Proof.
  unfold extraction. destruct (import_rookie E) as [api|]; [|reflexivity].
  destruct (Spec.firstYielding (browsers api)) as [[name raw]|]; reflexivity.
Qed.

Lemma autoExtractCookies_ok E config st msg st' :
  autoExtractCookies E config st = (Ret msg, st') ->
  startsWith "Extracted " msg = true ->
  cookies st' = extracted (extraction E) /\ Spec.persisted E config st'.
Proof.
  rewrite autoExtractCookies_run.
  destruct (Nat.ltb 0 (List.length (extracted (extraction E)))) eqn:Hlen.
  - destruct (saveCookies E config (adopting E st)) as [[[]|m] s] eqn:Hsave.
    + intros [= <- <-] _.
      destruct (saveCookies_ok _ _ _ _ Hsave) as (Hf & Hd & Hc & _).
      unfold Spec.persisted. rewrite Hc. cbn in *. auto.
    + intros [= <- <-]. cbn. discriminate.
  - intros [= <- <-]. rewrite (failure_report_not_success E Hlen). discriminate.
Qed.











(** ** Requests and tool handlers *)

Lemma sliceTo_sliceFrom n s : s = sliceTo n s +:+ sliceFrom n s.
Proof.
  revert s. induction n as [|n IH]; intros s; [destruct s; reflexivity|].
  destruct s as [|c s]; [reflexivity|].
  change (String c s = String c (sliceTo n s +:+ sliceFrom n s)).
  rewrite <- IH. reflexivity.
Qed.

Lemma sliceTo_length n s : String.length (sliceTo n s) <= n.
Proof.
  revert s. induction n as [|n IH]; intros s; [destruct s; cbn; lia|].
  destruct s as [|c s]; cbn; [lia|]. specialize (IH s). lia.
Qed.

Lemma request_run E url method body extra st :
  request E url method body extra st =
  (match fetch E (net st) (requestInit E (cookies st) url method body extra) with
   | NetworkError msg => Throw msg
   | Responded res => answer E res url
   end,
   logged st (requestInit E (cookies st) url method body extra)).
Proof.
  unfold request, bind at 1, get_state. unfold bind at 1, doFetch.
  destruct (fetch E (net st) _) as [msg|res]; cbn; [reflexivity|].
  unfold answer. destruct (negb (ok res)); [reflexivity|].
  destruct (includes _ _); destruct (body_text res) as [b|]; try reflexivity.
  destruct (JSON_parse E b); reflexivity.
Qed.

Lemma httpErrorMessage_parts res url :
  Spec.partOf (pretty (status res)) (httpErrorMessage res url) /\
  Spec.partOf url (httpErrorMessage res url) /\
  exists excerpt,
    Spec.prefixOf excerpt (match body_text res with Some b => b | None => EmptyString end) /\
    String.length excerpt <= 500 /\
    Spec.partOf excerpt (httpErrorMessage res url) /\
    httpErrorMessage res url =
      "HTTP " +:+ pretty (status res) +:+ ": " +:+ url +:+
      (if truthy excerpt then String "010"%char excerpt else EmptyString).
Proof.
  unfold httpErrorMessage.
  set (body := match body_text res with Some b => b | None => EmptyString end).
  set (tail := if truthy body then String "010"%char (sliceTo 500 body) else EmptyString).
  split; [|split].
  - exists "HTTP ", (": " +:+ url +:+ tail). reflexivity.
  - exists ("HTTP " +:+ pretty (status res) +:+ ": "), tail.
    rewrite !append_assoc. reflexivity.
  - exists (sliceTo 500 body). split; [|split; [|split]].
    + exists (sliceFrom 500 body). apply sliceTo_sliceFrom.
    + apply sliceTo_length.
    + subst tail. destruct body as [|c body'] eqn:Hb.
      * exists ("HTTP " +:+ pretty (status res) +:+ ": " +:+ url), EmptyString.
        cbn [truthy sliceTo]. cbn. rewrite !append_assoc. reflexivity.
      * exists ("HTTP " +:+ pretty (status res) +:+ ": " +:+ url +:+ String "010"%char EmptyString), EmptyString.
        cbn [truthy]. rewrite append_nil_r, !append_assoc. reflexivity.
    + subst tail. destruct body as [|c body']; reflexivity.
Qed.

Lemma tryCatch_total {A} (m : M A) (h : string -> M A) :
  (forall msg st, exists a st', h msg st = (Ret a, st')) ->
  forall st, exists a st', tryCatch m h st = (Ret a, st').
Proof.
  intros Hh st. unfold tryCatch. destruct (m st) as [[a|msg] st']; eauto.
Qed.

Lemma guarded_total (m h : M ToolResult) (t : ToolResult) :
  (forall st, exists a st', h st = (Ret a, st')) ->
  forall st, exists a st',
    bind hasCookies (fun has => if negb has then ret t else h) st = (Ret a, st').
Proof.
  intros Hh st. unfold bind, hasCookies.
  destruct (negb _); [unfold ret; eauto | apply Hh].
Qed.

Lemma get_comments_total E a b c st : exists r st', WebTools.get_comments E a b c st = (Ret r, st').
Proof.
  unfold WebTools.get_comments. unfold bind at 1, hasCookies.
  destruct (negb _); [unfold ret; eauto|].
  apply tryCatch_total. intros; unfold ret; eauto.
Qed.

Ltac handler_total :=
  intros;
  match goal with
  | |- exists r st', bind hasCookies _ ?st = _ =>
      unfold bind at 1, hasCookies;
      destruct (negb _); [unfold ret; eauto|];
      apply tryCatch_total; intros; unfold ret; eauto
  | |- _ => apply tryCatch_total; intros; unfold ret; eauto
  end.

Lemma handlers_total E config :
  (forall s st, exists r st', WebTools.cf_set_cookies E config s st = (Ret r, st')) /\
  (forall st, exists r st', WebTools.cf_auto_extract_cookies E config st = (Ret r, st')) /\
  (forall a b c st, exists r st', WebTools.get_comments E a b c st = (Ret r, st')) /\
  (forall a b c st, exists r st', WebTools.post_comment E a b c st = (Ret r, st')) /\
  (forall a b st, exists r st', WebTools.delete_comment E a b st = (Ret r, st')) /\
  (forall a st, exists r st', WebTools.get_project_settings E a st = (Ret r, st')) /\
  (forall a b st, exists r st', WebTools.update_project_description E a b st = (Ret r, st')) /\
  (forall a b c st, exists r st', WebTools.cf_fetch_page E a b c st = (Ret r, st')).
Proof.
  repeat split;
    [ unfold WebTools.cf_set_cookies | unfold WebTools.cf_auto_extract_cookies
    | unfold WebTools.get_comments | unfold WebTools.post_comment
    | unfold WebTools.delete_comment | unfold WebTools.get_project_settings
    | unfold WebTools.update_project_description | unfold WebTools.cf_fetch_page ];
    handler_total.
Qed.

Lemma has_cookies st : cookies st <> [] -> Nat.ltb 0 (List.length (cookies st)) = true.
Proof. destruct (cookies st); [congruence | reflexivity]. Qed.

Lemma get_comments_http_error E mod_id page page_size st res :
  cookies st <> [] ->
  fetch E (net st)
    (requestInit E (cookies st) (commentsUrl mod_id page page_size) "GET" None [])
  = Responded res ->
  ok res = false ->
  WebTools.get_comments E mod_id page page_size st =
  (Ret (error ("get_comments: " +:+
               httpErrorMessage res (commentsUrl mod_id page page_size))),
   logged st (requestInit E (cookies st) (commentsUrl mod_id page page_size) "GET" None [])).
Proof.
  intros Hc Hfetch Hok.
  unfold WebTools.get_comments. unfold bind at 1, hasCookies.
  rewrite (has_cookies st Hc). cbn [negb].
  unfold tryCatch, bind at 1, get. fold (commentsUrl mod_id page page_size).
  rewrite request_run, Hfetch. unfold answer. rewrite Hok. reflexivity.
Qed.

Lemma guarded_without_cookies E st :
  cookies st = [] ->
  (forall a b c, WebTools.get_comments E a b c st = (Ret (error WebTools.NO_SESSION), st)) /\
  (forall a b c, WebTools.post_comment E a b c st = (Ret (error WebTools.NO_SESSION), st)) /\
  (forall a b, WebTools.delete_comment E a b st = (Ret (error WebTools.NO_SESSION), st)) /\
  (forall a, WebTools.get_project_settings E a st = (Ret (error WebTools.NO_SESSION), st)) /\
  (forall a b, WebTools.update_project_description E a b st = (Ret (error WebTools.NO_SESSION), st)).
Proof.
  intros Hc.
  repeat split; intros;
    [ unfold WebTools.get_comments | unfold WebTools.post_comment
    | unfold WebTools.delete_comment | unfold WebTools.get_project_settings
    | unfold WebTools.update_project_description ];
    unfold bind at 1, hasCookies; rewrite Hc; reflexivity.
Qed.

Lemma tryCatch_net {A} (m : M A) (h : string -> M A) st :
  (forall msg s, snd (h msg s) = s) ->
  snd (tryCatch m h st) = snd (m st).
Proof.
  intros Hh. unfold tryCatch. destruct (m st) as [[a|msg] s]; cbn; [reflexivity|].
  apply Hh.
Qed.

Ltac request_done :=
  rewrite request_run; cbn;
  match goal with
  | |- context [fetch ?E ?h ?r] =>
      destruct (fetch E h r) as [?|res]; [reflexivity|];
      destruct (answer E res _); reflexivity
  end.

Lemma cf_fetch_page_state E url method body st :
  snd (WebTools.cf_fetch_page E url method body st) =
  if bodyRejected E method body then st
  else logged st (requestInit E (cookies st) (fullUrl url) (methodName method)
                    (match method, body with
                     | POST, Some b | PUT, Some b =>
                         if truthy b then JSON_parse E b else None
                     | _, _ => None
                     end) []).
Proof.
  unfold WebTools.cf_fetch_page. rewrite tryCatch_net by reflexivity.
  fold (fullUrl url). unfold bind at 1.
  destruct method; cbn [bodyRejected methodName];
    unfold WebTools.parseBody, get, post, put, delete; try request_done;
    unfold bind at 1;
    (destruct body as [b|];
     [ destruct (truthy b); cbn [andb];
       [ destruct (JSON_parse E b) as [j|]; [|reflexivity] | ] | ]);
    unfold ret; request_done.
Qed.

(** ** The claims about the dispatcher and the tool boundary *)

(** C5. A request of the web dispatcher that is answered with a status
    outside 200-299 throws to its caller an error whose message is
    [HTTP <status>: <url>], followed, when the body is not empty, by a line
    break and the first 500 characters of the body at most: the message
    contains the status code, the requested URL and a prefix of the body
    no longer than 500. No handler of the web tools lets an exception
    through: each returns a result, and [get_comments] returns the error
    result that carries the message. *)
Theorem request_failure_is_descriptive
    (E : Env) (url method : string) (body : option json) (extra : Headers)
    (st : State) (res : Response) :
  fetch E (net st) (requestInit E (cookies st) url method body extra) = Responded res ->
  ok res = false ->
  request E url method body extra st =
    (Throw (httpErrorMessage res url),
     logged st (requestInit E (cookies st) url method body extra)) /\
  Spec.partOf (pretty (status res)) (httpErrorMessage res url) /\
  Spec.partOf url (httpErrorMessage res url) /\
  (exists excerpt,
     Spec.prefixOf excerpt
       (match body_text res with Some b => b | None => EmptyString end) /\
     String.length excerpt <= 500 /\
     Spec.partOf excerpt (httpErrorMessage res url) /\
     httpErrorMessage res url =
       "HTTP " +:+ pretty (status res) +:+ ": " +:+ url +:+
       (if truthy excerpt then String "010"%char excerpt else EmptyString)) /\
  (forall config,
     (forall s0 s, exists r s', WebTools.cf_set_cookies E config s0 s = (Ret r, s')) /\
     (forall s, exists r s', WebTools.cf_auto_extract_cookies E config s = (Ret r, s')) /\
     (forall a b c s, exists r s', WebTools.get_comments E a b c s = (Ret r, s')) /\
     (forall a b c s, exists r s', WebTools.post_comment E a b c s = (Ret r, s')) /\
     (forall a b s, exists r s', WebTools.delete_comment E a b s = (Ret r, s')) /\
     (forall a s, exists r s', WebTools.get_project_settings E a s = (Ret r, s')) /\
     (forall a b s, exists r s', WebTools.update_project_description E a b s = (Ret r, s')) /\
     (forall a b c s, exists r s', WebTools.cf_fetch_page E a b c s = (Ret r, s'))) /\
  (forall mod_id page page_size s,
     cookies s <> [] ->
     fetch E (net s)
       (requestInit E (cookies s) (commentsUrl mod_id page page_size) "GET" None [])
     = Responded res ->
     WebTools.get_comments E mod_id page page_size s =
     (Ret (error ("get_comments: " +:+
                  httpErrorMessage res (commentsUrl mod_id page page_size))),
      logged s (requestInit E (cookies s) (commentsUrl mod_id page page_size)
                  "GET" None []))).
Proof.
  intros Hfetch Hok.
  destruct (httpErrorMessage_parts res url) as (Hstatus & Hurl & Hbody).
  split; [|split; [exact Hstatus|split; [exact Hurl|split; [exact Hbody|split]]]].
  - rewrite request_run, Hfetch. unfold answer. rewrite Hok. reflexivity.
  - intros config. apply handlers_total.
  - intros mod_id page page_size s Hc Hf.
    apply get_comments_http_error; assumption.
Qed.


(** A 404 with an HTML body, as the caller of [request] sees it. *)
Lemma request_failure_is_descriptive_witness :
  let E := Reference.env ∅ (fun _ _ => Responded notFound) None in
  fst (request E "https://www.curseforge.com/api/v1/mods/7/x" "GET" None []
         Reference.emptyState) =
  Throw ("HTTP 404: https://www.curseforge.com/api/v1/mods/7/x" +:+
         String "010"%char "<html>not found</html>").
Proof.
  intros E.
  destruct (request_failure_is_descriptive E
              "https://www.curseforge.com/api/v1/mods/7/x" "GET" None []
              Reference.emptyState notFound eq_refl eq_refl) as (Hrun & _).
  rewrite Hrun. vm_compute. reflexivity.
Defined.

(** C9. With an empty Cookie Set the handlers of [get_comments],
    [post_comment], [delete_comment], [get_project_settings] and
    [update_project_description] return, for every argument, the result
    marked as an error whose text is
    [Error: No session cookies. Use cf_auto_extract_cookies first.],
    and leave the state as it was: no request reaches [fetch].
    [cf_fetch_page] has no such guard: with the same empty Cookie Set it
    hands its request to [fetch], for every URL and method (a [POST] or
    [PUT] whose body text is not JSON is given up before, whatever the
    cookies). *)
Theorem session_tools_guarded_without_cookies (E : Env) (st : State) :
  cookies st = [] ->
  let refusal :=
    {| text := "Error: No session cookies. Use cf_auto_extract_cookies first.";
       isError := true |} in
  (forall a b c, WebTools.get_comments E a b c st = (Ret refusal, st)) /\
  (forall a b c, WebTools.post_comment E a b c st = (Ret refusal, st)) /\
  (forall a b, WebTools.delete_comment E a b st = (Ret refusal, st)) /\
  (forall a, WebTools.get_project_settings E a st = (Ret refusal, st)) /\
  (forall a b, WebTools.update_project_description E a b st = (Ret refusal, st)) /\
  (forall url method body,
     net (snd (WebTools.cf_fetch_page E url method body st)) =
     if bodyRejected E method body then net st
     else (net st ++
           [requestInit E [] (fullUrl url) (methodName method)
              (match method, body with
               | POST, Some b | PUT, Some b =>
                   if truthy b then JSON_parse E b else None
               | _, _ => None
               end) []])%list) /\
  (forall url,
     net (snd (WebTools.cf_fetch_page E url GET None st)) =
     (net st ++ [requestInit E [] (fullUrl url) "GET" None []])%list) /\
  (forall url,
     exists r, net (snd (WebTools.cf_fetch_page E url GET None st)) = (net st ++ [r])%list /\
       req_url r = (if startsWith "http" url then url
                    else "https://www.curseforge.com" +:+ url) /\
       req_method r = "GET").
Proof.
  intros Hc refusal.
  destruct (guarded_without_cookies E st Hc) as (H1 & H2 & H3 & H4 & H5).
  repeat (split; [assumption|]). split; [|split].
  - intros url method body. rewrite cf_fetch_page_state, Hc.
    destruct (bodyRejected E method body); reflexivity.
  - intros url. rewrite cf_fetch_page_state, Hc. reflexivity.
  - intros url. rewrite cf_fetch_page_state, Hc. eexists. split; [reflexivity|].
    split; reflexivity.
Qed.

(** A fresh client without cookies: [post_comment] is refused, [cf_fetch_page]
    sends its request. *)
Lemma session_tools_guarded_without_cookies_witness :
  let E := Reference.env ∅ offline None in
  WebTools.post_comment E 7 "hello" None Reference.emptyState =
    (Ret {| text := "Error: No session cookies. Use cf_auto_extract_cookies first.";
            isError := true |},
     Reference.emptyState) /\
  List.length (net (snd (WebTools.cf_fetch_page E "/api/v1/mods/7/members" GET None
                           Reference.emptyState))) = 1.
Proof.
  intros E.
  destruct (session_tools_guarded_without_cookies E Reference.emptyState eq_refl)
    as (_ & Hpost & _ & _ & _ & _ & Hpage & _).
  split; [apply Hpost|]. rewrite Hpage. reflexivity.
Defined.

(** ** The upload client *)

Lemma doFetch_run E r st :
  doFetch E r st =
  (match fetch E (net st) r with
   | Responded res => Ret res
   | NetworkError msg => Throw msg
   end, logged st r).
Proof. unfold doFetch. destruct (fetch E (net st) r); reflexivity. Qed.

Lemma getGameVersions_not_ok E token st res :
  fetch E (net st) (versionsRequest E token) = Responded res ->
  ok res = false ->
  UploadApiClient.getGameVersions E token st =
  (Throw ("Upload API error " +:+ pretty (status res) +:+ " at " +:+ res_url res),
   logged st (versionsRequest E token)).
Proof.
  intros Hf Hok. unfold UploadApiClient.getGameVersions, bind.
  fold (versionsRequest E token). rewrite doFetch_run, Hf, Hok. reflexivity.
Qed.

Lemma getGameVersionTypes_not_ok E token st res :
  fetch E (net st) (versionTypesRequest E token) = Responded res ->
  ok res = false ->
  UploadApiClient.getGameVersionTypes E token st =
  (Throw ("Upload API error " +:+ pretty (status res) +:+ " at " +:+ res_url res),
   logged st (versionTypesRequest E token)).
Proof.
  intros Hf Hok. unfold UploadApiClient.getGameVersionTypes, bind.
  fold (versionTypesRequest E token). rewrite doFetch_run, Hf, Hok. reflexivity.
Qed.

Lemma uploadFile_not_ok E token projectId filePath metadata st data res errorText :
  fs st !! filePath = Some (File data) ->
  fetch E (net st) (uploadRequest E token projectId filePath data metadata) = Responded res ->
  ok res = false ->
  body_text res = Some errorText ->
  UploadApiClient.uploadFile E token projectId filePath metadata st =
  (Throw ("Upload failed (" +:+ pretty (status res) +:+ "): " +:+ errorText),
   logged st (uploadRequest E token projectId filePath data metadata)).
Proof.
  intros Hfile Hf Hok Hbody. unfold UploadApiClient.uploadFile, bind at 1, readFileSync.
  rewrite Hfile. unfold bind at 1.
  fold (uploadRequest E token projectId filePath data metadata).
  rewrite doFetch_run, Hf, Hok. cbn [negb].
  unfold bind, UploadApiClient.resText. rewrite Hbody. reflexivity.
Qed.

(** One call, one request at most: whatever the answer, nothing is sent again. *)
Lemma uploadFile_requests E token projectId filePath metadata st :
  net (snd (UploadApiClient.uploadFile E token projectId filePath metadata st)) =
  match fs st !! filePath with
  | Some (File data) =>
      (net st ++ [uploadRequest E token projectId filePath data metadata])%list
  | _ => net st
  end.
Proof.
  unfold UploadApiClient.uploadFile, bind at 1, readFileSync.
  destruct (fs st !! filePath) as [[data|]|]; try reflexivity.
  unfold bind at 1. fold (uploadRequest E token projectId filePath data metadata).
  rewrite doFetch_run.
  destruct (fetch E (net st) _) as [msg|res]; [reflexivity|].
  destruct (negb (ok res)).
  - unfold bind, UploadApiClient.resText. destruct (body_text res); reflexivity.
  - unfold UploadApiClient.resJson. destruct (body_text res) as [b|]; [|reflexivity].
    destruct (JSON_parse E b); reflexivity.
Qed.

Lemma length_spaces n : String.length (Reference.spaces n) = n.
Proof. induction n as [|n IH]; [reflexivity|]. cbn. rewrite IH. reflexivity. Qed.

Lemma uploadError_message body :
  uploadError body = Throw ("Upload failed (500): " +:+ body).
Proof.
  unfold uploadError.
  rewrite (uploadFile_not_ok _ _ _ _ _ _ "PK" (failing body) body) by reflexivity.
  cbn [fst status failing].
  replace (pretty 500%N) with "500" by (vm_compute; reflexivity). reflexivity.
Qed.

(** Against the bounded excerpt of C8: the error of [getGameVersions] is
    the same whatever the body of the response, and no length bounds the
    error of [uploadFile]. *)
Lemma upload_errors_have_no_bounded_excerpt :
  (forall body,
     versionsError body =
     Throw "Upload API error 500 at https://www.curseforge.com/api/game/versions") /\
  ~ (exists bound, forall body msg,
       uploadError body = Throw msg -> String.length msg <= bound).
Proof.
  split.
  - intros body. unfold versionsError.
    rewrite (getGameVersions_not_ok _ _ _ (failing body)) by reflexivity.
    cbn [fst status res_url failing].
    replace (pretty 500%N) with "500" by (vm_compute; reflexivity). reflexivity.
  - intros (bound & Hbound).
    specialize (Hbound (Reference.spaces (S bound)) _ (uploadError_message _)).
    rewrite length_append, length_spaces in Hbound. cbn in Hbound. lia.
Qed.

Lemma upload_file_state E token projectId filePath metadata st :
  snd (UploadTools.upload_file E token projectId filePath metadata st) =
  snd (UploadApiClient.uploadFile E token projectId filePath metadata st).
Proof.
  unfold UploadTools.upload_file. rewrite tryCatch_net by reflexivity.
  unfold bind at 1.
  destruct (UploadApiClient.uploadFile E token projectId filePath metadata st)
    as [[result|msg] s]; [|reflexivity].
  unfold bind. destruct (UploadTools.showId result); reflexivity.
Qed.

Lemma upload_file_total E token projectId filePath metadata st :
  exists r s',
    UploadTools.upload_file E token projectId filePath metadata st = (Ret r, s').
Proof. apply tryCatch_total. intros. unfold ret. eauto. Qed.

(** C8, as the code has it. On a status outside 200-299 the upload
    client throws an error that carries the status code:
    [getGameVersions] and [getGameVersionTypes] add the URL of the response
    and nothing of its body; [uploadFile] adds the error body whole, with
    no bound on its length. A call of [uploadFile] hands one request to
    [fetch] (none when the file cannot be read), whatever the answer: a
    failed submission is not sent again, by the client or by the
    [upload_file] handler, which turns the error into an error result. *)
Theorem upload_failure_surfaces_status
    (E : Env) (token : string) (st : State) (res : Response) :
  ok res = false ->
  (fetch E (net st) (versionsRequest E token) = Responded res ->
   UploadApiClient.getGameVersions E token st =
   (Throw ("Upload API error " +:+ pretty (status res) +:+ " at " +:+ res_url res),
    logged st (versionsRequest E token))) /\
  (fetch E (net st) (versionTypesRequest E token) = Responded res ->
   UploadApiClient.getGameVersionTypes E token st =
   (Throw ("Upload API error " +:+ pretty (status res) +:+ " at " +:+ res_url res),
    logged st (versionTypesRequest E token))) /\
  (forall projectId filePath metadata data errorText,
     fs st !! filePath = Some (File data) ->
     fetch E (net st) (uploadRequest E token projectId filePath data metadata)
       = Responded res ->
     body_text res = Some errorText ->
     UploadApiClient.uploadFile E token projectId filePath metadata st =
     (Throw ("Upload failed (" +:+ pretty (status res) +:+ "): " +:+ errorText),
      logged st (uploadRequest E token projectId filePath data metadata))) /\
  (forall projectId filePath metadata,
     net (snd (UploadApiClient.uploadFile E token projectId filePath metadata st)) =
     match fs st !! filePath with
     | Some (File data) =>
         (net st ++ [uploadRequest E token projectId filePath data metadata])%list
     | _ => net st
     end) /\
  (forall projectId filePath metadata,
     (exists r s',
        UploadTools.upload_file E token projectId filePath metadata st = (Ret r, s')) /\
     net (snd (UploadTools.upload_file E token projectId filePath metadata st)) =
     net (snd (UploadApiClient.uploadFile E token projectId filePath metadata st))).
Proof.
  intros Hok. split; [|split; [|split; [|split]]].
  - intros Hf. apply getGameVersions_not_ok; assumption.
  - intros Hf. apply getGameVersionTypes_not_ok; assumption.
  - intros projectId filePath metadata data errorText Hfile Hf Hbody.
    apply uploadFile_not_ok; assumption.
  - intros. apply uploadFile_requests.
  - intros. split; [apply upload_file_total|].
    rewrite upload_file_state. reflexivity.
Qed.

(** A failed upload: the whole body in the message, one request sent. *)
Lemma upload_failure_surfaces_status_witness :
  uploadError "disk quota exceeded" = Throw "Upload failed (500): disk quota exceeded" /\
  List.length
    (net (snd (UploadApiClient.uploadFile
                 (Reference.env ∅ (fun _ _ => Responded (failing "disk quota exceeded")) None)
                 "token" 42 "/tmp/mod.jar" plainRelease jarOnDisk))) = 1.
Proof.
  destruct (upload_failure_surfaces_status
              (Reference.env ∅ (fun _ _ => Responded (failing "disk quota exceeded")) None)
              "token" jarOnDisk (failing "disk quota exceeded") eq_refl)
    as (_ & _ & Hupload & Hnet & _).
  split.
  - unfold uploadError.
    rewrite (Hupload 42%Z "/tmp/mod.jar" plainRelease "PK" "disk quota exceeded"
               eq_refl eq_refl eq_refl).
    vm_compute. reflexivity.
  - rewrite Hnet. reflexivity.
Defined.

(** ** The browser session launch *)

Lemma coalesced_step called seen s e :
  coalesced called seen s ->
  coalesced (called || BrowserClient.isCall e) (seen ++ callers [e])%list (BrowserClient.step s e).
Proof.
  intros (Hl & Hp & Hs & Hr).
  destruct s as [ph n aw sv]. cbn in *. subst called seen.
  destruct e as [c| |]; destruct ph; cbn in *; unfold coalesced; cbn;
    rewrite ?app_nil_r, ?orb_false_r, ?app_assoc;
    repeat split; try assumption; try reflexivity; try discriminate.
  all: try (subst n; reflexivity).
  all: try (rewrite Hr by reflexivity; rewrite ?app_nil_r; reflexivity).
Qed.

Lemma callers_cons e events :
  callers (e :: events) = (callers [e] ++ callers events)%list.
Proof. unfold callers. cbn. destruct e; reflexivity. Qed.

Lemma coalesced_run events called seen s :
  coalesced called seen s ->
  coalesced (called || existsb BrowserClient.isCall events) (seen ++ callers events)%list
            (fold_left BrowserClient.step events s).
Proof.
  revert called seen s. induction events as [|e events IH]; intros called seen s H.
  - cbn. rewrite orb_false_r, app_nil_r. exact H.
  - cbn [fold_left existsb].
    rewrite callers_cons, app_assoc, orb_assoc.
    apply IH. apply coalesced_step. exact H.
Qed.

Lemma coalesced_initial : coalesced false [] BrowserClient.initial.
Proof. repeat split; try discriminate. Qed.

Lemma burst_from waiting cs :
  fold_left BrowserClient.step (List.map BrowserClient.Call cs)
    {| BrowserClient.phase := BrowserClient.Launching; BrowserClient.launches := 1; BrowserClient.awaiting := waiting; BrowserClient.served := [] |} =
  {| BrowserClient.phase := BrowserClient.Launching; BrowserClient.launches := 1;
     BrowserClient.awaiting := (waiting ++ cs)%list; BrowserClient.served := [] |}.
Proof.
  revert waiting. induction cs as [|d cs IH]; intros waiting.
  - cbn. rewrite app_nil_r. reflexivity.
  - cbn [List.map fold_left]. cbn [BrowserClient.step BrowserClient.phase BrowserClient.launches BrowserClient.awaiting BrowserClient.served].
    rewrite IH, <- app_assoc. reflexivity.
Qed.

Lemma burst_run c cs :
  BrowserClient.run (List.map BrowserClient.Call (c :: cs)) =
  {| BrowserClient.phase := BrowserClient.Launching; BrowserClient.launches := 1; BrowserClient.awaiting := c :: cs; BrowserClient.served := [] |}.
Proof. apply (burst_from [c] cs). Qed.

(** C10. Spec-modelled. Over every interleaving of callers entering the
    dispatcher and of the pending initialization making progress, the
    number of session launches is 1 as soon as one caller has entered and
    0 before: never two. Every caller is either awaiting the one shared
    initialization or served by the ready session, in order of arrival;
    any number of callers entering before the launch resolves all await
    that one launch. *)
Theorem browser_session_launched_once (events : list BrowserClient.Event) :
  BrowserClient.launches (BrowserClient.run events) = (if existsb BrowserClient.isCall events then 1 else 0) /\
  BrowserClient.launches (BrowserClient.run events) <= 1 /\
  (BrowserClient.served (BrowserClient.run events) ++ BrowserClient.awaiting (BrowserClient.run events))%list = callers events /\
  (forall c cs,
     BrowserClient.run (List.map BrowserClient.Call (c :: cs)) =
     {| BrowserClient.phase := BrowserClient.Launching; BrowserClient.launches := 1;
        BrowserClient.awaiting := c :: cs; BrowserClient.served := [] |}) /\
  (forall a b,
     BrowserClient.launches (BrowserClient.run [BrowserClient.Call a; BrowserClient.Call b; BrowserClient.Launched; BrowserClient.ChallengeOver]) = 1 /\
     BrowserClient.served (BrowserClient.run [BrowserClient.Call a; BrowserClient.Call b; BrowserClient.Launched; BrowserClient.ChallengeOver]) = [a; b]).
Proof.
  destruct (coalesced_run events false [] BrowserClient.initial coalesced_initial)
    as (Hl & _ & Hs & _).
  cbn [orb app] in *. fold (BrowserClient.run events) in *.
  repeat split; try assumption.
  - rewrite Hl. destruct (existsb BrowserClient.isCall events); lia.
  - intros. apply burst_run.
Qed.

(** ** Start-up: which tools are registered *)




Lemma autoExtractCookies_net E config st :
  net (snd (autoExtractCookies E config st)) = net st.
Proof.
  rewrite autoExtractCookies_run.
  destruct (Nat.ltb 0 (List.length (extracted (extraction E)))); [|reflexivity].
  pose proof (saveCookies_frame E config (adopting E st)) as (_ & Hn & _).
  destruct (saveCookies E config (adopting E st)) as [[[]|msg] s]; exact Hn.
Qed.







(** ** Truncation *)

Lemma truncate_default t : truncate t = truncateAt 20000 t.
Proof. reflexivity. Qed.

Lemma sliceTo_length_exact n s :
  String.length (sliceTo n s) = Nat.min n (String.length s).
Proof.
  revert s. induction n as [|n IH]; intros s; [destruct s; reflexivity|].
  destruct s as [|c s]; [reflexivity|]. cbn [sliceTo String.length].
  rewrite IH. reflexivity.
Qed.

Lemma sliceTo_append n a b :
  String.length a = n -> sliceTo n (a +:+ b) = a.
Proof.
  revert a. induction n as [|n IH]; intros a Ha.
  - destruct a; [|discriminate]. destruct b; reflexivity.
  - destruct a as [|c a]; [discriminate|]. injection Ha as Ha.
    rewrite append_cons. cbn [sliceTo]. rewrite (IH a Ha). reflexivity.
Qed.

Lemma sliceTo_all n s : String.length s <= n -> sliceTo n s = s.
Proof.
  revert s. induction n as [|n IH]; intros s Hs.
  - destruct s; [reflexivity | cbn in Hs; lia].
  - destruct s as [|c s]; [reflexivity|]. cbn [sliceTo]. rewrite IH; [reflexivity|].
    cbn in Hs. lia.
Qed.

Lemma sliceTo_sliceTo n s : sliceTo n (sliceTo n s) = sliceTo n s.
Proof.
  apply sliceTo_all. rewrite sliceTo_length_exact. lia.
Qed.

Lemma truncateAt_short maxLen t :
  Nat.leb (String.length t) maxLen = true -> truncateAt maxLen t = t.
Proof. intros H. unfold truncateAt. rewrite H. reflexivity. Qed.

Lemma truncateAt_long maxLen t :
  Nat.leb (String.length t) maxLen = false ->
  truncateAt maxLen t = sliceTo maxLen t +:+ String "010"%char "... [truncated]" /\
  String.length (sliceTo maxLen t) = maxLen.
Proof.
  intros H. unfold truncateAt. rewrite H. split; [reflexivity|].
  apply Nat.leb_gt in H. rewrite sliceTo_length_exact. lia.
Qed.

(** X1. [truncate] leaves a text of at most [maxLen] characters as it
    is, and cuts a longer one to its first [maxLen] characters followed by
    a 16-character marker: the result is never longer than
    [maxLen] + 16, it starts like the text, and truncating twice is
    truncating once - the marker does not count against the limit, so an
    already truncated text is cut at the same place.  The handlers call
    it with the default limit of 20000. *)
Theorem truncateAt_bounded_idempotent (maxLen : nat) (t : string) :
  String.length (truncateAt maxLen t) =
    (if Nat.leb (String.length t) maxLen then String.length t else maxLen + 16) /\
  sliceTo maxLen (truncateAt maxLen t) = sliceTo maxLen t /\
  truncateAt maxLen (truncateAt maxLen t) = truncateAt maxLen t /\
  truncate t = truncateAt 20000 t.
Proof.
  destruct (Nat.leb (String.length t) maxLen) eqn:Hlen.
  - rewrite !(truncateAt_short _ _ Hlen). auto.
  - destruct (truncateAt_long _ _ Hlen) as (Heq & Hcut). rewrite Heq.
    repeat split.
    + rewrite length_append, Hcut. reflexivity.
    + apply sliceTo_append. exact Hcut.
    + assert (Hlong : Nat.leb (String.length
                (sliceTo maxLen t +:+ String "010"%char "... [truncated]")) maxLen = false).
      { apply Nat.leb_gt. rewrite length_append, Hcut. cbn. lia. }
      destruct (truncateAt_long _ _ Hlong) as (Heq2 & _).
      rewrite Heq2, (sliceTo_append _ _ _ Hcut). reflexivity.
Qed.

(** ** The Cookie header and the parser *)

Lemma trim_idem s : trim (trim s) = trim s.
Proof. unfold trim at 2. rewrite trim_trimEnd, trim_trimStart. reflexivity. Qed.

Lemma occurs_beforeFirst c d s :
  Spec.occurs c (Spec.beforeFirst d s) = true -> Spec.occurs c s = true.
Proof.
  induction s as [|x s IH]; cbn; [discriminate|].
  destruct (Ascii.eqb x d); cbn; [discriminate|].
  destruct (Ascii.eqb x c); cbn; [reflexivity | exact IH].
Qed.

Lemma occurs_beforeFirst_self d s : Spec.occurs d (Spec.beforeFirst d s) = false.
Proof.
  induction s as [|x s IH]; cbn; [reflexivity|].
  destruct (Ascii.eqb x d) eqn:Hx; cbn; [reflexivity|]. rewrite Hx. exact IH.
Qed.

Lemma occurs_afterFirst c d s :
  Spec.occurs c (Spec.afterFirst d s) = true -> Spec.occurs c s = true.
Proof.
  induction s as [|x s IH]; cbn; [discriminate|].
  destruct (Ascii.eqb x d); intros H.
  - rewrite H. apply orb_true_r.
  - rewrite (IH H). apply orb_true_r.
Qed.

Lemma split_no_separator sep s :
  Forall (fun piece => Spec.occurs sep piece = false) (split sep s).
Proof.
  induction s as [|x s IH]; cbn [split].
  - constructor; [reflexivity | constructor].
  - destruct (Ascii.eqb x sep) eqn:Hx.
    + constructor; [reflexivity | exact IH].
    + destruct (split sep s) as [|piece rest].
      * constructor; [cbn; rewrite Hx; reflexivity | constructor].
      * inversion IH as [|? ? Hp Hr]; subst.
        constructor; [cbn; rewrite Hx; exact Hp | exact Hr].
Qed.

Lemma not_true_false b : (b = true -> False) -> b = false.
Proof. destruct b; [intros H; destruct (H eq_refl) | reflexivity]. Qed.

Lemma entryOf_headerSafe segment :
  Spec.occurs ";"%char segment = false ->
  headerSafe (Spec.entryOf segment) = true.
Proof.
  intros Hseg. unfold headerSafe, Spec.entryOf. cbn [name value].
  rewrite !trim_idem, !String.eqb_refl.
  rewrite !(occurs_trim ";"%char) by reflexivity.
  rewrite (occurs_trim "="%char) by reflexivity.
  rewrite occurs_beforeFirst_self.
  assert (H1 : Spec.occurs ";"%char (Spec.beforeFirst "="%char segment) = false).
  { apply not_true_false. intros H. apply occurs_beforeFirst in H. congruence. }
  assert (H2 : Spec.occurs ";"%char (Spec.afterFirst "="%char segment) = false).
  { apply not_true_false. intros H. apply occurs_afterFirst in H. congruence. }
  rewrite H1, H2. reflexivity.
Qed.

Lemma wellFormedEntries_headerSafe raw :
  forallb headerSafe (Spec.wellFormedEntries raw) = true.
Proof.
  unfold Spec.wellFormedEntries. apply forallb_forall. intros c Hc.
  apply in_map_iff in Hc. destruct Hc as (seg & <- & Hseg).
  apply filter_In in Hseg. destruct Hseg as (Hseg & _).
  apply entryOf_headerSafe.
  pose proof (split_no_separator ";"%char raw) as Hall.
  rewrite List.Forall_forall in Hall. apply Hall. exact Hseg.
Qed.


Lemma occurs_append c a b :
  Spec.occurs c (a +:+ b) = Spec.occurs c a || Spec.occurs c b.
Proof.
  induction a as [|x a IH]; [reflexivity|].
  rewrite append_cons. cbn [Spec.occurs]. rewrite IH, orb_assoc. reflexivity.
Qed.

Lemma beforeFirst_append d a b :
  Spec.occurs d a = false ->
  Spec.beforeFirst d (a +:+ String d b) = a /\
  Spec.afterFirst d (a +:+ String d b) = b.
Proof.
  induction a as [|x a IH]; intros Ha.
  - rewrite append_nil_l. cbn [Spec.beforeFirst Spec.afterFirst].
    rewrite Ascii.eqb_refl. auto.
  - cbn [Spec.occurs] in Ha. apply orb_false_iff in Ha. destruct Ha as (Hx & Ha).
    rewrite append_cons. cbn [Spec.beforeFirst Spec.afterFirst]. rewrite Hx.
    destruct (IH Ha) as (-> & ->). auto.
Qed.

Lemma headerSafe_fields c :
  headerSafe c = true ->
  Spec.occurs ";"%char (name c) = false /\
  Spec.occurs "="%char (name c) = false /\
  Spec.occurs ";"%char (value c) = false /\
  trim (name c) = name c /\ trim (value c) = value c.
Proof.
  unfold headerSafe. rewrite !andb_true_iff, !negb_true_iff, !String.eqb_eq.
  tauto.
Qed.

Lemma segmentOf_facts c :
  headerSafe c = true ->
  Spec.occurs ";"%char (segmentOf c) = false /\
  Spec.wellFormed (segmentOf c) = true /\
  Spec.entryOf (segmentOf c) = withDefaults c /\
  Spec.wellFormed (String " "%char (segmentOf c)) = true /\
  Spec.entryOf (String " "%char (segmentOf c)) = withDefaults c.
Proof.
  intros Hc. destruct (headerSafe_fields c Hc) as (Hn1 & Hn2 & Hv & Htn & Htv).
  unfold segmentOf, Spec.wellFormed.
  change ("=" +:+ value c) with (String "="%char (value c)).
  destruct (beforeFirst_append "="%char (name c) (value c) Hn2) as (Hb & Ha).
  assert (Hb' : Spec.beforeFirst "="%char (String " "%char (name c +:+ String "="%char (value c)))
                = String " "%char (name c)).
  { cbn [Spec.beforeFirst]. change (Ascii.eqb " " "=") with false. cbv iota.
    rewrite Hb. reflexivity. }
  assert (Ha' : Spec.afterFirst "="%char (String " "%char (name c +:+ String "="%char (value c)))
                = value c).
  { cbn [Spec.afterFirst]. change (Ascii.eqb " " "=") with false. cbv iota. exact Ha. }
  repeat split.
  - rewrite occurs_append. cbn [Spec.occurs]. rewrite Hn1, Hv. reflexivity.
  - rewrite occurs_append. cbn [Spec.occurs]. rewrite Ascii.eqb_refl.
    apply orb_true_r.
  - unfold Spec.entryOf, withDefaults. rewrite Hb, Ha, Htn, Htv. reflexivity.
  - cbn [Spec.occurs]. rewrite occurs_append. cbn [Spec.occurs].
    rewrite Ascii.eqb_refl. rewrite !orb_true_r. reflexivity.
  - unfold Spec.entryOf, withDefaults. rewrite Hb', Ha'.
    assert (Hsp : trim (String " "%char (name c)) = trim (name c)) by reflexivity.
    rewrite Hsp, Htn, Htv. reflexivity.
Qed.

Lemma split_whole sep s : Spec.occurs sep s = false -> split sep s = [s].
Proof.
  induction s as [|x s IH]; [reflexivity|].
  cbn [Spec.occurs split]. intros H. apply orb_false_iff in H. destruct H as (Hx & Hs).
  rewrite Hx, (IH Hs). reflexivity.
Qed.

Lemma split_append sep a b :
  Spec.occurs sep a = false ->
  split sep (a +:+ String sep b) = a :: split sep b.
Proof.
  induction a as [|x a IH]; intros Ha.
  - rewrite append_nil_l. cbn [split]. rewrite Ascii.eqb_refl. reflexivity.
  - cbn [Spec.occurs] in Ha. apply orb_false_iff in Ha. destruct Ha as (Hx & Ha).
    rewrite append_cons. cbn [split]. rewrite Hx, (IH Ha). reflexivity.
Qed.

Lemma split_join_segments s rest :
  Forall (fun x => Spec.occurs ";"%char x = false) (s :: rest) ->
  split ";"%char (join "; " (s :: rest)) = s :: List.map (String " "%char) rest.
Proof.
  revert s. induction rest as [|s2 rest IH]; intros s Hall.
  - cbn [join List.map]. apply split_whole. inversion Hall; assumption.
  - inversion Hall as [|? ? Hs Hrest]; subst.
    change (join "; " (s :: s2 :: rest))
      with (s +:+ "; " +:+ join "; " (s2 :: rest)).
    change ("; " +:+ join "; " (s2 :: rest))
      with (String ";"%char (String " "%char (join "; " (s2 :: rest)))).
    rewrite (split_append _ _ _ Hs). cbn [split].
    change (Ascii.eqb " " ";") with false. cbv iota.
    rewrite (IH s2 Hrest). reflexivity.
Qed.

Lemma entries_of_segments cs :
  forallb headerSafe cs = true ->
  List.map Spec.entryOf
    (List.filter Spec.wellFormed (List.map (String " "%char) (List.map segmentOf cs))) =
  List.map withDefaults cs.
Proof.
  induction cs as [|c cs IH]; [reflexivity|].
  cbn [forallb]. intros H. apply andb_true_iff in H. destruct H as (Hc & Hcs).
  destruct (segmentOf_facts c Hc) as (_ & _ & _ & Hw & He).
  cbn [List.map List.filter]. rewrite Hw. cbn [List.map]. rewrite He, (IH Hcs).
  reflexivity.
Qed.

Lemma parse_header cs :
  forallb headerSafe cs = true ->
  parseCookieString (getCookieHeader cs) = List.map withDefaults cs.
Proof.
  intros Hsafe. rewrite parseCookieString_wellFormedEntries.
  unfold Spec.wellFormedEntries, getCookieHeader.
  change (List.map (fun c => name c +:+ "=" +:+ value c) cs) with (List.map segmentOf cs).
  destruct cs as [|c cs]; [reflexivity|].
  cbn [forallb] in Hsafe. apply andb_true_iff in Hsafe. destruct Hsafe as (Hc & Hcs).
  cbn [List.map]. rewrite split_join_segments.
  - destruct (segmentOf_facts c Hc) as (_ & Hw & He & _).
    cbn [List.filter]. rewrite Hw. cbn [List.map]. rewrite He.
    f_equal. apply entries_of_segments. exact Hcs.
  - constructor.
    + apply (segmentOf_facts c Hc).
    + apply List.Forall_forall. intros x Hx. apply in_map_iff in Hx.
      destruct Hx as (c' & <- & Hc').
      rewrite forallb_forall in Hcs. apply (segmentOf_facts c' (Hcs c' Hc')).
Qed.

Lemma withDefaults_wellFormedEntries raw :
  List.map withDefaults (Spec.wellFormedEntries raw) = Spec.wellFormedEntries raw.
Proof.
  unfold Spec.wellFormedEntries. rewrite List.map_map. reflexivity.
Qed.

(** X2. Whatever string is parsed, the entries that come out can be
    written as a Cookie header without loss: no name or value holds a
    [;] or blanks around it, no name holds an [=].  So the header built
    from a parsed Cookie Set parses back to the same set: parsing is
    idempotent through [getCookieHeader]. *)
Theorem parseCookieString_entries_headerSafe (raw : string) :
  forallb headerSafe (parseCookieString raw) = true /\
  parseCookieString (getCookieHeader (parseCookieString raw)) = parseCookieString raw.
Proof.
  rewrite parseCookieString_wellFormedEntries. split.
  - apply wellFormedEntries_headerSafe.
  - rewrite (parse_header _ (wellFormedEntries_headerSafe raw)).
    apply withDefaults_wellFormedEntries.
Qed.

Lemma setCookiesFromString_memory E config raw st :
  cookies (snd (setCookiesFromString E config raw st)) = parseCookieString raw.
Proof.
  pose proof (saveCookies_frame E config
    {| cookies := parseCookieString raw; fs := fs st; net := net st;
       probed := probed st |}) as (Hc & _).
  exact Hc.
Qed.

(** X3. The Cookie header of a session can be pasted back: for cookies
    whose names and values are ASCII and hold no [;], no surrounding
    blanks and, for names, no [=], parsing the header that
    [getCookieHeader] builds gives the same names and values in the same
    order, one entry per cookie, with the default domain and path; so
    [setCookiesFromString] on that header makes exactly these entries the
    Cookie Set. *)
Theorem getCookieHeader_parse_roundtrip
    (E : Env) (config : Config) (cs : list CookieEntry) (st : State) :
  forallb Spec.asciiEntry cs = true ->
  forallb headerSafe cs = true ->
  parseCookieString (getCookieHeader cs) = List.map withDefaults cs /\
  List.length (parseCookieString (getCookieHeader cs)) = List.length cs /\
  List.map name (parseCookieString (getCookieHeader cs)) = List.map name cs /\
  List.map value (parseCookieString (getCookieHeader cs)) = List.map value cs /\
  cookies (snd (setCookiesFromString E config (getCookieHeader cs) st)) =
    List.map withDefaults cs.
Proof.
  intros _ H. rewrite setCookiesFromString_memory, (parse_header cs H).
  split; [reflexivity|]. split; [apply length_map|].
  rewrite !List.map_map. repeat split; reflexivity.
Qed.

Lemma getCookieHeader_parse_roundtrip_witness :
  getCookieHeader sampleCookies = "session=abc 123; XSRF-TOKEN=tok" /\
  parseCookieString "session=abc 123; XSRF-TOKEN=tok" = sampleCookies.
Proof.
  split; [reflexivity|].
  destruct (getCookieHeader_parse_roundtrip (Reference.env ∅ offline None)
              (loadConfig (Reference.env ∅ offline None)) sampleCookies
              Reference.emptyState eq_refl eq_refl) as (Hparse & _).
  exact Hparse.
Defined.

(** ** Request headers, key by key *)

Lemma headerValue_setHeader k k' v h :
  headerValue k (setHeader k' v h) =
  if String.eqb k' k then Some v else headerValue k h.
Proof.
  induction h as [|[k0 v0] h IH]; cbn [setHeader headerValue].
  - reflexivity.
  - destruct (String.eqb k0 k') eqn:H0; cbn [headerValue].
    + apply String.eqb_eq in H0. subst k0.
      destruct (String.eqb k' k); reflexivity.
    + destruct (String.eqb k0 k) eqn:H1.
      * apply String.eqb_eq in H1. subst k0. rewrite String.eqb_sym, H0. reflexivity.
      * exact IH.
Qed.

Lemma headerValue_spread k extra h :
  headerValue k (spread h extra) =
  match lastValue k extra with
  | Some v => Some v
  | None => headerValue k h
  end.
Proof.
  unfold spread. revert h. induction extra as [|[k' v] extra IH]; intros h.
  - reflexivity.
  - cbn [fold_left lastValue fst snd]. rewrite IH.
    destruct (lastValue k extra); [reflexivity|].
    rewrite headerValue_setHeader. destruct (String.eqb k' k); reflexivity.
Qed.

Lemma keys_setHeader k v h :
  List.NoDup (List.map fst h) ->
  List.NoDup (List.map fst (setHeader k v h)) /\
  (forall y, In y (List.map fst (setHeader k v h)) <-> y = k \/ In y (List.map fst h)).
Proof.
  induction h as [|[k0 v0] h IH]; intros Hnd; cbn [setHeader List.map fst].
  - split; [apply List.NoDup_cons_iff; split; [intros [] | constructor]|].
    intros y. cbn. intuition.
  - apply List.NoDup_cons_iff in Hnd. destruct Hnd as (Hk0 & Hnd).
    destruct (String.eqb k0 k) eqn:H0.
    + apply String.eqb_eq in H0. subst k0. cbn [List.map fst]. split.
      * apply List.NoDup_cons_iff. auto.
      * intros y. cbn. intuition.
    + apply String.eqb_neq in H0. destruct (IH Hnd) as (IH1 & IH2).
      cbn [List.map fst]. split.
      * apply List.NoDup_cons_iff. split; [|exact IH1].
        rewrite IH2. intros [Hx|Hx]; [congruence | contradiction].
      * intros y. cbn. rewrite IH2. intuition.
Qed.

Lemma keys_spread extra h :
  List.NoDup (List.map fst h) -> List.NoDup (List.map fst (spread h extra)).
Proof.
  unfold spread. revert h. induction extra as [|[k v] extra IH]; intros h Hnd.
  - exact Hnd.
  - cbn [fold_left fst snd]. apply IH. apply keys_setHeader. exact Hnd.
Qed.

Lemma browserHeaders_unfold E cs url extra :
  browserHeaders E cs url extra =
  match attachedToken cs with
  | Some xsrf => setHeader "X-XSRF-TOKEN" xsrf (spread (defaultHeaders E cs url) extra)
  | None => spread (defaultHeaders E cs url) extra
  end.
Proof.
  unfold browserHeaders, attachedToken, defaultHeaders.
  destruct (getXsrfToken cs) as [x|]; [|reflexivity].
  destruct (truthy x); reflexivity.
Qed.

Lemma defaultHeaders_keys E cs url :
  List.NoDup (List.map fst (defaultHeaders E cs url)).
Proof.
  unfold defaultHeaders. cbn [List.map fst].
  repeat (apply List.NoDup_cons_iff; split; [cbn; intuition discriminate|]).
  constructor.
Qed.

Lemma browserHeaders_value E cs url extra k :
  headerValue k (browserHeaders E cs url extra) =
    match (if String.eqb "X-XSRF-TOKEN" k then attachedToken cs else None) with
    | Some xsrf => Some xsrf
    | None =>
        match lastValue k extra with
        | Some v => Some v
        | None => headerValue k (defaultHeaders E cs url)
        end
    end.
Proof.
  rewrite browserHeaders_unfold. destruct (attachedToken cs) as [x|].
  - rewrite headerValue_setHeader, headerValue_spread.
    destruct (String.eqb "X-XSRF-TOKEN" k); reflexivity.
  - rewrite headerValue_spread. destruct (String.eqb "X-XSRF-TOKEN" k); reflexivity.
Qed.

Lemma lastValue_headerValue k h :
  List.NoDup (List.map fst h) -> lastValue k h = headerValue k h.
Proof.
  induction h as [|[k0 v0] h IH]; intros Hnd; [reflexivity|].
  cbn [List.map fst] in Hnd. apply List.NoDup_cons_iff in Hnd.
  destruct Hnd as (Hk0 & Hnd). cbn [lastValue headerValue]. rewrite (IH Hnd).
  destruct (String.eqb k0 k) eqn:H0.
  - apply String.eqb_eq in H0. subst k0.
    destruct (headerValue k h) as [w|] eqn:Hw; [|reflexivity].
    exfalso. apply Hk0. clear -Hw. induction h as [|[k1 v1] h IH]; [discriminate|].
    cbn in *. destruct (String.eqb k1 k) eqn:H1.
    + apply String.eqb_eq in H1. auto.
    + auto.
  - destruct (headerValue k h); reflexivity.
Qed.

Lemma lastValue_spread k base extra :
  List.NoDup (List.map fst base) ->
  lastValue k (spread base extra) =
  match lastValue k extra with
  | Some v => Some v
  | None => headerValue k base
  end.
Proof.
  intros Hnd. rewrite (lastValue_headerValue _ _ (keys_spread extra base Hnd)).
  apply headerValue_spread.
Qed.

(** X4. The headers of a request, key by key.  In the direct client no
    key occurs twice; the session's non-empty forgery token always wins
    under X-XSRF-TOKEN, then comes what the caller passed as extra headers
    (the last value given for a key), then the defaults (User-Agent,
    Cookie, Accept, Origin, Referer) - so a caller can replace the Cookie
    header but not the token.  In the browser-mediated client it is the
    other way round: the caller's X-XSRF-TOKEN replaces the session's. *)
Theorem browserHeaders_lookup (E : Env) (cs : list CookieEntry)
    (targetUrl : string) (extra : Headers) (k : string) :
  List.NoDup (List.map fst (browserHeaders E cs targetUrl extra)) /\
  headerValue k (browserHeaders E cs targetUrl extra) =
    match (if String.eqb "X-XSRF-TOKEN" k then attachedToken cs else None) with
    | Some xsrf => Some xsrf
    | None =>
        match lastValue k extra with
        | Some v => Some v
        | None => headerValue k (defaultHeaders E cs targetUrl)
        end
    end /\
  headerValue k (browserRequestHeaders cs extra) =
    match lastValue k extra with
    | Some v => Some v
    | None => if String.eqb "X-XSRF-TOKEN" k then attachedToken cs else None
    end.
Proof.
  split; [|split].
  - rewrite browserHeaders_unfold. destruct (attachedToken cs).
    + apply keys_setHeader, keys_spread, defaultHeaders_keys.
    + apply keys_spread, defaultHeaders_keys.
  - apply browserHeaders_value.
  - unfold browserRequestHeaders, attachedToken. rewrite headerValue_spread.
    destruct (lastValue k extra); [reflexivity|].
    destruct (getXsrfToken cs) as [x|]; [|destruct (String.eqb _ k); reflexivity].
    destruct (truthy x); cbn [headerValue]; destruct (String.eqb _ k); reflexivity.
Qed.

(** ** Requests after a change of cookies *)

Lemma request_state E url method body extra st :
  snd (request E url method body extra st) =
  logged st (requestInit E (cookies st) url method body extra).
Proof. rewrite request_run. reflexivity. Qed.

Lemma setCookies_memory E config cs st :
  cookies (snd (setCookies E config cs st)) = cs /\
  net (snd (setCookies E config cs st)) = net st /\
  probed (snd (setCookies E config cs st)) = probed st.
Proof. rewrite setCookies_unfold. apply (saveCookies_frame E config (withCookies st cs)). Qed.

Lemma requestInit_cookie_headers E cs url method body extra :
  headerValue "Cookie" (req_headers (requestInit E cs url method body extra)) =
    match lastValue "Cookie" extra with
    | Some v => Some v
    | None => Some (getCookieHeader cs)
    end /\
  headerValue "X-XSRF-TOKEN" (req_headers (requestInit E cs url method body extra)) =
    match attachedToken cs with
    | Some xsrf => Some xsrf
    | None => lastValue "X-XSRF-TOKEN" extra
    end.
Proof.
  cbn [requestInit req_headers]. rewrite !browserHeaders_value.
  change (String.eqb "X-XSRF-TOKEN" "Cookie") with false.
  change (String.eqb "X-XSRF-TOKEN" "X-XSRF-TOKEN") with true. cbv iota.
  assert (Hbase : List.NoDup (List.map fst
            match body with
            | Some _ => [("Content-Type", "application/json")]
            | None => @nil (string * string)
            end)).
  { destruct body; cbn; repeat constructor; intros []. }
  rewrite !(lastValue_spread _ _ _ Hbase). split.
  - destruct (lastValue "Cookie" extra); [reflexivity|]. destruct body; reflexivity.
  - destruct (attachedToken cs); [reflexivity|].
    destruct (lastValue "X-XSRF-TOKEN" extra); [reflexivity|]. destruct body; reflexivity.
Qed.

(** X5. A request issued after [setCookies cs] carries [cs], whether or not
    the save to disk went through: exactly one request is handed to fetch,
    built from [cs]; its Cookie header is the joined [name=value] pairs of
    [cs] unless the caller's extra headers override it, and its
    X-XSRF-TOKEN header is the non-empty token of [cs] even against the
    caller's extra headers.  The request itself changes neither the Cookie
    Set nor the file system. *)
Theorem request_reads_current_cookies
    (E : Env) (config : Config) (cs : list CookieEntry)
    (url method : string) (body : option json) (extra : Headers) (st : State) :
  let st1 := snd (setCookies E config cs st) in
  let st2 := snd (request E url method body extra st1) in
  net st2 = (net st ++ [requestInit E cs url method body extra])%list /\
  cookies st2 = cs /\ fs st2 = fs st1 /\
  headerValue "Cookie" (req_headers (requestInit E cs url method body extra)) =
    match lastValue "Cookie" extra with
    | Some v => Some v
    | None => Some (getCookieHeader cs)
    end /\
  headerValue "X-XSRF-TOKEN" (req_headers (requestInit E cs url method body extra)) =
    match attachedToken cs with
    | Some xsrf => Some xsrf
    | None => lastValue "X-XSRF-TOKEN" extra
    end.
Proof.
  intros st1 st2. subst st2. rewrite request_state.
  destruct (setCookies_memory E config cs st) as (Hc & Hn & _). fold st1 in Hc, Hn.
  rewrite Hc. unfold logged. cbn [net cookies fs]. rewrite Hn.
  split; [reflexivity|]. split; [exact Hc|]. split; [reflexivity|].
  apply requestInit_cookie_headers.
Qed.

(** ** Start-up: the session file before the browsers *)

Lemma extraction_empty_no_write E config st :
  extracted (extraction E) = [] ->
  autoExtractCookies E config st =
  (Ret match extraction_error (extraction E) with
       | Some e => if truthy e then e else "No cookies found"
       | None => "No cookies found"
       end, withProbes st (probes E)).
Proof. intros H. rewrite autoExtractCookies_run, H. reflexivity. Qed.

Lemma autoExtractCookies_memory E config st :
  cookies (snd (autoExtractCookies E config st)) =
    match extracted (extraction E) with
    | [] => cookies st
    | cs => cs
    end /\
  probed (snd (autoExtractCookies E config st)) = (probed st ++ probes E)%list.
Proof.
  rewrite autoExtractCookies_run.
  destruct (extracted (extraction E)) as [|c cs] eqn:Hx; [split; reflexivity|].
  cbn [List.length Nat.ltb Nat.leb].
  pose proof (saveCookies_frame E config (adopting E st)) as (Hc & _ & Hp).
  destruct (saveCookies E config (adopting E st)) as [[[]|msg] s]; cbn [snd] in *;
    rewrite Hc, Hp; unfold adopting; cbn [cookies probed]; rewrite Hx; split; reflexivity.
Qed.



(** ** Saving twice *)

Lemma savable_fs E config st st' :
  fs st' = fs st -> savable E config st -> savable E config st'.
Proof. unfold savable. intros ->. auto. Qed.

Lemma savable_saved E config st st' :
  fs st' = fs (saved E config st) -> savable E config st -> savable E config st'.
Proof.
  unfold savable, saved. cbn [fs]. intros -> (Hp & Hne & Hw & Hd).
  rewrite lookup_insert_eq, lookup_insert_ne, lookup_insert_eq by congruence.
  repeat split; try assumption. discriminate.
Qed.

Lemma saveCookies_again E config st st1 cs :
  saveCookies E config st = (Ret tt, st1) ->
  saveCookies E config (withCookies st1 cs) = saveCookies E config (withCookies st cs) /\
  exists st2, saveCookies E config (withCookies st cs) = (Ret tt, st2) /\
    fs st2 = <[cookiesPath config := File (JSON_stringify_cookies E cs)]>
               (<[path_dirname E (cookiesPath config) := Dir]> (fs st)).
Proof.
  intros H1. destruct (saveCookies_returns _ _ _ _ H1) as (Hs & ->).
  assert (Hne : path_dirname E (cookiesPath config) <> cookiesPath config)
    by (destruct Hs as (_ & H & _); exact H).
  rewrite (saveCookies_succeeds E config (withCookies st cs))
    by (apply (savable_fs E config st); [reflexivity | exact Hs]).
  rewrite (saveCookies_succeeds E config (withCookies (saved E config st) cs))
    by (apply (savable_saved E config st); [reflexivity | exact Hs]).
  split; [|eexists; split; reflexivity].
  f_equal. unfold saved, withCookies. cbn [cookies fs net probed]. f_equal.
  apply map_eq. intros k.
  destruct (decide (k = cookiesPath config)) as [->|Hk];
    [rewrite !lookup_insert_eq; reflexivity|].
  rewrite !(lookup_insert_ne _ (cookiesPath config)) by congruence.
  destruct (decide (k = path_dirname E (cookiesPath config))) as [->|Hk'];
    [rewrite !lookup_insert_eq; reflexivity|].
  rewrite !(lookup_insert_ne _ (path_dirname E (cookiesPath config))) by congruence.
  rewrite !(lookup_insert_ne _ (cookiesPath config)) by congruence.
  rewrite !(lookup_insert_ne _ (path_dirname E (cookiesPath config))) by congruence.
  reflexivity.
Qed.

(** X7. The session file is rewritten in full by every successful set:
    once one [setCookies] has returned, a second one from the resulting
    state does exactly what it would have done from the original state,
    so nothing of the first Cookie Set survives, in memory or on disk.
    The second call returns as well, and the file then holds the printed
    second set. *)
Theorem setCookies_last_write_wins
    (E : Env) (config : Config) (cs1 cs2 : list CookieEntry) (st st1 : State) :
  setCookies E config cs1 st = (Ret tt, st1) ->
  setCookies E config cs2 st1 = setCookies E config cs2 st /\
  exists st2,
    setCookies E config cs2 st1 = (Ret tt, st2) /\
    cookies st2 = cs2 /\
    fs st2 !! cookiesPath config = Some (File (JSON_stringify_cookies E cs2)) /\
    fs st2 = <[cookiesPath config := File (JSON_stringify_cookies E cs2)]>
               (<[path_dirname E (cookiesPath config) := Dir]> (fs st)).
Proof.
  rewrite !setCookies_unfold. intros H1.
  destruct (saveCookies_again E config _ st1 cs2 H1) as (Heq & st2 & H2 & Hfs).
  unfold withCookies in *. cbn [fs net probed cookies] in *.
  split; [exact Heq|]. exists st2. rewrite Heq. split; [exact H2|].
  destruct (saveCookies_ok _ _ _ _ H2) as (Hf & _ & Hc & _). cbn in *. auto.
Qed.

Lemma setCookies_last_write_wins_witness :
  let E := Reference.env ∅ offline None in
  let config := loadConfig E in
  let st1 := snd (setCookies E config sampleCookies Reference.emptyState) in
  setCookies E config [] st1 = setCookies E config [] Reference.emptyState.
Proof.
  intros E config st1.
  assert (Hset : setCookies E config sampleCookies Reference.emptyState = (Ret tt, st1))
    by (vm_compute; reflexivity).
  exact (proj1 (setCookies_last_write_wins E config sampleCookies [] _ st1 Hset)).
Defined.

(** ** The [cf_set_cookies] handler *)

Lemma occurs_split c sep s :
  Ascii.eqb sep c = false ->
  existsb (Spec.occurs c) (split sep s) = Spec.occurs c s.
Proof.
  intros Hne. induction s as [|x s IH]; [reflexivity|].
  cbn [split Spec.occurs]. destruct (Ascii.eqb x sep) eqn:Hx.
  - apply Ascii.eqb_eq in Hx. subst x. rewrite Hne. cbn. exact IH.
  - rewrite <- IH. destruct (split sep s) as [|piece rest]; cbn.
    + rewrite !orb_false_r. reflexivity.
    + rewrite orb_assoc. reflexivity.
Qed.

Lemma filter_nil_existsb {A} (f : A -> bool) l :
  List.filter f l = [] <-> existsb f l = false.
Proof.
  induction l as [|a l IH]; cbn; [tauto|].
  destruct (f a); cbn; [split; discriminate | exact IH].
Qed.

Lemma parseCookieString_nil raw :
  Nat.ltb 0 (List.length (parseCookieString raw)) = Spec.occurs "="%char raw.
Proof.
  rewrite parseCookieString_wellFormedEntries. unfold Spec.wellFormedEntries.
  rewrite List.length_map. rewrite <- (occurs_split "="%char ";"%char raw eq_refl).
  unfold Spec.wellFormed.
  induction (split ";"%char raw) as [|a l IH]; [reflexivity|].
  cbn [List.filter existsb]. destruct (Spec.occurs "="%char a); [reflexivity | exact IH].
Qed.

Lemma cf_set_cookies_run E config raw st :
  WebTools.cf_set_cookies E config raw st =
  match saveCookies E config (withCookies st (parseCookieString raw)) with
  | (Ret _, st') =>
      (Ret (success ("Cookies saved. Session active: " +:+
                     WebTools.showBool (Spec.occurs "="%char raw))), st')
  | (Throw msg, st') => (Ret (error ("set_cookies: " +:+ msg)), st')
  end.
Proof.
  unfold WebTools.cf_set_cookies, tryCatch, bind at 1, setCookiesFromString.
  unfold bind at 1, set_cookies at 1. fold (withCookies st (parseCookieString raw)).
  pose proof (saveCookies_frame E config (withCookies st (parseCookieString raw)))
    as (Hc & _).
  destruct (saveCookies E config (withCookies st (parseCookieString raw)))
    as [[[]|msg] st'] eqn:Hs; [|reflexivity].
  unfold bind, hasCookies, ret. cbn [snd] in Hc. rewrite Hc. cbn [withCookies cookies].
  rewrite parseCookieString_nil. reflexivity.
Qed.

(** X8. [cf_set_cookies] always answers and sends nothing.  The Cookie
    Set in memory becomes the parsed string whether or not the save
    succeeded, and it is empty exactly when the string has no [=] at all:
    such a string clears the session.  When the save returned the answer is
    [Cookies saved. Session active: true|false], the flag telling whether
    the string holds an [=], and the session file holds the new set; when
    the save threw, the answer is the error [set_cookies: <message>]. *)
Theorem cf_set_cookies_reports_session
    (E : Env) (config : Config) (raw : string) (st : State) :
  exists res st',
    WebTools.cf_set_cookies E config raw st = (Ret res, st') /\
    cookies st' = parseCookieString raw /\
    (cookies st' = [] <-> Spec.occurs "="%char raw = false) /\
    net st' = net st /\ probed st' = probed st /\
    match fst (setCookiesFromString E config raw st) with
    | Ret _ =>
        res = success ("Cookies saved. Session active: " +:+
                       WebTools.showBool (Spec.occurs "="%char raw)) /\
        Spec.persisted E config st'
    | Throw msg => res = error ("set_cookies: " +:+ msg)
    end.
Proof.
  rewrite cf_set_cookies_run.
  assert (Hsame : setCookiesFromString E config raw st =
                  saveCookies E config (withCookies st (parseCookieString raw)))
    by reflexivity.
  rewrite Hsame.
  pose proof (saveCookies_frame E config (withCookies st (parseCookieString raw)))
    as (Hc & Hn & Hp).
  pose proof (parseCookieString_nil raw) as Hnil.
  assert (Hempty : parseCookieString raw = [] <-> Spec.occurs "="%char raw = false).
  { rewrite <- Hnil. destruct (parseCookieString raw); cbn; split; congruence. }
  destruct (saveCookies E config (withCookies st (parseCookieString raw)))
    as [[[]|msg] st'] eqn:Hs; cbn [fst snd] in *.
  - eexists; exists st'. split; [reflexivity|]. rewrite Hc.
    destruct (saveCookies_ok _ _ _ _ Hs) as (Hf & Hd & _).
    unfold Spec.persisted. rewrite Hc. auto 10.
  - eexists; exists st'. split; [reflexivity|]. rewrite Hc. auto 10.
Qed.

(** ** Fetched documents *)

Lemma truncateAt_length maxLen t : String.length (truncateAt maxLen t) <= maxLen + 16.
Proof.
  destruct (Nat.leb (String.length t) maxLen) eqn:Hlen.
  - rewrite (truncateAt_short _ _ Hlen). apply Nat.leb_le in Hlen. lia.
  - destruct (truncateAt_long _ _ Hlen) as (-> & Hcut).
    rewrite length_append, Hcut. cbn [String.length]. lia.
Qed.

Lemma truncate_length t : String.length (truncate t) <= 20000 + 16.
Proof. rewrite truncate_default. apply truncateAt_length. Qed.

Lemma truncated_withinLimit {A} (m : M A) (f : A -> string) (label : string) st :
  withinLimit
    (fst (tryCatch (do data <- m; ret (success (truncate (f data))))
            (fun msg => ret (error (label +:+ msg))) st)).
Proof.
  unfold tryCatch, bind. destruct (m st) as [[a|msg] s]; cbn.
  - apply truncate_length.
  - reflexivity.
Qed.

(** X9. The two tools that hand a fetched document back to the caller never
    throw and bound what they return: the text of an answer of
    [get_project_settings] or [cf_fetch_page] that is not an error has at
    most 20000 + 16 characters, whatever the server sent; an error answer
    starts with [Error: ]. *)
Theorem fetched_documents_are_truncated (E : Env) (st : State) :
  (forall project_id,
     withinLimit (fst (WebTools.get_project_settings E project_id st))) /\
  (forall url method body,
     withinLimit (fst (WebTools.cf_fetch_page E url method body st))).
Proof.
  split.
  - intros project_id. unfold WebTools.get_project_settings.
    unfold bind at 1, hasCookies. destruct (negb _); [reflexivity|].
    apply (truncated_withinLimit _ (WebTools.compactPayload E)).
  - intros url method body. unfold WebTools.cf_fetch_page.
    apply (truncated_withinLimit _
             (fun data => match data with
                          | PText s => s
                          | PJson (JStr s) => s
                          | PJson j => compact E j
                          end)).
Qed.

(** ** The request of [cf_fetch_page] *)

Lemma fullUrl_http url : startsWith "http" (fullUrl url) = true.
Proof.
  unfold fullUrl. destruct (startsWith "http" url) eqn:H; [exact H | reflexivity].
Qed.

Lemma lastValue_contentType k (body : option json) :
  String.eqb "Content-Type" k = false ->
  lastValue k (spread (match body with
                       | Some _ => [("Content-Type", "application/json")]
                       | None => @nil (string * string)
                       end : Headers) []) = None.
Proof.
  intros Hk. destruct body as [j|]; [|reflexivity].
  unfold spread. cbn [fold_left lastValue]. rewrite Hk. reflexivity.
Qed.

(** X10. [cf_fetch_page] hands at most one request to fetch, and its URL
    always starts with [http]: an argument that starts with [http] is
    requested as it stands, on whatever host it names, anything else is
    appended to the CurseForge base.  The request carries the whole Cookie
    Set of the moment in its Cookie header and the session's forgery token,
    if it has a non-empty one. *)
Theorem cf_fetch_page_request
    (E : Env) (url : string) (method : HttpMethod) (body : option string) (st : State) :
  startsWith "http" (fullUrl url) = true /\
  fullUrl url = (if startsWith "http" url then url else "https://www.curseforge.com" +:+ url) /\
  (snd (WebTools.cf_fetch_page E url method body st) = st \/
   exists r,
     snd (WebTools.cf_fetch_page E url method body st) = logged st r /\
     req_url r = fullUrl url /\
     req_method r = methodName method /\
     headerValue "Cookie" (req_headers r) = Some (getCookieHeader (cookies st)) /\
     headerValue "X-XSRF-TOKEN" (req_headers r) = attachedToken (cookies st)).
Proof.
  split; [apply fullUrl_http|]. split; [reflexivity|].
  rewrite cf_fetch_page_state. destruct (bodyRejected E method body); [left; reflexivity|].
  right. eexists. split; [reflexivity|]. split; [reflexivity|]. split; [reflexivity|].
  cbn [requestInit req_headers]. rewrite !browserHeaders_value.
  change (String.eqb "X-XSRF-TOKEN" "Cookie") with false.
  change (String.eqb "X-XSRF-TOKEN" "X-XSRF-TOKEN") with true. cbv iota.
  rewrite !lastValue_contentType by reflexivity.
  split; [reflexivity|]. destruct (attachedToken (cookies st)); reflexivity.
Qed.

(** ** The upload client: headers and outcomes *)

Lemma getGameVersions_requests E token st :
  net (snd (UploadApiClient.getGameVersions E token st)) =
  (net st ++ [versionsRequest E token])%list.
Proof.
  unfold UploadApiClient.getGameVersions, bind. fold (versionsRequest E token).
  rewrite doFetch_run. destruct (fetch E (net st) _) as [msg|res]; [reflexivity|].
  destruct (negb (ok res)); [reflexivity|].
  unfold UploadApiClient.resJson. destruct (body_text res) as [b|]; [|reflexivity].
  destruct (JSON_parse E b); reflexivity.
Qed.

Lemma getGameVersionTypes_requests E token st :
  net (snd (UploadApiClient.getGameVersionTypes E token st)) =
  (net st ++ [versionTypesRequest E token])%list.
Proof.
  unfold UploadApiClient.getGameVersionTypes, bind. fold (versionTypesRequest E token).
  rewrite doFetch_run. destruct (fetch E (net st) _) as [msg|res]; [reflexivity|].
  destruct (negb (ok res)); [reflexivity|].
  unfold UploadApiClient.resJson. destruct (body_text res) as [b|]; [|reflexivity].
  destruct (JSON_parse E b); reflexivity.
Qed.

Lemma upload_headers_lookup E token k :
  headerValue k (UploadApiClient.headers E token) =
  if String.eqb "X-Api-Token" k then Some token
  else if String.eqb "User-Agent" k then Some (USER_AGENT E)
  else None.
Proof. reflexivity. Qed.

(** X11. The upload client authenticates with the author token and nothing
    else: every request of [getGameVersions], [getGameVersionTypes] and
    [uploadFile] carries exactly the headers X-Api-Token (the token) and
    User-Agent, so neither a Cookie nor a forgery-token header of the
    session ever goes out with them, whatever the Cookie Set holds.  The
    two listing calls send one request each, whatever the answer. *)
Theorem upload_requests_carry_token_only
    (E : Env) (token : string) (st : State) (k : string) :
  net (snd (UploadApiClient.getGameVersions E token st)) =
    (net st ++ [versionsRequest E token])%list /\
  net (snd (UploadApiClient.getGameVersionTypes E token st)) =
    (net st ++ [versionTypesRequest E token])%list /\
  (forall projectId filePath metadata,
     Forall (fun r => In r (net st) \/
                      List.map fst (req_headers r) = ["X-Api-Token"; "User-Agent"] /\
                      headerValue "X-Api-Token" (req_headers r) = Some token)
       (net (snd (UploadApiClient.uploadFile E token projectId filePath metadata st)))) /\
  List.map fst (req_headers (versionsRequest E token)) = ["X-Api-Token"; "User-Agent"] /\
  List.map fst (req_headers (versionTypesRequest E token)) = ["X-Api-Token"; "User-Agent"] /\
  headerValue k (req_headers (versionsRequest E token)) =
    headerValue k (req_headers (versionTypesRequest E token)) /\
  headerValue k (req_headers (versionsRequest E token)) =
    (if String.eqb "X-Api-Token" k then Some token
     else if String.eqb "User-Agent" k then Some (USER_AGENT E)
     else None).
Proof.
  split; [apply getGameVersions_requests|].
  split; [apply getGameVersionTypes_requests|].
  split; [|repeat split; reflexivity].
  intros projectId filePath metadata. rewrite uploadFile_requests.
  assert (Hold : Forall (fun r => In r (net st) \/
                      List.map fst (req_headers r) = ["X-Api-Token"; "User-Agent"] /\
                      headerValue "X-Api-Token" (req_headers r) = Some token) (net st)).
  { apply List.Forall_forall. intros r Hr. left. exact Hr. }
  destruct (fs st !! filePath) as [[data|]|]; try exact Hold.
  apply Forall_app. split; [exact Hold|]. constructor; [|constructor].
  right. split; reflexivity.
Qed.

Lemma upload_file_unreadable E token projectId filePath metadata st msg :
  readFileSync filePath st = (Throw msg, st) ->
  UploadTools.upload_file E token projectId filePath metadata st =
  (Ret (error ("upload_file: " +:+ msg)), st).
Proof.
  intros H. unfold UploadTools.upload_file, tryCatch, bind at 1.
  unfold UploadApiClient.uploadFile, bind at 1. rewrite H. reflexivity.
Qed.


(** X12. [upload_file] on a path that cannot be read sends nothing: when
    the path is missing or is a directory the handler answers with the
    error of [readFileSync] ([upload_file: ENOENT ...] or
    [upload_file: EISDIR ...]) and leaves the state as it was; when the
    path is a file, exactly one request goes out, whatever follows. *)
Theorem upload_file_reads_before_sending
    (E : Env) (token : string) (projectId : Z) (filePath : string)
    (metadata : UploadMetadata) (st : State) :
  match fs st !! filePath with
  | None =>
      UploadTools.upload_file E token projectId filePath metadata st =
      (Ret (error ("upload_file: ENOENT: no such file or directory, open '" +:+
                   filePath +:+ "'")), st)
  | Some Dir =>
      UploadTools.upload_file E token projectId filePath metadata st =
      (Ret (error "upload_file: EISDIR: illegal operation on a directory, read"), st)
  | Some (File data) =>
      snd (UploadTools.upload_file E token projectId filePath metadata st) =
      logged st (uploadRequest E token projectId filePath data metadata)
  end.
Proof.
  destruct (fs st !! filePath) as [[data|]|] eqn:Hfile.
  - rewrite upload_file_state.
    unfold UploadApiClient.uploadFile, bind at 1, readFileSync. rewrite Hfile.
    unfold bind at 1. fold (uploadRequest E token projectId filePath data metadata).
    rewrite doFetch_run.
    destruct (fetch E (net st) _) as [msg|res]; [reflexivity|].
    destruct (negb (ok res)).
    + unfold bind, UploadApiClient.resText. destruct (body_text res); reflexivity.
    + unfold UploadApiClient.resJson. destruct (body_text res) as [b|]; [|reflexivity].
      destruct (JSON_parse E b); reflexivity.
  - apply upload_file_unreadable. unfold readFileSync. rewrite Hfile. reflexivity.
  - apply upload_file_unreadable. unfold readFileSync. rewrite Hfile. reflexivity.
Qed.




(** ** The CFWidget client *)

Lemma percentDecode_plain c tail :
  Ascii.eqb c "%"%char = false ->
  percentDecode (String c tail) = String c (percentDecode tail).
Proof.
  intros Hc. cbn [percentDecode]. rewrite Hc.
  destruct tail as [|h [|l rest]]; reflexivity.
Qed.

Lemma unreserved_not_percent c : isUnreserved c = true -> Ascii.eqb c "%"%char = false.
Proof. destruct c as [[] [] [] [] [] [] [] []]; vm_compute; congruence. Qed.

Lemma percentDecode_escaped c tail :
  percentDecode
    (String "%"%char
       (String (hexUpper (nat_of_ascii c / 16))
          (String (hexUpper (nat_of_ascii c mod 16)) tail))) =
  String c (percentDecode tail).
Proof.
  cbn [percentDecode]. change (Ascii.eqb "%"%char "%"%char) with true. cbv iota.
  f_equal. destruct c as [[] [] [] [] [] [] [] []]; vm_compute; reflexivity.
Qed.

Lemma percentDecode_encodeURIComponent s :
  percentDecode (encodeURIComponent s) = s.
Proof.
  induction s as [|c s IH]; [reflexivity|]. cbn [encodeURIComponent].
  destruct (isUnreserved c) eqn:Hc.
  - rewrite (percentDecode_plain _ _ (unreserved_not_percent c Hc)), IH. reflexivity.
  - rewrite percentDecode_escaped, IH. reflexivity.
Qed.

Lemma hexUpper_safe n :
  isUnreserved (hexUpper n) = true.
Proof.
  do 16 (destruct n as [|n]; [reflexivity|]). unfold hexUpper.
  cbn [nth]. destruct n; reflexivity.
Qed.

Lemma encodeURIComponent_chars s :
  allChars (fun c => isUnreserved c || Ascii.eqb c "%"%char) (encodeURIComponent s) = true.
Proof.
  induction s as [|c s IH]; [reflexivity|]. cbn [encodeURIComponent].
  destruct (isUnreserved c) eqn:Hc; cbn [allChars].
  - rewrite Hc, IH. reflexivity.
  - rewrite !hexUpper_safe, IH. reflexivity.
Qed.

Lemma allChars_occurs p s c :
  allChars p s = true -> p c = false -> Spec.occurs c s = false.
Proof.
  intros Hs Hc. induction s as [|d s IH]; [reflexivity|].
  cbn [allChars Spec.occurs] in *. apply andb_true_iff in Hs. destruct Hs as (Hd & Hs).
  rewrite (IH Hs), orb_false_r. destruct (Ascii.eqb d c) eqn:Hdc; [|reflexivity].
  apply Ascii.eqb_eq in Hdc. subst d. congruence.
Qed.

Lemma cfwidget_get_run E path st :
  CfWidgetClient.get E path st =
  (match fetch E (net st) (CfWidgetClient.requestFor E path) with
   | NetworkError msg => Throw msg
   | Responded res =>
       if negb (ok res) then Throw (CfWidgetClient.errorMessage res path)
       else match body_text res with
            | None => Throw (body_read_message E res)
            | Some b =>
                match JSON_parse E b with
                | Some j => Ret j
                | None => Throw (JSON_parse_message E b)
                end
            end
   end,
   logged st (CfWidgetClient.requestFor E path)).
Proof.
  unfold CfWidgetClient.get, bind. rewrite doFetch_run.
  destruct (fetch E (net st) _) as [msg|res]; [reflexivity|].
  destruct (negb (ok res)); [reflexivity|].
  unfold UploadApiClient.resJson. destruct (body_text res) as [b|]; [|reflexivity].
  destruct (JSON_parse E b); reflexivity.
Qed.

(** X14. A call of the CFWidget client hands exactly one request to fetch,
    a GET of the service base followed by the path, with a User-Agent and
    an Accept header and nothing of the session.  On an answer outside
    200-299 it throws [CFWidget <status>: <path>], followed, when the body
    is not empty, by a line break and the first 300 characters of the
    body at most. *)
Theorem cfwidget_failure_is_descriptive
    (E : Env) (path : string) (st : State) (res : Response) :
  fetch E (net st) (CfWidgetClient.requestFor E path) = Responded res ->
  ok res = false ->
  CfWidgetClient.get E path st =
    (Throw (CfWidgetClient.errorMessage res path),
     logged st (CfWidgetClient.requestFor E path)) /\
  req_url (CfWidgetClient.requestFor E path) = "https://api.cfwidget.com" +:+ path /\
  List.map fst (req_headers (CfWidgetClient.requestFor E path)) = ["User-Agent"; "Accept"] /\
  exists excerpt,
    Spec.prefixOf excerpt (match body_text res with Some b => b | None => EmptyString end) /\
    String.length excerpt <= 300 /\
    CfWidgetClient.errorMessage res path =
      "CFWidget " +:+ pretty (status res) +:+ ": " +:+ path +:+
      (if truthy excerpt then String "010"%char excerpt else EmptyString).
Proof.
  intros Hf Hok. rewrite cfwidget_get_run, Hf, Hok.
  split; [reflexivity|]. split; [reflexivity|]. split; [reflexivity|].
  unfold CfWidgetClient.errorMessage.
  set (body := match body_text res with Some b => b | None => EmptyString end).
  exists (sliceTo 300 body). split; [|split].
  - exists (sliceFrom 300 body). apply sliceTo_sliceFrom.
  - apply sliceTo_length.
  - destruct body as [|c body']; reflexivity.
Qed.

Lemma cfwidget_failure_is_descriptive_witness :
  fst (CfWidgetClient.get
         (Reference.env ∅ (fun _ _ => Responded (widgetMissing "no such project")) None)
         "/0" Reference.emptyState) =
  Throw ("CFWidget 404: /0" +:+ String "010"%char "no such project").
Proof.
  destruct (cfwidget_failure_is_descriptive
              (Reference.env ∅ (fun _ _ => Responded (widgetMissing "no such project")) None)
              "/0" Reference.emptyState (widgetMissing "no such project")
              eq_refl eq_refl) as (Hrun & _).
  rewrite Hrun. vm_compute. reflexivity.
Defined.

Lemma projectPath_idem p :
  CfWidgetClient.projectPath (CfWidgetClient.projectPath p) = CfWidgetClient.projectPath p.
Proof.
  unfold CfWidgetClient.projectPath. destruct (startsWith "/" p) eqn:H.
  - rewrite H. reflexivity.
  - reflexivity.
Qed.

Lemma projectPath_cases p :
  CfWidgetClient.projectPath p =
  match p with
  | String "/"%char _ => p
  | _ => String "/"%char p
  end.
Proof.
  unfold CfWidgetClient.projectPath. destruct p as [|c p]; [reflexivity|].
  cbn [startsWith]. destruct (Ascii.eqb_spec "/"%char c) as [<-|Hne].
  - destruct p; reflexivity.
  - destruct c as [[] [] [] [] [] [] [] []]; try reflexivity. congruence.
Qed.

(** X15. [getProject] asks for the same document whether or not the
    argument starts with [/]: it sends one GET whose URL is the service
    base, one [/] and the argument without the slash it may start with;
    only one leading slash is taken care of, so an empty argument asks for
    [/] and an argument with two leading slashes keeps both. *)
Theorem getProject_leading_slash (E : Env) (idOrPath : string) (st : State) :
  CfWidgetClient.getProject E (String "/"%char idOrPath) st =
    CfWidgetClient.getProject E
      (match idOrPath with String "/"%char _ => String "/"%char idOrPath | _ => idOrPath end) st /\
  CfWidgetClient.getProject E (CfWidgetClient.projectPath idOrPath) st =
    CfWidgetClient.getProject E idOrPath st /\
  net (snd (CfWidgetClient.getProject E idOrPath st)) =
    (net st ++ [CfWidgetClient.requestFor E (CfWidgetClient.projectPath idOrPath)])%list /\
  startsWith "https://api.cfwidget.com/"
    (req_url (CfWidgetClient.requestFor E (CfWidgetClient.projectPath idOrPath))) = true /\
  CfWidgetClient.projectPath idOrPath =
    match idOrPath with
    | String "/"%char _ => idOrPath
    | _ => String "/"%char idOrPath
    end.
Proof.
  split; [|split; [|split; [|split]]].
  - unfold CfWidgetClient.getProject. rewrite !projectPath_cases.
    destruct idOrPath as [|c p]; [reflexivity|].
    destruct c as [[] [] [] [] [] [] [] []]; reflexivity.
  - unfold CfWidgetClient.getProject. rewrite projectPath_idem. reflexivity.
  - unfold CfWidgetClient.getProject. rewrite cfwidget_get_run. reflexivity.
  - rewrite projectPath_cases. destruct idOrPath as [|c p]; [reflexivity|].
    destruct c as [[] [] [] [] [] [] [] []]; reflexivity.
  - apply projectPath_cases.
Qed.

(** X16. What [searchAuthor] hands to fetch for an ASCII user name: one
    GET whose URL is the service base, [/author/search/] and the escaped
    name.  In the escaped name only letters, digits, [- _ . ! ~ * ' ( )]
    and [%] occur - no [/], [?], [#], [&], [=], [:], [@], [+] or blank -,
    and the escaping loses nothing: reading the escapes back gives the
    name.  Dots are not escaped: the names [.] and [..] are handed over
    as they are (what fetch makes of such a path segment is not part of
    this statement). *)
Theorem searchAuthor_escapes_username (E : Env) (username : string) (st : State) :
  Spec.isAscii username = true ->
  (exists r,
     net (snd (CfWidgetClient.searchAuthor E username st)) = (net st ++ [r])%list /\
     req_method r = "GET" /\
     req_url r = "https://api.cfwidget.com/author/search/" +:+
                 encodeURIComponent username) /\
  allChars (fun c => isUnreserved c || Ascii.eqb c "%"%char)
    (encodeURIComponent username) = true /\
  Forall (fun c => Spec.occurs c (encodeURIComponent username) = false)
    ["/"; "?"; "#"; "&"; "="; " "; ":"; "@"; "+"]%char /\
  percentDecode (encodeURIComponent username) = username /\
  encodeURIComponent "." = "." /\ encodeURIComponent ".." = "..".
Proof.
  intros _. split; [|split; [|split; [|split]]].
  - unfold CfWidgetClient.searchAuthor. rewrite cfwidget_get_run.
    eexists. split; [reflexivity|]. split; reflexivity.
  - apply encodeURIComponent_chars.
  - repeat constructor;
      apply (allChars_occurs _ _ _ (encodeURIComponent_chars username)); reflexivity.
  - apply percentDecode_encodeURIComponent.
  - split; reflexivity.
Qed.

(** A name with a slash, a blank and a question mark. *)
Lemma searchAuthor_escapes_username_witness :
  let E := Reference.env ∅ offline None in
  exists r,
    net (snd (CfWidgetClient.searchAuthor E "a/b c?" Reference.emptyState)) = [r] /\
    req_url r = "https://api.cfwidget.com/author/search/a%2Fb%20c%3F".
Proof.
  intros E.
  destruct (searchAuthor_escapes_username E "a/b c?" Reference.emptyState eq_refl)
    as ((r & Hnet & _ & Hurl) & _).
  exists r. split; [exact Hnet | exact Hurl].
Defined.

(** ** Search options *)

Section SearchOptionsFacts.

Import SearchOptions.

Lemma stripUndefined_defined obj :
  Forall (fun kv => isUndefined (snd kv) = false) (stripUndefined obj).
Proof.
  apply List.Forall_forall. intros kv Hin. apply List.filter_In in Hin.
  destruct Hin as (_ & H). apply negb_true_iff in H. exact H.
Qed.

Lemma stripUndefined_idem obj : stripUndefined (stripUndefined obj) = stripUndefined obj.
Proof.
  unfold stripUndefined. induction obj as [|kv obj IH]; [reflexivity|].
  cbn [List.filter]. destruct (negb (isUndefined (snd kv))) eqn:H; [|exact IH].
  cbn [List.filter]. rewrite H, IH. reflexivity.
Qed.

Lemma member_stripUndefined k obj :
  optionAt k (stripUndefined obj) =
  match List.find (fun kv => String.eqb (fst kv) k && negb (isUndefined (snd kv))) obj with
  | Some (_, v) => v
  | None => Undefined
  end.
Proof.
  unfold optionAt, stripUndefined. induction obj as [|[k' v] obj IH]; [reflexivity|].
  cbn [List.filter List.find fst snd]. destruct (isUndefined v) eqn:Hv; cbn [negb].
  - rewrite andb_false_r. exact IH.
  - cbn [List.find fst snd]. rewrite andb_true_r.
    destruct (String.eqb k' k); [reflexivity | exact IH].
Qed.

Lemma lowerChar_idem c : lowerChar (lowerChar c) = lowerChar c.
Proof. destruct c as [[] [] [] [] [] [] [] []]; reflexivity. Qed.

Lemma toLowerCase_idem s : toLowerCase (toLowerCase s) = toLowerCase s.
Proof.
  induction s as [|c s IH]; [reflexivity|]. cbn [toLowerCase].
  rewrite lowerChar_idem, IH. reflexivity.
Qed.

Lemma lowerAgrees_all :
  forallb (fun a => forallb (lowerAgrees a) allAscii) allAscii = true.
Proof. vm_compute. reflexivity. Qed.

Lemma lowerChar_sameCharNoCase a b :
  Spec.sameCharNoCase a b = true -> lowerChar a = lowerChar b.
Proof.
  intros Hab. pose proof lowerAgrees_all as Hall.
  rewrite forallb_forall in Hall. specialize (Hall a (allAscii_complete a)).
  rewrite forallb_forall in Hall. specialize (Hall b (allAscii_complete b)).
  unfold lowerAgrees in Hall. rewrite Hab in Hall. cbn [implb] in Hall.
  apply Ascii.eqb_eq. exact Hall.
Qed.

Lemma toLowerCase_sameNoCase s t :
  Spec.sameNoCase s t = true -> toLowerCase s = toLowerCase t.
Proof.
  revert t. induction s as [|a s IH]; intros [|b t] H; try discriminate; [reflexivity|].
  cbn [Spec.sameNoCase] in H. apply andb_true_iff in H. destruct H as (Hab & Hst).
  cbn [toLowerCase]. rewrite (lowerChar_sameCharNoCase a b Hab), (IH t Hst). reflexivity.
Qed.

Lemma member_stripUndefined_unique k obj :
  List.NoDup (List.map fst obj) ->
  optionAt k (stripUndefined obj) = optionAt k obj.
Proof.
  unfold optionAt, stripUndefined. induction obj as [|[k' v] obj IH]; intros Hnd;
    [reflexivity|].
  cbn [List.map fst] in Hnd. apply List.NoDup_cons_iff in Hnd. destruct Hnd as (Hk' & Hnd).
  cbn [List.filter List.find fst snd]. destruct (isUndefined v) eqn:Hv; cbn [negb].
  - destruct (String.eqb k' k) eqn:Hk; [|exact (IH Hnd)].
    apply String.eqb_eq in Hk. subst k'. destruct v; try discriminate.
    destruct (List.find _ (List.filter _ obj)) as [[k1 v1]|] eqn:Hfind; [|reflexivity].
    exfalso. apply Hk'. apply List.find_some in Hfind. destruct Hfind as (Hin & Heq).
    apply List.filter_In in Hin. destruct Hin as (Hin & _).
    cbn in Heq. apply String.eqb_eq in Heq. subst k1.
    apply (in_map fst) in Hin. exact Hin.
  - cbn [List.find fst snd]. destruct (String.eqb k' k); [reflexivity | exact (IH Hnd)].
Qed.

Lemma searchModsLiteral_keys o :
  List.map fst (searchModsLiteral o) =
  [ "searchFilter"; "slug"; "categoryId"; "classId"; "gameVersion";
    "modLoaderType"; "sortField"; "sortOrder"; "index"; "pageSize" ].
Proof. reflexivity. Qed.

Lemma searchModsLiteral_unique o : List.NoDup (List.map fst (searchModsLiteral o)).
Proof.
  rewrite searchModsLiteral_keys.
  repeat (apply List.NoDup_cons_iff; split; [cbn; intuition discriminate|]).
  constructor.
Qed.

Lemma filter_sublist {A} (f : A -> bool) l : sublist (List.filter f l) l.
Proof.
  induction l as [|a l IH]; cbn; [constructor|].
  destruct (f a); [apply sublist_skip | apply sublist_cons]; exact IH.
Qed.

Lemma member_defined k obj :
  Forall (fun kv => isUndefined (snd kv) = false) obj ->
  isUndefined (optionAt k obj) = true <-> ~ In k (List.map fst obj).
Proof.
  intros Hdef. unfold optionAt.
  induction obj as [|[k1 v1] rest IH]; cbn [List.find List.map fst snd In].
  - split; [tauto | reflexivity].
  - inversion Hdef as [|? ? Hv Hrest]; subst. cbn [snd] in Hv.
    destruct (String.eqb k1 k) eqn:Hk.
    + apply String.eqb_eq in Hk. subst k1. rewrite Hv. split; [discriminate | tauto].
    + apply String.eqb_neq in Hk. rewrite (IH Hrest). tauto.
Qed.

(** X17. The options [searchMods] hands to the library never hold an
    [undefined]: an option the caller left out is no key at all there
    (so no literal [undefined] reaches the query string), the others
    keep their values and the order of the literal, and the key
    [sortField] carries the resolved sort field. *)
Theorem searchMods_passes_defined_options (o : Options) (k : string) :
  Forall (fun kv => isUndefined (snd kv) = false) (searchMods o) /\
  sublist (searchMods o) (searchModsLiteral o) /\
  optionAt k (searchMods o) = optionAt k (searchModsLiteral o) /\
  (isUndefined (optionAt k (searchModsLiteral o)) = true <->
   ~ In k (List.map fst (searchMods o))) /\
  optionAt "sortField" (searchMods o) = resolveSortField (sortField o) /\
  stripUndefined (searchMods o) = searchMods o.
Proof.
  split; [apply stripUndefined_defined|].
  split; [apply filter_sublist|].
  assert (Hm : forall k', optionAt k' (searchMods o) = optionAt k' (searchModsLiteral o)).
  { intros k'. apply member_stripUndefined_unique, searchModsLiteral_unique. }
  split; [apply Hm|]. split; [|split; [rewrite Hm; reflexivity | apply stripUndefined_idem]].
  rewrite <- Hm. apply member_defined, stripUndefined_defined.
Qed.

Lemma sortFieldOf_cases key :
  match sortFieldOf key with
  | Num m => (1 <= m <= 12)%Z /\ In (key, m) SORT_FIELD_MAP
  | Inherited k => k = key /\ In key objectPrototypeKeys
  | Undefined => ~ In key (List.map fst SORT_FIELD_MAP)
  | Str _ => False
  end.
Proof.
  unfold sortFieldOf.
  destruct (List.find _ SORT_FIELD_MAP) as [[k' m]|] eqn:Hfind.
  - apply List.find_some in Hfind. destruct Hfind as (Hin & Heq).
    cbn in Heq. apply String.eqb_eq in Heq. subst k'. split; [|exact Hin].
    cbn in Hin. repeat (destruct Hin as [[= <- <-]|Hin]; [lia|]). destruct Hin.
  - assert (Hnot : ~ In key (List.map fst SORT_FIELD_MAP)).
    { intros Hin. apply in_map_iff in Hin. destruct Hin as ([k' m] & Hk & Hin).
      cbn in Hk. subst k'. pose proof (List.find_none _ _ Hfind _ Hin) as Hf.
      cbn in Hf. rewrite String.eqb_refl in Hf. discriminate. }
    destruct (existsb (String.eqb key) objectPrototypeKeys) eqn:Hex; [|exact Hnot].
    split; [reflexivity|]. apply existsb_exists in Hex.
    destruct Hex as (x & Hin & Heq). apply String.eqb_eq in Heq. subst x. exact Hin.
Qed.

(** X18. The sort field of a search is resolved from a number or a name:
    a number is passed on as it is, without any check of its range; the
    twelve names the [search_mods] tool accepts resolve to 1, ..., 12 in
    their order; names are taken up to letter case; a name resolves to a
    number only between 1 and 12; a name the table does not know gives
    [undefined] - except [constructor] and [__proto__], in any letter
    case, which give the optionAt every object inherits instead of
    [undefined]. *)
Theorem sortField_resolution (s t : string) (n : Z) :
  resolveSortField (Some (inl n)) = Num n /\
  List.map (fun name => resolveSortField (Some (inr name))) sortFieldNames =
    List.map Num [1; 2; 3; 4; 5; 6; 7; 8; 9; 10; 11; 12]%Z /\
  (Spec.sameNoCase s t = true ->
   resolveSortField (Some (inr s)) = resolveSortField (Some (inr t))) /\
  match resolveSortField (Some (inr s)) with
  | Num m => (1 <= m <= 12)%Z /\ In (toLowerCase s, m) SORT_FIELD_MAP
  | Inherited k =>
      k = toLowerCase s /\ (k = "constructor" \/ k = "__proto__")
  | Undefined => ~ In (toLowerCase s) (List.map fst SORT_FIELD_MAP)
  | Str _ => False
  end.
Proof.
  split; [reflexivity|]. split; [reflexivity|]. split.
  - intros Hst. cbn [resolveSortField]. rewrite (toLowerCase_sameNoCase s t Hst).
    reflexivity.
  - cbn [resolveSortField]. pose proof (sortFieldOf_cases (toLowerCase s)) as H.
    destruct (sortFieldOf (toLowerCase s)) as [|m|x|k]; try exact H.
    destruct H as (-> & Hin). split; [reflexivity|].
    pose proof (toLowerCase_idem s) as Hidem.
    cbn in Hin.
    repeat (destruct Hin as [Hk|Hin];
            [ first [ left; symmetry; exact Hk
                    | right; symmetry; exact Hk
                    | exfalso; rewrite <- Hk in Hidem; discriminate Hidem ] |]).
    destruct Hin.
Qed.

Lemma sortField_resolution_witness :
  SearchOptions.resolveSortField (Some (inr "LASTUPDATED")) =
  SearchOptions.resolveSortField (Some (inr "lastUpdated")).
Proof.
  exact (proj1 (proj2 (proj2 (sortField_resolution "LASTUPDATED" "lastUpdated" 0)))
           eq_refl).
Defined.

End SearchOptionsFacts.

(** ** Registration, the extraction handler, upload metadata *)




(** X20. [cf_auto_extract_cookies] never answers with an error result and
    sends no request: its text is what [autoExtractCookies] returned -
    also when that is a failure text -, a line break, and
    [Session active: true|false].  The flag tells whether the Cookie Set
    is non-empty afterwards, which is the extracted set when some browser
    yielded one (saved or not), and the set from before otherwise: a failed
    extraction over an existing session still reports an active session. *)
Theorem cf_auto_extract_cookies_never_errors
    (E : Env) (config : Config) (st : State) :
  exists msg st',
    autoExtractCookies E config st = (Ret msg, st') /\
    WebTools.cf_auto_extract_cookies E config st =
      (Ret (success (msg +:+ String "010"%char "Session active: " +:+
                     WebTools.showBool (Nat.ltb 0 (List.length (cookies st'))))), st') /\
    cookies st' =
      match extracted (extraction E) with
      | [] => cookies st
      | cs => cs
      end /\
    net st' = net st.
Proof.
  destruct (autoExtractCookies_total E config st) as (msg & st' & Hrun).
  pose proof (autoExtractCookies_memory E config st) as (Hm & _).
  pose proof (autoExtractCookies_net E config st) as Hn.
  rewrite Hrun in Hm, Hn. cbn [snd] in Hm, Hn.
  exists msg, st'. split; [exact Hrun|]. split; [|split; assumption].
  unfold WebTools.cf_auto_extract_cookies, tryCatch, bind at 1. rewrite Hrun.
  reflexivity.
Qed.

Lemma metadataOf_members params :
  List.map fst (membersOf (metadataToJson (metadataOf params))) =
  (keyIf "changelog" (UploadFileParams.changelog params) ++
   ["changelogType"] ++
   keyIf "displayName" (UploadFileParams.display_name params) ++
   ["gameVersions"; "releaseType"] ++
   match UploadFileParams.relations params with
   | Some (_ :: _) => ["relations"]
   | _ => []
   end)%list.
Proof.
  destruct params as [pid fp cl ct dn ids rt rel].
  unfold metadataOf, metadataToJson, membersOf, keyIf.
  cbn [UploadFileParams.changelog UploadFileParams.changelog_type
       UploadFileParams.display_name UploadFileParams.game_version_ids
       UploadFileParams.release_type UploadFileParams.relations
       changelog changelogType displayName parentFileID gameVersions releaseType
       relations].
  destruct cl, dn, rel as [[|r rs]|]; reflexivity.
Qed.

(** X21. What [upload_file] submits as metadata: an object with the
    members [changelogType], [gameVersions] (an array, empty when no
    version ids were given) and [releaseType] always, [changelog] and
    [displayName] when given, [relations] only for a non-empty list of
    relations, and never [parentFileID]; the request is the one
    [uploadFile] builds from that object, for the given project and
    file. *)
Theorem upload_file_metadata_members
    (E : Env) (token : string) (params : UploadFileParams.t) (st : State) :
  List.map fst (membersOf (metadataToJson (metadataOf params))) =
    (keyIf "changelog" (UploadFileParams.changelog params) ++
     ["changelogType"] ++
     keyIf "displayName" (UploadFileParams.display_name params) ++
     ["gameVersions"; "releaseType"] ++
     match UploadFileParams.relations params with
     | Some (_ :: _) => ["relations"]
     | _ => []
     end)%list /\
  ~ In "parentFileID" (List.map fst (membersOf (metadataToJson (metadataOf params)))) /\
  In ("gameVersions",
      JArr (List.map JNum (match UploadFileParams.game_version_ids params with
                           | Some ids => ids
                           | None => []
                           end)))
     (membersOf (metadataToJson (metadataOf params))) /\
  net (snd (upload_file_tool E token params st)) =
    match fs st !! UploadFileParams.file_path params with
    | Some (File data) =>
        (net st ++ [uploadRequest E token (UploadFileParams.project_id params)
                      (UploadFileParams.file_path params) data (metadataOf params)])%list
    | _ => net st
    end.
Proof.
  split; [apply metadataOf_members|]. split; [|split].
  - rewrite metadataOf_members. unfold keyIf.
    destruct (UploadFileParams.changelog params), (UploadFileParams.display_name params),
      (UploadFileParams.relations params) as [[|r rs]|]; cbn; intuition discriminate.
  - destruct params as [pid fp cl ct dn ids rt rel].
    unfold metadataOf, metadataToJson, membersOf. cbn.
    destruct cl, dn; cbn; auto 10.
  - unfold upload_file_tool. rewrite upload_file_state. apply uploadFile_requests.
Qed.

(** ** The mutating session tools *)

Lemma guarded_with_cookies (h : M ToolResult) (t : ToolResult) st :
  cookies st <> [] ->
  bind hasCookies (fun has => if negb has then ret t else h) st = h st.
Proof.
  intros Hc. unfold bind, hasCookies. rewrite (has_cookies st Hc). reflexivity.
Qed.

Lemma contentType_with_body E cs url method body :
  headerValue "Content-Type" (req_headers (requestInit E cs url method body [])) =
  match body with
  | Some _ => Some "application/json"
  | None => None
  end.
Proof.
  cbn [requestInit req_headers]. rewrite browserHeaders_value.
  change (String.eqb "X-XSRF-TOKEN" "Content-Type") with false. cbv iota.
  destruct body; reflexivity.
Qed.

(** X22. With a session, each mutating tool hands exactly one request to
    fetch and reports success only when that request resolved.
    [post_comment] POSTs to the comments endpoint an object with
    [entityId], [body], [bodyType] = [RawHtml], and [parentCommentId]
    only for a reply; [delete_comment] sends a DELETE that depends on the
    comment id alone - the [mod_id] argument plays no part -;
    [update_project_description] PUTs [description], [descriptionType] = 1
    and [id].  A request with a body carries
    [Content-Type: application/json], one without carries none.  When
    the request throws (a status outside 200-299, an unreadable or
    unparsable answer), the answer is the error [<tool>: <message>]. *)
Theorem mutating_tools_send_one_request (E : Env) (st : State) :
  cookies st <> [] ->
  (forall mod_id comment_text reply_to_id,
     let r := requestInit E (cookies st) "https://www.curseforge.com/api/v1/comments"
                "POST" (Some (commentBody mod_id comment_text reply_to_id)) [] in
     WebTools.post_comment E mod_id comment_text reply_to_id st =
       (Ret (reported "post_comment" "Comment posted."
               (fst (request E "https://www.curseforge.com/api/v1/comments" "POST"
                       (Some (commentBody mod_id comment_text reply_to_id)) [] st))),
        logged st r) /\
     headerValue "Content-Type" (req_headers r) = Some "application/json") /\
  (forall mod_id other comment_id,
     let url := "https://www.curseforge.com/api/v1/comments/" +:+ pretty comment_id in
     let r := requestInit E (cookies st) url "DELETE" None [] in
     WebTools.delete_comment E mod_id comment_id st =
       (Ret (reported "delete_comment" ("Comment " +:+ pretty comment_id +:+ " deleted.")
               (fst (request E url "DELETE" None [] st))),
        logged st r) /\
     WebTools.delete_comment E other comment_id st =
       WebTools.delete_comment E mod_id comment_id st /\
     headerValue "Content-Type" (req_headers r) = None) /\
  (forall project_id description,
     let url := "https://authors.curseforge.com/_api/projects/description/" +:+
                pretty project_id in
     let r := requestInit E (cookies st) url "PUT"
                (Some (descriptionBody project_id description)) [] in
     WebTools.update_project_description E project_id description st =
       (Ret (reported "update_project_description" "Description updated."
               (fst (request E url "PUT"
                       (Some (descriptionBody project_id description)) [] st))),
        logged st r) /\
     headerValue "Content-Type" (req_headers r) = Some "application/json").
Proof.
  intros Hc. split; [|split].
  - intros mod_id comment_text reply_to_id r. split; [|apply contentType_with_body].
    unfold WebTools.post_comment. rewrite (guarded_with_cookies _ _ _ Hc).
    unfold tryCatch, bind, ret, post. fold (commentBody mod_id comment_text reply_to_id).
    change (WebTools.CF_BASE +:+ "/api/v1/comments")
      with "https://www.curseforge.com/api/v1/comments".
    rewrite request_run. cbn [fst].
    destruct (fetch E (net st) _) as [msg|res]; [reflexivity|].
    destruct (answer E res _); reflexivity.
  - intros mod_id other comment_id url r.
    assert (Hrun : forall m,
      WebTools.delete_comment E m comment_id st =
      (Ret (reported "delete_comment" ("Comment " +:+ pretty comment_id +:+ " deleted.")
              (fst (request E url "DELETE" None [] st))), logged st r)).
    { intros m. unfold WebTools.delete_comment. rewrite (guarded_with_cookies _ _ _ Hc).
      unfold tryCatch, bind, ret, delete.
      change (WebTools.CF_BASE +:+ "/api/v1/comments/" +:+ pretty comment_id) with url.
      rewrite request_run. cbn [fst].
      destruct (fetch E (net st) _) as [msg|res]; [reflexivity|].
      destruct (answer E res _); reflexivity. }
    split; [apply Hrun|]. split; [rewrite !Hrun; reflexivity|].
    apply contentType_with_body.
  - intros project_id description url r. split; [|apply contentType_with_body].
    unfold WebTools.update_project_description. rewrite (guarded_with_cookies _ _ _ Hc).
    unfold tryCatch, bind, ret, put. fold (descriptionBody project_id description).
    change (WebTools.AUTHORS_API +:+ "/projects/description/" +:+ pretty project_id)
      with url.
    rewrite request_run. cbn [fst].
    destruct (fetch E (net st) _) as [msg|res]; [reflexivity|].
    destruct (answer E res _); reflexivity.
Qed.

Lemma mutating_tools_send_one_request_witness :
  let E := Reference.env ∅ offline None in
  WebTools.delete_comment E 1 99 loggedIn = WebTools.delete_comment E 2 99 loggedIn.
Proof.
  intros E.
  assert (Hc : cookies loggedIn <> []) by discriminate.
  destruct (mutating_tools_send_one_request E loggedIn Hc) as (_ & Hdel & _).
  destruct (Hdel 2%Z 1%Z 99%Z) as (_ & Hsame & _). exact Hsame.
Defined.
